(** * X News Crawler: alert engine, spike detection and source resolution

    A shallow embedding of the TypeScript sources of the dashboard's
    signal-ingestion-and-alerting pipeline:

    - [lib/db/schema.ts]            the record types ([Schema]);
    - [lib/alerts/engine.ts]        [detectSpike] ([Spike], [Double]),
                                    [evaluateCondition], [evaluateAlert]
                                    ([Conditions], [Double]),
                                    [executeAction], [triggerAlert],
                                    [AlertEngine] ([Engine]);
    - [lib/api/rss-feeds.ts]        [fetchAllRssFeeds], [filterByKeywords]
                                    ([Rss]);
    - [lib/mock/tweet-generator.ts] [generateMockTweet] ([Mock],
                                    [Generator]);
    - [app/api/tweets/route.ts]     the [GET] handler ([Route]).

    Conventions of the embedding.

    - A JavaScript [number] is an exact rational ([Q]) in the records
      and wherever the code only compares numbers.  Where a statement
      pins down a value that the code computes by adding, multiplying
      or dividing, the function is embedded over IEEE doubles
      ([Double]), with their rounding, their infinities and [NaN].
    - A [number] that is the result of [parseInt] is [option Z], [None]
      standing for [NaN].
    - A [Date] is its time value in milliseconds ([Z]).
    - A string is a sequence of bytes.  [toLowerCase] is that of ASCII
      strings, and the statements about the case of letters are about
      ASCII keywords and texts.
    - An optional field [f?: T] is [option T]; [undefined] is [None].
    - Network calls, the clock and [Math.random] are supplied by the
      world, as functions of the number of calls made so far; effects
      (webhook posts, notifications) are appended to a trace that is
      threaded through a small state monad.  Concurrent actions are
      modelled by the order in which they are started, and the promises
      of a fan-out by the order in which they settle. *)

From Stdlib Require Import List Bool Arith ZArith QArith Qabs Qround Lia.
From Stdlib Require Import Ascii String DecimalString.
From Stdlib Require Import Sorted Permutation.
From Stdlib Require Import Lqa.
From Stdlib Require SpecFloat.
Import ListNotations.

Set Implicit Arguments.

(* ================================================================== *)
(** ** JavaScript built-ins used by the sources *)
(* ================================================================== *)

Module JS.

(** [a >= b] and [a > b] on numbers. *)
Definition geb (a b : Q) : bool := Qle_bool b a.
Definition gtb (a b : Q) : bool := negb (Qle_bool a b).

(** [x === 0]. *)
Definition is_zero (x : Q) : bool := Qeq_bool x 0.

(** [x || d] for an optional number: [undefined] and [0] are falsy. *)
Definition or_default (x : option Q) (d : Q) : Q :=
  match x with
  | Some q => if is_zero q then d else q
  | None => d
  end.

(** A default parameter [p = d]: only [undefined] is replaced. *)
Definition default_param (x : option Q) (d : Q) : Q :=
  match x with
  | Some q => q
  | None => d
  end.

(** The length of an array as a number. *)
Definition len {A} (l : list A) : Q := inject_Z (Z.of_nat (List.length l)).

(** [arr.reduce((a, b) => a + b, 0)]. *)
Definition sum (l : list Q) : Q := fold_left Qplus l 0.

(** [arr.slice(0, n)] for a non-negative integer literal [n]. *)
Definition slice0 {A} (n : nat) (l : list A) : list A := firstn n l.

(** [arr.slice(0, -1)]. *)
Definition slice0_m1 {A} (l : list A) : list A := removelast l.

(** [arr.every(p)] and [arr.some(p)]. *)
Definition every {A} (p : A -> bool) (l : list A) : bool := forallb p l.
Definition some {A} (p : A -> bool) (l : list A) : bool := existsb p l.

(** [Math.abs]. *)
Definition abs (x : Q) : Q := Qabs x.

(** [s.toLowerCase()], on the ASCII letters. *)
Definition lower_ascii (c : ascii) : ascii :=
  let n := nat_of_ascii c in
  if ((65 <=? n) && (n <=? 90))%nat then ascii_of_nat (n + 32) else c.

Fixpoint toLowerCase (s : string) : string :=
  match s with
  | EmptyString => EmptyString
  | String c s' => String (lower_ascii c) (toLowerCase s')
  end.

(** [s.includes(kw)]: [kw] occurs in [s] as a substring. *)
Fixpoint includes (s kw : string) : bool :=
  String.prefix kw s
  || match s with
     | EmptyString => false
     | String _ s' => includes s' kw
     end.

(** A string is truthy unless it is empty. *)
Definition truthy_string (s : string) : bool :=
  match s with
  | EmptyString => false
  | String _ _ => true
  end.

(** [s || d] for an optional string ([null] and the empty string are
    falsy) and [s ?? d] (only [null] is replaced). *)
Definition or_string (s : option string) (d : string) : string :=
  match s with
  | Some x => if truthy_string x then x else d
  | None => d
  end.

Definition nullish_string (s : option string) (d : string) : string :=
  match s with
  | Some x => x
  | None => d
  end.

(** [s.split(',')]. *)
Fixpoint split_comma (s : string) : list string :=
  match s with
  | EmptyString => [EmptyString]
  | String c s' =>
      if Ascii.eqb c ","%char then EmptyString :: split_comma s'
      else match split_comma s' with
           | piece :: pieces => String c piece :: pieces
           | [] => [String c EmptyString]
           end
  end.

(** [arr.includes(x)] on an array of strings. *)
Definition includes_string (l : list string) (x : string) : bool :=
  existsb (String.eqb x) l.

(** *** Numbers that may be [NaN]: the results of [parseInt] *)

Definition JNum : Type := option Z.

(** The white space that [parseInt] skips, among the ASCII characters. *)
Definition is_space (c : ascii) : bool :=
  let n := nat_of_ascii c in
  ((n =? 32) || ((9 <=? n) && (n <=? 13)))%nat.

Fixpoint skip_spaces (s : string) : string :=
  match s with
  | String c s' => if is_space c then skip_spaces s' else s
  | EmptyString => s
  end.

Definition digit_value (c : ascii) : option Z :=
  let n := nat_of_ascii c in
  if ((48 <=? n) && (n <=? 57))%nat then Some (Z.of_nat (n - 48))
  else if ((97 <=? n) && (n <=? 122))%nat then Some (Z.of_nat (n - 87))
  else if ((65 <=? n) && (n <=? 90))%nat then Some (Z.of_nat (n - 55))
  else None.

(** The longest prefix of digits of the radix, read left to right;
    [None] when there is no digit at all. *)
Fixpoint read_digits (radix : Z) (acc : option Z) (s : string) : option Z :=
  match s with
  | EmptyString => acc
  | String c s' =>
      match digit_value c with
      | Some d =>
          if (d <? radix)%Z
          then read_digits radix
                 (Some (match acc with Some a => a * radix + d | None => d end)%Z) s'
          else acc
      | None => acc
      end
  end.

Definition strip_hex_prefix (s : string) : option string :=
  match s with
  | String "0" (String "x" s') | String "0" (String "X" s') => Some s'
  | _ => None
  end.

Definition parse_unsigned (s : string) : JNum :=
  match strip_hex_prefix s with
  | Some s' => read_digits 16 None s'
  | None => read_digits 10 None s
  end.

(** [parseInt(s)], with no radix argument. *)
Definition parseInt (s : string) : JNum :=
  match skip_spaces s with
  | String "-" s' => option_map Z.opp (parse_unsigned s')
  | String "+" s' => parse_unsigned s'
  | s' => parse_unsigned s'
  end.

(** [Math.min(x, 50)]: [NaN] is contagious. *)
Definition min_with (x : JNum) (bound : Z) : JNum := option_map (fun z => Z.min z bound) x.

(** [Math.ceil(x / n) + k] for an array length [n >= 1]. *)
Definition ceil_div_plus (x : JNum) (n : nat) (k : Z) : JNum :=
  option_map (fun z => (- ((- z) / Z.of_nat n) + k)%Z) x.

(** [arr.slice(0, end)]: [NaN] is 0 and a negative [end] counts from the
    end of the array. *)
Definition slice_to {A} (l : list A) (e : JNum) : list A :=
  match e with
  | None => []
  | Some z =>
      if (z <? 0)%Z then firstn (List.length l - Z.to_nat (- z)) l
      else firstn (Z.to_nat z) l
  end.

(** The number of elements of [Array.from({ length: x }, ...)]:
    [NaN] and negative lengths give the empty array. *)
Definition toLength (x : JNum) : nat :=
  match x with
  | None => 0%nat
  | Some z => Z.to_nat z
  end.

End JS.

(* ================================================================== *)
(** ** lib/db/schema.ts *)
(* ================================================================== *)

Module Schema.

Inductive TweetCategory : Type :=
| breaking_news | rumor | opinion | analysis | official | spam | unknown.

Definition TweetCategory_eqb (a b : TweetCategory) : bool :=
  match a, b with
  | breaking_news, breaking_news | rumor, rumor | opinion, opinion
  | analysis, analysis | official, official | spam, spam
  | unknown, unknown => true
  | _, _ => false
  end.

Inductive SentimentLabel : Type := positive | negative | neutral.

Record SentimentAnalysis : Type := {
  score : Q;
  label : SentimentLabel;
  confidence : Q;
  keywords : list string;
  analyzedAt : Z
}.

Record Author : Type := {
  author_id : string;
  username : string;
  displayName : string;
  avatarUrl : string;
  verified : bool;
  followerCount : Q
}.

Record Metrics : Type := {
  likes : Q;
  retweets : Q;
  replies : Q;
  views : Q
}.

Inductive TweetSource : Type := src_api | src_mock | src_crawler.

(** [createdAt] is the value of [Date.getTime()], in milliseconds. *)
Record Tweet : Type := {
  id : string;
  text : string;
  author : Author;
  metrics : Metrics;
  createdAt : Z;
  source : TweetSource;
  sentiment : option SentimentAnalysis;
  category : option TweetCategory;
  spamScore : option Q;
  isFiltered : option bool
}.

Inductive ConditionType : Type :=
| velocity_spike | sentiment_shift | keyword_match | category_match.

Record AlertCondition : Type := {
  ctype : ConditionType;
  threshold : option Q;
  ckeywords : option (list string);
  categories : option (list TweetCategory);
  windowMinutes : option Q
}.

Inductive ActionType : Type :=
| discord_webhook | in_app_notification | email.

Record AlertAction : Type := {
  atype : ActionType;
  webhookUrl : option string;
  aemail : option string
}.

Record Alert : Type := {
  alert_id : string;
  name : string;
  enabled : bool;
  conditions : list AlertCondition;
  actions : list AlertAction;
  alert_createdAt : Z;
  lastTriggeredAt : option Z;
  triggerCount : Q
}.

Record VelocitySnapshot : Type := {
  snap_id : string;
  timestamp : Z;
  count : Q;
  sentimentAvg : Q;
  topCategories : list (TweetCategory * Q);
  topKeywords : list (string * Q)
}.

End Schema.

(* ================================================================== *)
(** ** lib/alerts/engine.ts: spike detection *)
(* ================================================================== *)

Module Spike.
Import Schema.

Inductive Severity : Type := low | medium | high | critical.

Record SpikeDetectionResult : Type := {
  isSpike : bool;
  severity : Severity;
  percentageIncrease : Q;
  currentCount : Q;
  averageCount : Q
}.

(** [snapshots.slice(0, -1).map((s) => s.count)]. *)
Definition previousCounts (snapshots : list VelocitySnapshot) : list Q :=
  map count (JS.slice0_m1 snapshots).

(** [snapshots[snapshots.length - 1].count], read only when the array
    has at least two elements. *)
Definition recentCount (snapshots : list VelocitySnapshot) : Q :=
  last (map count snapshots) 0.

Definition mean (counts : list Q) : Q := JS.sum counts / JS.len counts.

Definition detectSpike (snapshots : list VelocitySnapshot)
           (thresholdPercent : option Q) : SpikeDetectionResult :=
  let thresholdPercent := JS.default_param thresholdPercent 300 in
  if (List.length snapshots <? 2)%nat then
    {| isSpike := false;
       severity := low;
       percentageIncrease := 0;
       currentCount := JS.or_default (option_map count (nth_error snapshots 0)) 0;
       averageCount := 0 |}
  else
    let recentCount := recentCount snapshots in
    let averageCount := mean (previousCounts snapshots) in
    if JS.is_zero averageCount then
      {| isSpike := JS.gtb recentCount 10;
         severity := if JS.gtb recentCount 50 then high
                     else if JS.gtb recentCount 20 then medium
                     else low;
         percentageIncrease := 100;
         currentCount := recentCount;
         averageCount := 0 |}
    else
      let percentageIncrease :=
        ((recentCount - averageCount) / averageCount) * 100 in
      {| isSpike := JS.geb percentageIncrease thresholdPercent;
         severity := if JS.geb percentageIncrease 500 then critical
                     else if JS.geb percentageIncrease 400 then high
                     else if JS.geb percentageIncrease 300 then medium
                     else low;
         percentageIncrease := percentageIncrease;
         currentCount := recentCount;
         averageCount := averageCount |}.

End Spike.

(* ================================================================== *)
(** ** lib/alerts/engine.ts: condition evaluation *)
(* ================================================================== *)

Module Conditions.
Import Schema Spike.

Record AlertContext : Type := {
  tweets : list Tweet;
  snapshots : list VelocitySnapshot;
  currentVelocity : Q;
  averageVelocity : Q
}.

(** [.filter((t) => t.sentiment)]: an object is truthy. *)
Definition has_sentiment (t : Tweet) : bool :=
  match sentiment t with
  | Some _ => true
  | None => false
  end.

(** [t.sentiment?.score || 0]. *)
Definition score_or_zero (t : Tweet) : Q :=
  JS.or_default (option_map score (sentiment t)) 0.

(** [t.category && condition.categories?.includes(t.category)]. *)
Definition category_in (cats : list TweetCategory) (t : Tweet) : bool :=
  match category t with
  | Some c => existsb (TweetCategory_eqb c) cats
  | None => false
  end.

(** The [sentiment_shift] case: the scores of the tweets that have a
    sentiment are summed, and the sum is divided by the number of all
    the tweets of the window. *)
Definition avgSentiment (recentTweets : list Tweet) : Q :=
  fold_left (fun sum t => sum + score_or_zero t)
            (filter has_sentiment recentTweets) 0
  / JS.len recentTweets.

(** The [category_match] case. *)
Definition matchCount (cats : list TweetCategory) (recentTweets : list Tweet) : Q :=
  JS.len (filter (category_in cats) recentTweets).

Definition evaluateCondition (condition : AlertCondition)
           (context : AlertContext) : bool :=
  match ctype condition with
  | velocity_spike =>
      let spike := detectSpike (snapshots context)
                     (Some (JS.or_default (threshold condition) 300)) in
      isSpike spike
  | sentiment_shift =>
      if (List.length (tweets context) <? 10)%nat then false
      else
        let recentTweets := JS.slice0 20 (tweets context) in
        let avgSentiment := avgSentiment recentTweets in
        let threshold := JS.or_default (threshold condition) (1 # 2) in
        JS.geb (JS.abs avgSentiment) threshold
  | keyword_match =>
      match ckeywords condition with
      | None | Some [] => false
      | Some kws =>
          let recentTweets := JS.slice0 50 (tweets context) in
          let keywords := map JS.toLowerCase kws in
          JS.some (fun tweet =>
                     JS.some (fun keyword =>
                                JS.includes (JS.toLowerCase (text tweet)) keyword)
                             keywords)
                  recentTweets
      end
  | category_match =>
      match categories condition with
      | None | Some [] => false
      | Some cats =>
          let recentTweets := JS.slice0 20 (tweets context) in
          let matchCount := matchCount cats recentTweets in
          JS.geb matchCount (JS.or_default (threshold condition) 5)
      end
  end.

Definition evaluateAlert (alert : Alert) (context : AlertContext) : bool :=
  if negb (enabled alert) then false
  else JS.every (fun condition => evaluateCondition condition context)
                (conditions alert).

End Conditions.

(* ================================================================== *)
(** ** The numbers of the code: IEEE 754 doubles *)
(* ================================================================== *)

(** A JavaScript [number] is a binary64 float.  [Spike] and
    [Conditions] above compute with exact rationals, which is what the
    code computes wherever it only compares numbers.  This module has
    the arithmetic of the code itself: every sum, difference, product
    and quotient is rounded to the nearest double, ties to even, and
    infinities, [NaN] and the two zeros are there, as the Standard
    Library's [SpecFloat] specifies them.  [detectSpike] and
    [evaluateCondition] are embedded a second time over it, operation
    by operation. *)
Module Double.
Import Schema.

Definition number : Set := SpecFloat.spec_float.

Definition prec : Z := 53.
Definition emax : Z := 1024.

(** The double nearest to an integer. *)
Definition of_Z (z : Z) : number :=
  SpecFloat.binary_normalize prec emax z 0 false.

Definition zero : number := SpecFloat.S754_zero false.

(** [a + b], [a - b], [a * b], [a / b] and [Math.abs]. *)
Definition add : number -> number -> number := SpecFloat.SFadd prec emax.
Definition sub : number -> number -> number := SpecFloat.SFsub prec emax.
Definition mul : number -> number -> number := SpecFloat.SFmul prec emax.
Definition div : number -> number -> number := SpecFloat.SFdiv prec emax.
Definition abs : number -> number := SpecFloat.SFabs.

(** [a >= b], [a > b] and [a < b]: all false on [NaN]. *)
Definition geb (a b : number) : bool := SpecFloat.SFleb b a.
Definition gtb (a b : number) : bool := SpecFloat.SFltb b a.
Definition ltb (a b : number) : bool := SpecFloat.SFltb a b.

(** [x === 0]: true of both zeros. *)
Definition is_zero (x : number) : bool := SpecFloat.SFeqb x zero.

Definition is_nan (x : number) : bool :=
  match x with
  | SpecFloat.S754_nan => true
  | _ => false
  end.

(** A number is truthy unless it is a zero or [NaN]. *)
Definition truthy (x : number) : bool := negb (is_zero x || is_nan x).

(** [x || d] for an optional number. *)
Definition or_default (x : option number) (d : number) : number :=
  match x with
  | Some v => if truthy v then v else d
  | None => d
  end.

(** A default parameter [p = d]: only [undefined] is replaced. *)
Definition default_param (x : option number) (d : number) : number :=
  match x with
  | Some v => v
  | None => d
  end.

(** The number that a field of the schema holds.  The records carry
    rationals; the code holds the double nearest to it, which is the
    rational itself when it is a double (every finite double is a
    rational), and what JavaScript reads from a decimal literal
    otherwise: [num (1 # 10)] is the double [0.1]. *)
Definition num (q : Q) : number :=
  div (of_Z (Qnum q)) (of_Z (Zpos (Qden q))).

(** The length of an array as a number. *)
Definition len {A} (l : list A) : number := of_Z (Z.of_nat (List.length l)).

(** The exact value of a finite double, in lowest terms. *)
Definition value (x : number) : option Q :=
  match x with
  | SpecFloat.S754_zero _ => Some 0
  | SpecFloat.S754_finite s m e =>
      let scale := if (e <? 0)%Z then 1 # (2 ^ Z.to_pos (- e))
                   else inject_Z (2 ^ e) in
      let a := inject_Z (Zpos m) * scale in
      Some (Qred (if s then - a else a))
  | _ => None
  end.

(** *** [detectSpike] *)

Record SpikeDetectionResult : Type := {
  isSpike : bool;
  severity : Spike.Severity;
  percentageIncrease : number;
  currentCount : number;
  averageCount : number
}.

(** [s.count]. *)
Definition count_of (s : VelocitySnapshot) : number := num (count s).

Definition detectSpike (snapshots : list VelocitySnapshot)
           (thresholdPercent : option number) : SpikeDetectionResult :=
  let thresholdPercent := default_param thresholdPercent (of_Z 300) in
  if (List.length snapshots <? 2)%nat then
    {| isSpike := false;
       severity := Spike.low;
       percentageIncrease := zero;
       currentCount := or_default (option_map count_of (nth_error snapshots 0)) zero;
       averageCount := zero |}
  else
    let recentCount := last (map count_of snapshots) zero in
    let previousCounts := map count_of (JS.slice0_m1 snapshots) in
    let averageCount := div (fold_left add previousCounts zero)
                            (len previousCounts) in
    if is_zero averageCount then
      {| isSpike := gtb recentCount (of_Z 10);
         severity := if gtb recentCount (of_Z 50) then Spike.high
                     else if gtb recentCount (of_Z 20) then Spike.medium
                     else Spike.low;
         percentageIncrease := of_Z 100;
         currentCount := recentCount;
         averageCount := zero |}
    else
      let percentageIncrease :=
        mul (div (sub recentCount averageCount) averageCount) (of_Z 100) in
      {| isSpike := geb percentageIncrease thresholdPercent;
         severity := if geb percentageIncrease (of_Z 500) then Spike.critical
                     else if geb percentageIncrease (of_Z 400) then Spike.high
                     else if geb percentageIncrease (of_Z 300) then Spike.medium
                     else Spike.low;
         percentageIncrease := percentageIncrease;
         currentCount := recentCount;
         averageCount := averageCount |}.

(** *** [evaluateCondition] *)

(** [t.sentiment?.score || 0]. *)
Definition score_or_zero (t : Tweet) : number :=
  or_default (option_map (fun s => num (score s)) (sentiment t)) zero.

(** [condition.threshold || d]. *)
Definition threshold_or (condition : AlertCondition) (d : number) : number :=
  or_default (option_map num (threshold condition)) d.

(** The [sentiment_shift] case: the scores of the tweets that have a
    sentiment are summed from left to right, and the sum is divided by
    the number of all the tweets of the window. *)
Definition avgSentiment (recentTweets : list Tweet) : number :=
  div (fold_left (fun sum t => add sum (score_or_zero t))
                 (filter Conditions.has_sentiment recentTweets) zero)
      (len recentTweets).

Definition evaluateCondition (condition : AlertCondition)
           (context : Conditions.AlertContext) : bool :=
  match ctype condition with
  | velocity_spike =>
      let spike := detectSpike (Conditions.snapshots context)
                     (Some (threshold_or condition (of_Z 300))) in
      isSpike spike
  | sentiment_shift =>
      if (List.length (Conditions.tweets context) <? 10)%nat then false
      else
        let recentTweets := JS.slice0 20 (Conditions.tweets context) in
        let avgSentiment := avgSentiment recentTweets in
        let threshold := threshold_or condition (num (1 # 2)) in
        geb (abs avgSentiment) threshold
  | keyword_match =>
      match ckeywords condition with
      | None | Some [] => false
      | Some kws =>
          let recentTweets := JS.slice0 50 (Conditions.tweets context) in
          let keywords := map JS.toLowerCase kws in
          JS.some (fun tweet =>
                     JS.some (fun keyword =>
                                JS.includes (JS.toLowerCase (text tweet)) keyword)
                             keywords)
                  recentTweets
      end
  | category_match =>
      match categories condition with
      | None | Some [] => false
      | Some cats =>
          let recentTweets := JS.slice0 20 (Conditions.tweets context) in
          let matchCount := len (filter (Conditions.category_in cats) recentTweets) in
          geb matchCount (threshold_or condition (of_Z 5))
      end
  end.

End Double.

Arguments Double.add : simpl never.
Arguments Double.sub : simpl never.
Arguments Double.mul : simpl never.
Arguments Double.div : simpl never.
Arguments Double.num : simpl never.
Arguments Double.of_Z : simpl never.
Arguments Double.len : simpl never.
Arguments Double.geb : simpl never.
Arguments Double.gtb : simpl never.
Arguments Double.ltb : simpl never.
Arguments Double.is_zero : simpl never.

(* ================================================================== *)
(** ** Effects: the network, the clock and the console *)
(* ================================================================== *)

Module Effects.
Import Schema Conditions.

(** What [await fetch(url, ...)] does: it throws, or it resolves to a
    response whose [ok] flag tells whether the status was 2xx. *)
Inductive FetchResult : Type :=
| NetworkError
| Response (ok : bool).

Record Trigger : Type := {
  trigger_type : string;
  details : string;
  trigger_tweets : option (list Tweet);
  velocity : option Q;
  trigger_sentiment : option Q
}.

Record AlertTriggerData : Type := {
  data_alert : Alert;
  trigger : Trigger;
  data_timestamp : Z
}.

(** The observable actions of the dispatcher.  The body of a webhook
    post is a function of the trigger data, which is what is recorded;
    [console.error] diagnostics are not recorded. *)
Inductive Event : Type :=
| WebhookPost (url : string) (data : AlertTriggerData)
| InAppNotification (data : AlertTriggerData)
| EmailNotification (data : AlertTriggerData).

(** The engine instance together with the world it runs in: the fields
    of [AlertEngine], the trace of events so far, and how many times the
    network and the clock have been consulted. *)
Record State : Type := {
  alerts : list Alert;
  context : AlertContext;
  checkInterval : option Q;
  trace : list Event;
  fetches : nat;
  clock_reads : nat
}.

Definition M (A : Type) : Type := State -> A * State.

Definition ret {A} (a : A) : M A := fun s => (a, s).

Definition bind {A B} (m : M A) (k : A -> M B) : M B :=
  fun s => let (a, s') := m s in k a s'.

Definition gets {A} (f : State -> A) : M A := fun s => (f s, s).

Definition emit (e : Event) : M unit :=
  fun s => (tt, {| alerts := alerts s; context := context s;
                   checkInterval := checkInterval s;
                   trace := trace s ++ [e];
                   fetches := fetches s; clock_reads := clock_reads s |}).

(** [for (const x of xs) { ... }] and [xs.map(f)] with effects,
    left to right. *)
Fixpoint mapM {A B} (f : A -> M B) (xs : list A) : M (list B) :=
  match xs with
  | [] => ret []
  | x :: xs' =>
      bind (f x) (fun y => bind (mapM f xs') (fun ys => ret (y :: ys)))
  end.

End Effects.

Declare Scope io_scope.
Delimit Scope io_scope with io.
Notation "x <- m ;; k" := (Effects.bind m (fun x => k))
  (at level 61, m at next level, right associativity) : io_scope.
Notation "m ;;; k" := (Effects.bind m (fun _ => k))
  (at level 61, right associativity) : io_scope.

(* ================================================================== *)
(** ** lib/alerts/engine.ts: dispatch and the engine *)
(* ================================================================== *)

Module Engine.
Import Schema Conditions Effects.

Section WithWorld.

(** [net n url]: the outcome of the [n]-th call of [fetch], a POST to
    [url].  [clock n]: the value of the [n]-th [new Date()]. *)
Variable net : nat -> string -> FetchResult.
Variable clock : nat -> Z.

Local Open Scope io_scope.

Definition fetch_post (url : string) (data : AlertTriggerData) : M FetchResult :=
  fun s => (net (fetches s) url,
            {| alerts := alerts s; context := context s;
               checkInterval := checkInterval s;
               trace := trace s ++ [WebhookPost url data];
               fetches := S (fetches s); clock_reads := clock_reads s |}).

Definition new_Date : M Z :=
  fun s => (clock (clock_reads s),
            {| alerts := alerts s; context := context s;
               checkInterval := checkInterval s;
               trace := trace s;
               fetches := fetches s; clock_reads := S (clock_reads s) |}).

(** [try { return (await fetch(...)).ok } catch { return false }]. *)
Definition sendDiscordWebhook (webhookUrl : string)
           (data : AlertTriggerData) : M bool :=
  r <- fetch_post webhookUrl data ;;
  match r with
  | Response ok => ret ok
  | NetworkError => ret false
  end.

Definition executeAction (action : AlertAction)
           (data : AlertTriggerData) : M bool :=
  match atype action with
  | discord_webhook =>
      match webhookUrl action with
      | None => ret false
      | Some url =>
          if JS.truthy_string url then sendDiscordWebhook url data
          else ret false
      end
  | in_app_notification =>
      emit (InAppNotification data) ;;; ret true
  | email =>
      emit (EmailNotification data) ;;; ret true
  end.

Definition dquote : string := String (ascii_of_nat 34) EmptyString.

Definition triggerData (alert : Alert) (context : AlertContext)
           (timestamp : Z) : AlertTriggerData :=
  {| data_alert := alert;
     trigger :=
       {| trigger_type := "velocity_spike";
          details := "Alert " ++ dquote ++ name alert ++ dquote
                     ++ " triggered based on configured conditions.";
          trigger_tweets := Some (JS.slice0 5 (tweets context));
          velocity := Some (currentVelocity context);
          trigger_sentiment :=
            match nth_error (tweets context) 0 with
            | Some t => option_map score (sentiment t)
            | None => None
            end |};
     data_timestamp := timestamp |}.

(** [Promise.all(alert.actions.map(...))]: every action is started, in
    the order of the array, and the results come back in that order. *)
Definition runActions (actions : list AlertAction)
           (data : AlertTriggerData) : M (list bool) :=
  mapM (fun action => executeAction action data) actions.

Definition triggerAlert (alert : Alert) (context : AlertContext) : M bool :=
  timestamp <- new_Date ;;
  results <- runActions (actions alert) (triggerData alert context timestamp) ;;
  ret (JS.some (fun r => r) results).

(** *** class AlertEngine *)

Record PartialContext : Type := {
  p_tweets : option (list Tweet);
  p_snapshots : option (list VelocitySnapshot);
  p_currentVelocity : option Q;
  p_averageVelocity : option Q
}.

Definition spread {A} (old : A) (new : option A) : A :=
  match new with
  | Some a => a
  | None => old
  end.

Definition setAlerts (new_alerts : list Alert) : M unit :=
  fun s => (tt, {| alerts := new_alerts; context := context s;
                   checkInterval := checkInterval s;
                   trace := trace s;
                   fetches := fetches s; clock_reads := clock_reads s |}).

Definition updateContext (c : PartialContext) : M unit :=
  fun s => (tt, {| alerts := alerts s;
                   context :=
                     {| tweets := spread (tweets (context s)) (p_tweets c);
                        snapshots := spread (snapshots (context s)) (p_snapshots c);
                        currentVelocity :=
                          spread (currentVelocity (context s)) (p_currentVelocity c);
                        averageVelocity :=
                          spread (averageVelocity (context s)) (p_averageVelocity c) |};
                   checkInterval := checkInterval s;
                   trace := trace s;
                   fetches := fetches s; clock_reads := clock_reads s |}).

(** The body of the [for] loop of [checkAlerts]; [triggered] is the
    accumulator that [push] extends. *)
Definition checkAlert (triggered : list Alert) (alert : Alert) : M (list Alert) :=
  ctx <- gets context ;;
  if evaluateAlert alert ctx then
    success <- triggerAlert alert ctx ;;
    if success then ret (triggered ++ [alert]) else ret triggered
  else ret triggered.

Fixpoint checkLoop (todo : list Alert) (triggered : list Alert) : M (list Alert) :=
  match todo with
  | [] => ret triggered
  | alert :: rest =>
      triggered' <- checkAlert triggered alert ;;
      checkLoop rest triggered'
  end.

Definition checkAlerts : M (list Alert) :=
  todo <- gets alerts ;;
  checkLoop todo [].

Definition stopMonitoring : M unit :=
  fun s => (tt, {| alerts := alerts s; context := context s;
                   checkInterval := None;
                   trace := trace s;
                   fetches := fetches s; clock_reads := clock_reads s |}).

Definition startMonitoring (intervalMs : option Q) : M unit :=
  stopMonitoring ;;;
  fun s => (tt, {| alerts := alerts s; context := context s;
                   checkInterval := Some (JS.default_param intervalMs 30000);
                   trace := trace s;
                   fetches := fetches s; clock_reads := clock_reads s |}).

(** One firing of the interval timer: [() => this.checkAlerts()], whose
    result is dropped.  Nothing fires once the timer is cleared. *)
Definition tick : M unit :=
  t <- gets checkInterval ;;
  match t with
  | Some _ => checkAlerts ;;; ret tt
  | None => ret tt
  end.

(** The caller refreshes the context before each tick. *)
Fixpoint run (refreshes : list PartialContext) : M unit :=
  match refreshes with
  | [] => ret tt
  | c :: rest => updateContext c ;;; tick ;;; run rest
  end.

End WithWorld.

(** [new AlertEngine()] in a world with no events yet. *)
Definition initial : State :=
  {| alerts := [];
     context := {| tweets := []; snapshots := [];
                   currentVelocity := 0; averageVelocity := 0 |};
     checkInterval := None;
     trace := [];
     fetches := 0;
     clock_reads := 0 |}.

End Engine.

(* ================================================================== *)
(** ** lib/api/rss-feeds.ts *)
(* ================================================================== *)

Module Rss.
Import Schema.

Record FeedSource : Type := {
  feed_id : string;
  feed_name : string;
  feed_url : string;
  feed_followerCount : Q
}.

Definition RSS_FEEDS : list FeedSource :=
  [ {| feed_id := "defillama"; feed_name := "DeFiLlama";
       feed_url := "https://defillama.substack.com/feed";
       feed_followerCount := 1000000 |};
    {| feed_id := "coindesk"; feed_name := "CoinDesk";
       feed_url := "https://www.coindesk.com/arc/outboundfeeds/rss/";
       feed_followerCount := 3000000 |};
    {| feed_id := "theblock"; feed_name := "The Block";
       feed_url := "https://www.theblock.co/rss.xml";
       feed_followerCount := 800000 |};
    {| feed_id := "decrypt"; feed_name := "Decrypt";
       feed_url := "https://decrypt.co/feed";
       feed_followerCount := 600000 |} ].

(** How a promise settles; a rejection carries [reason?.message]. *)
Inductive Settled (A : Type) : Type :=
| Fulfilled (value : A)
| Rejected (message : option string).
Arguments Fulfilled {A} value.
Arguments Rejected {A} message.

(** [Promise.allSettled(promises)].  The result array has one slot per
    promise; the promise at index [i] fills slot [i] when it settles, and
    [completion] lists the indices in the order in which the promises
    settle.  The combined promise resolves once every slot is filled. *)
Fixpoint fill {A} (slots : list (option A)) (i : nat) (x : A) : list (option A) :=
  match slots, i with
  | [], _ => []
  | _ :: rest, O => Some x :: rest
  | slot :: rest, S j => slot :: fill rest j x
  end.

Definition settle {A} (outcomes : list A) (slots : list (option A)) (i : nat)
  : list (option A) :=
  match nth_error outcomes i with
  | Some x => fill slots i x
  | None => slots
  end.

Fixpoint all_filled {A} (slots : list (option A)) : option (list A) :=
  match slots with
  | [] => Some []
  | None :: _ => None
  | Some x :: rest => option_map (cons x) (all_filled rest)
  end.

Definition allSettled {A} (outcomes : list A) (completion : list nat)
  : option (list A) :=
  all_filled (fold_left (settle outcomes) completion
                        (repeat None (List.length outcomes))).

(** [tweets.sort((a, b) => b.createdAt.getTime() - a.createdAt.getTime())].
    [Array.prototype.sort] is stable, so the result is determined by the
    comparator: it is the stable arrangement by [createdAt], newest first. *)
Fixpoint insert_newest_first (t : Tweet) (sorted : list Tweet) : list Tweet :=
  match sorted with
  | [] => [t]
  | u :: rest =>
      if (createdAt t <? createdAt u)%Z then u :: insert_newest_first t rest
      else t :: u :: rest
  end.

Definition sort_newest_first (l : list Tweet) : list Tweet :=
  fold_right insert_newest_first [] l.

Section WithFeeds.

(** [parse s]: how [fetchRssFeed] fares on the feed [s], before its
    [slice(0, limit)]: the items of the feed, already in the shape of
    tweets, or the parser's error. *)
Variable parse : FeedSource -> Settled (list Tweet).

Definition fetchRssFeed (source : FeedSource) (limit : JS.JNum)
  : Settled (list Tweet) :=
  match parse source with
  | Fulfilled items => Fulfilled (JS.slice_to items limit)
  | Rejected m => Rejected m
  end.

(** The body of [results.forEach]: the accumulators are [tweets] and
    [errors]. *)
Definition collect (acc : list Tweet * list string)
           (r : FeedSource * Settled (list Tweet)) : list Tweet * list string :=
  match snd r with
  | Fulfilled value => (fst acc ++ value, snd acc)
  | Rejected message =>
      (fst acc,
       snd acc ++ [(feed_name (fst r) ++ ": "
                      ++ match message with
                         | Some m => m
                         | None => "unknown error"
                         end)%string])
  end.

Definition selected (sourceIds : list string) : list FeedSource :=
  filter (fun f => JS.includes_string sourceIds (feed_id f)) RSS_FEEDS.

(** [None] while some feed has not settled. *)
Definition fetchAllRssFeeds (sourceIds : list string) (limit : JS.JNum)
           (completion : list nat) : option (list Tweet * list string) :=
  let sources := selected sourceIds in
  match allSettled (map (fun s => fetchRssFeed s limit) sources) completion with
  | None => None
  | Some results =>
      let merged := fold_left collect (combine sources results) ([], []) in
      Some (sort_newest_first (fst merged), snd merged)
  end.

End WithFeeds.

Definition matches_keyword (lower : list string) (t : Tweet) : bool :=
  JS.some (fun kw => JS.includes (JS.toLowerCase (text t)) kw) lower.

Definition filterByKeywords (tweets : list Tweet) (keywords : list string)
  : list Tweet :=
  match keywords with
  | [] => tweets
  | _ => filter (matches_keyword (map JS.toLowerCase keywords)) tweets
  end.

End Rss.

(* ================================================================== *)
(** ** lib/mock/tweet-generator.ts *)
(* ================================================================== *)

Module Mock.
Import Schema.

Record MockUser : Type := {
  m_username : string;
  m_displayName : string;
  m_verified : bool;
  followers : Q
}.

Definition MOCK_USERNAMES : list MockUser :=
  [ {| m_username := "elonmusk"; m_displayName := "Elon Musk"; m_verified := true; followers := 180000000 |};
    {| m_username := "BBCBreaking"; m_displayName := "BBC Breaking News"; m_verified := true; followers := 58000000 |};
    {| m_username := "Reuters"; m_displayName := "Reuters"; m_verified := true; followers := 25000000 |};
    {| m_username := "WSJ"; m_displayName := "The Wall Street Journal"; m_verified := true; followers := 22000000 |};
    {| m_username := "CNNBreaking"; m_displayName := "CNN Breaking News"; m_verified := true; followers := 64000000 |};
    {| m_username := "AP"; m_displayName := "The Associated Press"; m_verified := true; followers := 18000000 |};
    {| m_username := "nytimes"; m_displayName := "The New York Times"; m_verified := true; followers := 55000000 |};
    {| m_username := "cryptowhale"; m_displayName := "Crypto Whale 🐋"; m_verified := false; followers := 450000 |};
    {| m_username := "newsbreaker"; m_displayName := "News Breaker"; m_verified := false; followers := 120000 |};
    {| m_username := "tech_insider"; m_displayName := "Tech Insider"; m_verified := false; followers := 890000 |};
    {| m_username := "markets_daily"; m_displayName := "Markets Daily"; m_verified := false; followers := 230000 |};
    {| m_username := "ai_updates"; m_displayName := "AI Updates"; m_verified := true; followers := 1200000 |};
    {| m_username := "random_user_123"; m_displayName := "John Doe"; m_verified := false; followers := 342 |};
    {| m_username := "bot_account_456"; m_displayName := "News Bot"; m_verified := false; followers := 5 |} ].

Definition BREAKING_NEWS_TEMPLATES : list string :=
  [ "BREAKING: {topic} - More details to follow";
    "🚨 JUST IN: {topic}";
    "DEVELOPING: {topic} according to sources";
    "ALERT: {topic} - officials confirm";
    "BREAKING NEWS: {topic} | Updates coming" ]%string.

Inductive TopicKey : Type := tech | crypto | politics | markets.

Definition TOPIC_KEYS : list TopicKey := [tech; crypto; politics; markets].

Definition TOPICS (k : TopicKey) : list string :=
  match k with
  | tech =>
      [ "Apple announces new AI-powered features for iPhone";
        "Google unveils breakthrough in quantum computing";
        "Tesla reports record quarterly deliveries";
        "Microsoft to acquire major AI startup for $10B";
        "OpenAI releases GPT-5 with unprecedented capabilities";
        "Amazon AWS experiences major outage affecting services";
        "Meta launches new VR headset, stock surges 5%";
        "NVIDIA hits new all-time high on AI chip demand" ]
  | crypto =>
      [ "Bitcoin breaks $100,000 for the first time";
        "Ethereum upgrade completed successfully";
        "Major exchange reports security breach";
        "SEC approves new crypto ETF applications";
        "Crypto whale moves $500M in Bitcoin";
        "DeFi protocol loses $50M in exploit" ]
  | politics =>
      [ "Congress passes major infrastructure bill";
        "President announces new trade policy";
        "Supreme Court ruling impacts tech companies";
        "International summit reaches historic agreement";
        "Election results trigger market volatility" ]
  | markets =>
      [ "S&P 500 reaches new record high";
        "Federal Reserve hints at rate changes";
        "Oil prices surge amid supply concerns";
        "Tech stocks lead market rally";
        "Bond yields rise to multi-year highs";
        "Dollar strengthens against major currencies" ]
  end%string.

Definition OPINION_TEMPLATES : list string :=
  [ "Hot take: {topic}. What do you think?";
    "Unpopular opinion but {topic}";
    "Everyone is sleeping on {topic}";
    "My prediction: {topic} within 6 months";
    "Thread: Why {topic} matters more than you think 🧵" ]%string.

Definition RUMOR_TEMPLATES : list string :=
  [ "Hearing rumors that {topic}. Unconfirmed.";
    "Sources say {topic} but not verified yet";
    "Whispers of {topic} in the industry";
    "👀 Word on the street: {topic}" ]%string.

(** [s.replace(pat, rep)]: the first occurrence only. *)
Fixpoint replace (s pat rep : string) : string :=
  if String.prefix pat s
  then rep ++ substring (String.length pat) (String.length s - String.length pat) s
  else match s with
       | EmptyString => EmptyString
       | String c s' => String c (replace s' pat rep)
       end.

(** The generator draws from [Math.random] and reads the clock; both are
    streams of the world, and the state counts the draws and the reads.
    A computation fails ([None]) where the code would throw a
    [TypeError] on [undefined]. *)
Record GenState : Type := {
  draws : nat;
  reads : nat
}.

Definition Gen (A : Type) : Type := GenState -> option (A * GenState).

Definition gret {A} (a : A) : Gen A := fun s => Some (a, s).

Definition gbind {A B} (m : Gen A) (k : A -> Gen B) : Gen B :=
  fun s => match m s with
           | Some (a, s') => k a s'
           | None => None
           end.

(** Reading a property of a value that may be [undefined]. *)
Definition defined {A} (x : option A) : Gen A :=
  fun s => match x with
           | Some a => Some (a, s)
           | None => None
           end.

(** [Array.from({ length: n }, () => g())]. *)
Fixpoint replicateG {A} (n : nat) (g : Gen A) : Gen (list A) :=
  match n with
  | O => gret []
  | S n' => gbind g (fun x => gbind (replicateG n' g) (fun xs => gret (x :: xs)))
  end.

End Mock.

Declare Scope gen_scope.
Delimit Scope gen_scope with gen.
Notation "x <- m ;; k" := (Mock.gbind m (fun x => k))
  (at level 61, m at next level, right associativity) : gen_scope.

Module Generator.
Import Schema Mock.

Section WithRandomness.

(** [random n] is the [n]-th value of [Math.random()], [now n] the time
    at the [n]-th reading of the clock; [log10] is [Math.log10] and
    [toString36] is [Number.prototype.toString(36)]. *)
Variable random : nat -> Q.
Variable now : nat -> Z.
Variable log10 : Q -> Q.
Variable toString36 : Q -> string.

Local Open Scope gen_scope.

Definition Math_random : Gen Q :=
  fun s => Some (random (draws s), {| draws := S (draws s); reads := reads s |}).

Definition Date_now : Gen Z :=
  fun s => Some (now (reads s), {| draws := draws s; reads := S (reads s) |}).

(** [Math.floor]. *)
Definition floor (x : Q) : Z := Qfloor x.

(** [arr[i]] for a number [i] that is an integer. *)
Definition index {A} (arr : list A) (i : Z) : option A :=
  if (i <? 0)%Z then None else nth_error arr (Z.to_nat i).

Definition generateId : Gen string :=
  t <- Date_now ;;
  r <- Math_random ;;
  gret ("mock_" ++ NilZero.string_of_int (Z.to_int t) ++ "_"
          ++ substring 2 9 (toString36 r))%string.

Definition pickRandom {A} (arr : list A) : Gen (option A) :=
  r <- Math_random ;;
  gret (index arr (floor (r * JS.len arr))).

Definition generateMetrics (author : MockUser) : Gen Metrics :=
  let baseMultiplier := log10 (followers author + 1) / 2 in
  r1 <- Math_random ;;
  r2 <- Math_random ;;
  r3 <- Math_random ;;
  r4 <- Math_random ;;
  gret {| likes := inject_Z (floor (r1 * 1000 * baseMultiplier));
          retweets := inject_Z (floor (r2 * 200 * baseMultiplier));
          replies := inject_Z (floor (r3 * 100 * baseMultiplier));
          views := inject_Z (floor (r4 * 50000 * baseMultiplier)) |}.

Definition generateSentiment : Gen SentimentAnalysis :=
  r <- Math_random ;;
  let score := r * 2 - 1 in
  let label := if JS.gtb score (3 # 10) then positive
               else if JS.gtb (- (3 # 10)) score then negative
               else neutral in
  r1 <- Math_random ;;
  r2 <- Math_random ;;
  t <- Date_now ;;
  gret {| score := score;
          label := label;
          confidence := (7 # 10) + r1 * (3 # 10);
          keywords := JS.slice_to ["market"; "tech"; "breaking"; "update"]%string
                                  (Some (floor (r2 * 4) + 1)%Z);
          analyzedAt := t |}.

(** The loop of [generateCategory]: [cumulative] is the running sum of
    the weights, which the code takes in double arithmetic. *)
Fixpoint pick_weighted (random : Double.number) (cumulative : Double.number)
         (weighted : list (TweetCategory * Double.number)) : TweetCategory :=
  match weighted with
  | [] => unknown
  | (c, w) :: rest =>
      let cumulative := Double.add cumulative w in
      if Double.ltb random cumulative then c
      else pick_weighted random cumulative rest
  end.

Definition generateCategory : Gen TweetCategory :=
  r <- Math_random ;;
  gret (pick_weighted (Double.num r) Double.zero
          [ (breaking_news, Double.num (3 # 10)); (rumor, Double.num (15 # 100));
            (opinion, Double.num (25 # 100)); (analysis, Double.num (2 # 10));
            (official, Double.num (1 # 10)) ]).

(** [String(x)] for a string that may be [undefined]. *)
Definition to_string (x : option string) : string :=
  match x with
  | Some s => s
  | None => "undefined"
  end.

(** In the [default] case the text is the topic itself; a tweet without
    a text is not a [Tweet], and the model fails there. *)
Definition generateTweetText (category : TweetCategory) : Gen string :=
  topicKey <- pickRandom TOPIC_KEYS ;;
  topics <- defined (option_map TOPICS topicKey) ;;
  topic <- pickRandom topics ;;
  match category with
  | breaking_news | official =>
      template <- pickRandom BREAKING_NEWS_TEMPLATES ;;
      template <- defined template ;;
      gret (replace template "{topic}" (to_string topic))
  | rumor =>
      template <- pickRandom RUMOR_TEMPLATES ;;
      template <- defined template ;;
      gret (replace template "{topic}" (to_string topic))
  | opinion | analysis =>
      template <- pickRandom OPINION_TEMPLATES ;;
      template <- defined template ;;
      gret (replace template "{topic}" (to_string topic))
  | _ => defined topic
  end.

(** The time value of [new Date(x)] is [x] truncated to an integer. *)
Definition time_value (x : Q) : Z :=
  if Qle_bool 0 x then Qfloor x else Qceiling x.

Definition generateMockTweet : Gen Tweet :=
  author <- pickRandom MOCK_USERNAMES ;;
  category <- generateCategory ;;
  author <- defined author ;;
  r <- Math_random ;;
  let spamScore := if JS.gtb 10 (followers author) then (8 # 10) + r * (2 # 10)
                   else r * (3 # 10) in
  id <- generateId ;;
  text <- generateTweetText category ;;
  metrics <- generateMetrics author ;;
  t <- Date_now ;;
  r <- Math_random ;;
  sentiment <- generateSentiment ;;
  gret {| id := id;
          text := text;
          author := {| author_id := "user_" ++ m_username author;
                       username := m_username author;
                       displayName := m_displayName author;
                       avatarUrl := "https://unavatar.io/twitter/" ++ m_username author;
                       verified := m_verified author;
                       followerCount := followers author |};
          metrics := metrics;
          createdAt := time_value (inject_Z t - r * 60000);
          source := src_mock;
          sentiment := Some sentiment;
          category := Some category;
          spamScore := Some spamScore;
          isFiltered := Some false |}.

Definition generateMockTweets (count : JS.JNum) : Gen (list Tweet) :=
  replicateG (JS.toLength count) generateMockTweet.

End WithRandomness.

End Generator.

(* ================================================================== *)
(** ** app/api/tweets/route.ts *)
(* ================================================================== *)

Module Route.
Import Schema Rss Mock.

(** The four values that the handler reads with [searchParams.get]. *)
Record Request : Type := {
  q_query : option string;
  q_max : option string;
  q_sources : option string;
  q_keywords : option string
}.

Inductive ResponseSource : Type := rss | newsapi | x_api | mock.

(** The JSON body: [tweets], [source] and, of [meta], the errors. *)
Record Response : Type := {
  r_tweets : list Tweet;
  r_source : ResponseSource;
  r_errors : list string
}.

(** The answer of NewsAPI, its articles already in the shape that
    [transformArticleToTweet] gives them. *)
Record NewsApiResponse : Type := {
  status : string;
  articles : list Tweet
}.

(** What the handler cannot decide by itself: the feeds and the order in
    which they settle, the two optional providers (whether their key is
    set, and how the call fares: a rejection stands for any exception
    inside the [try] block), and what the mock generator draws. *)
Record World : Type := {
  parse : FeedSource -> Settled (list Tweet);
  completion : list nat;
  isNewsApiConfigured : bool;
  fetchNewsArticles : string -> JS.JNum -> Settled NewsApiResponse;
  isXApiConfigured : bool;
  searchRecentTweets : string -> JS.JNum -> Settled (list Tweet);
  random : nat -> Q;
  now : nat -> Z;
  log10 : Q -> Q;
  toString36 : Q -> string
}.

(** A tier returns a response or falls through to the next one. *)
Inductive Tier : Type :=
| Returned (r : Response)
| FallThrough.

Definition query_of (request : Request) : string :=
  JS.or_string (q_query request) "breaking OR market OR technology OR politics".

Definition max_of (request : Request) : JS.JNum :=
  JS.min_with (JS.parseInt (JS.or_string (q_max request) "20")) 50.

Definition sources_of (request : Request) : list string :=
  JS.split_comma (JS.or_string (q_sources request) "defillama,coindesk,theblock,decrypt").

Definition keywords_of (request : Request) : list string :=
  let kwParam := JS.nullish_string (q_keywords request) "" in
  if JS.truthy_string kwParam
  then filter JS.truthy_string (JS.split_comma kwParam)
  else [].

(** 1. RSS feeds; [None] while the feeds have not all settled. *)
Definition rssTier (w : World) (request : Request) : option Tier :=
  let max := max_of request in
  let sources := sources_of request in
  let keywords := keywords_of request in
  match fetchAllRssFeeds (parse w) sources
          (JS.ceil_div_plus max (List.length sources) 5) (completion w) with
  | None => None
  | Some (tweets, errors) =>
      let filtered := match keywords with
                      | [] => tweets
                      | _ => filterByKeywords tweets keywords
                      end in
      let sliced := JS.slice_to filtered max in
      if (0 <? List.length sliced)%nat
      then Some (Returned {| r_tweets := sliced; r_source := rss; r_errors := errors |})
      else Some FallThrough
  end.

(** 2. NewsAPI. *)
Definition newsApiTier (w : World) (request : Request) : Tier :=
  if isNewsApiConfigured w then
    match fetchNewsArticles w (query_of request) (max_of request) with
    | Fulfilled response =>
        if String.eqb (status response) "ok"
        then Returned {| r_tweets := articles response; r_source := newsapi;
                         r_errors := [] |}
        else FallThrough
    | Rejected _ => FallThrough
    end
  else FallThrough.

(** 3. X API. *)
Definition xApiTier (w : World) (request : Request) : Tier :=
  if isXApiConfigured w then
    match searchRecentTweets w (query_of request) (max_of request) with
    | Fulfilled tweets =>
        Returned {| r_tweets := tweets; r_source := x_api; r_errors := [] |}
    | Rejected _ => FallThrough
    end
  else FallThrough.

(** 4. Mock fallback; [None] if the generator throws. *)
Definition mockTier (w : World) (request : Request) : option Response :=
  match Generator.generateMockTweets (random w) (now w) (log10 w) (toString36 w)
          (max_of request) {| draws := 0; reads := 0 |} with
  | Some (tweets, _) =>
      Some {| r_tweets := tweets; r_source := mock; r_errors := [] |}
  | None => None
  end.

Definition GET (w : World) (request : Request) : option Response :=
  match rssTier w request with
  | None => None
  | Some (Returned r) => Some r
  | Some FallThrough =>
      match newsApiTier w request with
      | Returned r => Some r
      | FallThrough =>
          match xApiTier w request with
          | Returned r => Some r
          | FallThrough => mockTier w request
          end
      end
  end.

End Route.

(* ================================================================== *)
(** ** Sample data *)
(* ================================================================== *)

Module Samples.
Import Schema Conditions Effects.

(** A snapshot with a given count. *)
Definition snapshot (c : Q) : VelocitySnapshot :=
  {| snap_id := "s"; timestamp := 0; count := c; sentimentAvg := 0;
     topCategories := []; topKeywords := [] |}.

Definition history (counts : list Q) : list VelocitySnapshot :=
  map snapshot counts.

Definition nobody : Author :=
  {| author_id := "u"; username := "u"; displayName := "U"; avatarUrl := "";
     verified := false; followerCount := 0 |}.

(** A tweet created at [t], with a sentiment score and a category, if
    any. *)
Definition tweet (t : Z) (s : option Q) (c : option TweetCategory) : Tweet :=
  {| id := "t"; text := "quiet day"; author := nobody;
     metrics := {| likes := 0; retweets := 0; replies := 0; views := 0 |};
     createdAt := t; source := src_api;
     sentiment := option_map (fun q => {| score := q; label := neutral;
                                          confidence := 1; keywords := [];
                                          analyzedAt := 0 |}) s;
     category := c; spamScore := None; isFiltered := None |}.

(** An article of the feed [who], published at [t]. *)
Definition article (who : string) (t : Z) : Tweet :=
  {| id := who; text := "headline"; author := nobody;
     metrics := {| likes := 0; retweets := 0; replies := 0; views := 0 |};
     createdAt := t; source := src_api;
     sentiment := None; category := None; spamScore := None;
     isFiltered := None |}.

(** Feeds that each carry one article, all published at the time 5. *)
Definition same_time (f : Rss.FeedSource) : Rss.Settled (list Tweet) :=
  Rss.Fulfilled [article (Rss.feed_id f) 5].

(** A world in which every feed fails, no provider is configured and
    the generator always draws 0. *)
Definition nothing_works : Route.World :=
  {| Route.parse := fun _ => Rss.Rejected None;
     Route.completion := [0; 1; 2; 3]%nat;
     Route.isNewsApiConfigured := false;
     Route.fetchNewsArticles := fun _ _ => Rss.Rejected None;
     Route.isXApiConfigured := false;
     Route.searchRecentTweets := fun _ _ => Rss.Rejected None;
     Route.random := fun _ => 0;
     Route.now := fun _ => 0%Z;
     Route.log10 := fun _ => 0;
     Route.toString36 := fun _ => "0"%string |}.

(** The same world, except that NewsAPI is configured and answers the
    query with no article. *)
Definition no_news : Route.World :=
  {| Route.parse := fun _ => Rss.Rejected None;
     Route.completion := [0; 1; 2; 3]%nat;
     Route.isNewsApiConfigured := true;
     Route.fetchNewsArticles :=
       fun _ _ => Rss.Fulfilled {| Route.status := "ok"; Route.articles := [] |};
     Route.isXApiConfigured := false;
     Route.searchRecentTweets := fun _ _ => Rss.Rejected None;
     Route.random := fun _ => 0;
     Route.now := fun _ => 0%Z;
     Route.log10 := fun _ => 0;
     Route.toString36 := fun _ => "0"%string |}.

(** A request with the [max] parameter [m] and no other parameter. *)
Definition request (m : option string) : Route.Request :=
  {| Route.q_query := None; Route.q_max := m; Route.q_sources := None;
     Route.q_keywords := None |}.

Definition tweets_only (l : list Tweet) : AlertContext :=
  {| tweets := l; snapshots := []; currentVelocity := 0; averageVelocity := 0 |}.

Definition snapshots_only (l : list VelocitySnapshot) : AlertContext :=
  {| tweets := []; snapshots := l; currentVelocity := 0; averageVelocity := 0 |}.

Definition condition (k : ConditionType) (th : option Q)
           (cats : option (list TweetCategory)) : AlertCondition :=
  {| ctype := k; threshold := th; ckeywords := None; categories := cats;
     windowMinutes := None |}.

Definition webhook (url : string) : AlertAction :=
  {| atype := discord_webhook; webhookUrl := Some url; aemail := None |}.

Definition in_app : AlertAction :=
  {| atype := in_app_notification; webhookUrl := None; aemail := None |}.

(** An alert created now, never triggered so far. *)
Definition alert (on : bool) (cs : list AlertCondition) (acts : list AlertAction)
  : Alert :=
  {| alert_id := "alert_1"; name := "Spike watch"; enabled := on;
     conditions := cs; actions := acts; alert_createdAt := 0;
     lastTriggeredAt := None; triggerCount := 0 |}.

(** An engine that monitors the alerts [l] in the context [ctx]. *)
Definition engine (l : list Alert) (ctx : AlertContext) : State :=
  {| alerts := l; context := ctx; checkInterval := Some 30000;
     trace := []; fetches := 0; clock_reads := 0 |}.

(** A network on which every post fails, and a clock that stands still. *)
Definition offline : nat -> string -> FetchResult := fun _ _ => NetworkError.
Definition noon : nat -> Z := fun _ => 0%Z.


End Samples.

(* ================================================================== *)
(** ** Reference definitions: the words of the specification, and the
       predicates in which the statements are written *)
(* ================================================================== *)

Module Reference.
Import Schema Conditions Effects.

(** The number of items of a window whose category is in a set. *)
Definition matching (cats : list TweetCategory) (window : list Tweet) : nat :=
  List.length (filter (category_in cats) window).

(** What an action does when it is executed, whatever it then reports:
    a webhook with a URL posts to it, the two other kinds notify. *)
Definition dispatch_events (data : AlertTriggerData) (action : AlertAction)
  : list Event :=
  match atype action with
  | discord_webhook =>
      match webhookUrl action with
      | Some url => if JS.truthy_string url then [WebhookPost url data] else []
      | None => []
      end
  | in_app_notification => [InAppNotification data]
  | email => [EmailNotification data]
  end.

(** The alert on whose behalf an event happens. *)
Definition event_alert (e : Event) : Alert :=
  match e with
  | WebhookPost _ data | InAppNotification data | EmailNotification data =>
      data_alert data
  end.

(** The fields of the engine instance. *)
Definition same_engine (s s' : State) : Prop :=
  alerts s' = alerts s /\ context s' = context s
  /\ checkInterval s' = checkInterval s.

(** The trace of [s'] is the trace of [s] followed by events that all
    satisfy [P]. *)
Definition extends_with (P : Event -> Prop) (s s' : State) : Prop :=
  exists new, trace s' = trace s ++ new /\ Forall P new.

(** What the [i]-th alert of the list contributes to the list that
    [checkAlerts] returns: itself, if its conditions hold in the context
    and its dispatch, in the world as the alerts before it have left
    it, reports a success; nothing otherwise. *)
Definition reported (net : nat -> string -> FetchResult) (clock : nat -> Z)
           (l : list Alert) (s : State) (i : nat) : list Alert :=
  match nth_error l i with
  | Some a =>
      if evaluateAlert a (context s)
         && fst (Engine.triggerAlert net clock a (context s)
                   (snd (Engine.checkLoop net clock (firstn i l) [] s)))
      then [a]
      else []
  | None => []
  end.

(** The items of the selected feeds, feed after feed in the order of
    [RSS_FEEDS], before they are sorted; a feed that fails has none. *)
Definition merged (parse : Rss.FeedSource -> Rss.Settled (list Tweet))
           (sourceIds : list string) (limit : JS.JNum) : list Tweet :=
  flat_map (fun src => match Rss.fetchRssFeed parse src limit with
                       | Rss.Fulfilled value => value
                       | Rss.Rejected _ => []
                       end)
           (Rss.selected sourceIds).

(** Newest first: no tweet is followed by a newer one. *)
Definition newest_first (l : list Tweet) : Prop :=
  StronglySorted (fun x y => (createdAt y <= createdAt x)%Z) l.

(** Strictly newest first: every tweet is older than all before it. *)
Definition strictly_newest_first (l : list Tweet) : Prop :=
  StronglySorted (fun x y => (createdAt y < createdAt x)%Z) l.

(** The tweets of a list that were created at [t], in their order. *)
Definition created_at (t : Z) (l : list Tweet) : list Tweet :=
  filter (fun x => (createdAt x =? t)%Z) l.

(** A generator that returns, from every state, a value that
    satisfies [Q]. *)
Definition ensures {A} (g : Mock.Gen A) (Q : A -> Prop) : Prop :=
  forall s, exists a s', g s = Some (a, s') /\ Q a.

(** [Math.random] stays in the interval from 0, included, to 1,
    excluded. *)
Definition unit_interval (random : nat -> Q) : Prop :=
  forall n, 0 <= random n /\ random n < 1.

(** The NewsAPI tier is unconfigured or fails: the call throws, or the
    answer does not have the status [ok]. *)
Definition news_fails (w : Route.World) (request : Route.Request) : Prop :=
  Route.isNewsApiConfigured w = false
  \/ match Route.fetchNewsArticles w (Route.query_of request) (Route.max_of request) with
     | Rss.Fulfilled response => Route.status response <> "ok"%string
     | Rss.Rejected _ => True
     end.

(** The X API tier is unconfigured or fails. *)
Definition x_fails (w : Route.World) (request : Route.Request) : Prop :=
  Route.isXApiConfigured w = false
  \/ exists m, Route.searchRecentTweets w (Route.query_of request)
                 (Route.max_of request) = Rss.Rejected m.

(** Every selected feed settles, in some order. *)
Definition feeds_settle (w : Route.World) (request : Route.Request) : Prop :=
  Permutation (Route.completion w)
              (seq 0 (List.length (Rss.selected (Route.sources_of request)))).

(** A threshold that is absent or 0. *)
Definition unset (th : option Q) : Prop :=
  match th with
  | Some q => q == 0
  | None => True
  end.

End Reference.

(* ================================================================== *)
(** ** lib/store: the tweet, velocity and alert stores *)
(* ================================================================== *)

Module Store.
Import Schema.

(** *** Tweet store *)

Record Filters : Type := {
  showSpam : bool;
  showBots : bool;
  minInfluence : Q;
  filter_categories : list TweetCategory;
  sentimentRange : Q * Q
}.

Record TweetState : Type := {
  tweets : list Tweet;
  isLoading : bool;
  error : option string;
  filters : Filters
}.

Definition initialTweets : TweetState :=
  {| tweets := [];
     isLoading := false;
     error := None;
     filters := {| showSpam := false; showBots := false; minInfluence := 0;
                   filter_categories := []; sentimentRange := (-1, 1) |} |}.

(** [set((state) => ({ tweets: ... }))]: the other fields stay. *)
Definition set_tweets (l : list Tweet) (state : TweetState) : TweetState :=
  {| tweets := l; isLoading := isLoading state; error := error state;
     filters := filters state |}.

Definition addTweet (tweet : Tweet) (state : TweetState) : TweetState :=
  set_tweets (JS.slice0 500 (tweet :: tweets state)) state.

Definition addTweets (new : list Tweet) (state : TweetState) : TweetState :=
  set_tweets (JS.slice0 500 (new ++ tweets state)) state.

Definition removeTweet (tweet_id : string) (state : TweetState) : TweetState :=
  set_tweets (filter (fun t => negb (String.eqb (id t) tweet_id)) (tweets state)) state.

Definition clearTweets (state : TweetState) : TweetState := set_tweets [] state.

(** The predicate of [useFilteredTweets]. *)
Definition visible (f : Filters) (tweet : Tweet) : bool :=
  if negb (showSpam f)
     && match spamScore tweet with
        | Some sc => negb (JS.is_zero sc) && JS.gtb sc (7 # 10)
        | None => false
        end
  then false
  else if negb (showBots f) && JS.gtb 10 (followerCount (author tweet))
  then false
  else if JS.gtb (minInfluence f) (followerCount (author tweet))
  then false
  else if (0 <? List.length (filter_categories f))%nat
          && match category tweet with
             | Some c => negb (existsb (TweetCategory_eqb c) (filter_categories f))
             | None => false
             end
  then false
  else match sentiment tweet with
       | Some s =>
           if JS.gtb (fst (sentimentRange f)) (score s)
              || JS.gtb (score s) (snd (sentimentRange f))
           then false
           else true
       | None => true
       end.

Definition useFilteredTweets (state : TweetState) : list Tweet :=
  filter (visible (filters state)) (tweets state).

(** *** Velocity store *)

(** [Math.max(...xs)]; [None] is [-Infinity], its value on no
    argument. *)
Definition Math_max (xs : list Q) : option Q :=
  fold_left (fun m x => match m with
                        | Some y => Some (if Qle_bool y x then x else y)
                        | None => Some x
                        end) xs None.

(** [peakVelocity] is a number or [-Infinity] ([None]). *)
Record VelocityState : Type := {
  snapshots : list VelocitySnapshot;
  currentVelocity : Q;
  averageVelocity : Q;
  peakVelocity : option Q
}.

Definition initialVelocity : VelocityState :=
  {| snapshots := []; currentVelocity := 0; averageVelocity := 0;
     peakVelocity := Some 0 |}.

(** [arr.slice(-n)]: the last [n] elements. *)
Definition slice_last {A} (n : nat) (l : list A) : list A :=
  skipn (List.length l - n) l.

Definition addSnapshot (snapshot : VelocitySnapshot) (state : VelocityState)
  : VelocityState :=
  let newSnapshots := slice_last 60 (snapshots state ++ [snapshot]) in
  let counts := map count newSnapshots in
  let avg := JS.sum counts / JS.len counts in
  let peak := Math_max counts in
  {| snapshots := newSnapshots;
     currentVelocity := count snapshot;
     averageVelocity := avg;
     peakVelocity := peak |}.

Definition setSnapshots (l : list VelocitySnapshot) : VelocityState :=
  let counts := map count l in
  let avg := if (0 <? List.length counts)%nat
             then JS.sum counts / JS.len counts else 0 in
  let peak := if (0 <? List.length counts)%nat then Math_max counts else Some 0 in
  let current := if (0 <? List.length l)%nat
                 then last (map count l) 0 else 0 in
  {| snapshots := l;
     currentVelocity := current;
     averageVelocity := avg;
     peakVelocity := peak |}.

Definition clearSnapshots : VelocityState := initialVelocity.

(** *** Alert store *)

Inductive NotificationType : Type := info | warning | error_type.

Record Notification : Type := {
  n_id : string;
  message : string;
  n_type : NotificationType
}.

Record AlertState : Type := {
  alerts : list Alert;
  activeNotifications : list Notification
}.

Definition initialAlerts : AlertState :=
  {| alerts := []; activeNotifications := [] |}.

Definition addAlert (alert : Alert) (state : AlertState) : AlertState :=
  {| alerts := alerts state ++ [alert];
     activeNotifications := activeNotifications state |}.

Definition removeAlert (a_id : string) (state : AlertState) : AlertState :=
  {| alerts := filter (fun a => negb (String.eqb (alert_id a) a_id)) (alerts state);
     activeNotifications := activeNotifications state |}.

(** [{ ...a, enabled: !a.enabled }]. *)
Definition toggled (a : Alert) : Alert :=
  {| alert_id := alert_id a; name := name a; enabled := negb (enabled a);
     conditions := conditions a; actions := actions a;
     alert_createdAt := alert_createdAt a;
     lastTriggeredAt := lastTriggeredAt a; triggerCount := triggerCount a |}.

Definition toggleAlert (a_id : string) (state : AlertState) : AlertState :=
  {| alerts := map (fun a => if String.eqb (alert_id a) a_id then toggled a else a)
                   (alerts state);
     activeNotifications := activeNotifications state |}.

Definition addNotification (n : Notification) (state : AlertState) : AlertState :=
  {| alerts := alerts state;
     activeNotifications := slice_last 10 (activeNotifications state ++ [n]) |}.

Definition removeNotification (nid : string) (state : AlertState) : AlertState :=
  {| alerts := alerts state;
     activeNotifications :=
       filter (fun n => negb (String.eqb (n_id n) nid)) (activeNotifications state) |}.

Definition clearNotifications (state : AlertState) : AlertState :=
  {| alerts := alerts state; activeNotifications := [] |}.

End Store.

(* ================================================================== *)
(** ** lib/api/x-api.ts: the shape of the X API answers *)
(* ================================================================== *)

Module XApi.
Import Schema.

Record PublicMetrics : Type := {
  retweet_count : Q;
  reply_count : Q;
  like_count : Q;
  quote_count : Q;
  impression_count : Q
}.

Record XApiTweet : Type := {
  x_id : string;
  x_text : string;
  created_at : string;
  x_author_id : string;
  public_metrics : PublicMetrics
}.

Record XApiUser : Type := {
  u_id : string;
  u_name : string;
  u_username : string;
  profile_image_url : string;
  u_verified : bool;
  followers_count : Q
}.

Section WithDates.

(** [new Date(s).getTime()] for a date string. *)
Variable parseDate : string -> Z.

Definition transformXApiTweet (tweet : XApiTweet) (users : list XApiUser) : Tweet :=
  let author := find (fun u => String.eqb (u_id u) (x_author_id tweet)) users in
  {| id := x_id tweet;
     text := x_text tweet;
     author :=
       {| author_id := JS.or_string (option_map u_id author) (x_author_id tweet);
          username := JS.or_string (option_map u_username author) "unknown";
          displayName := JS.or_string (option_map u_name author) "Unknown";
          avatarUrl := JS.or_string (option_map profile_image_url author) "";
          verified := match author with
                      | Some u => u_verified u || false
                      | None => false
                      end;
          followerCount := JS.or_default (option_map followers_count author) 0 |};
     metrics := {| likes := like_count (public_metrics tweet);
                   retweets := retweet_count (public_metrics tweet);
                   replies := reply_count (public_metrics tweet);
                   views := impression_count (public_metrics tweet) |};
     createdAt := parseDate (created_at tweet);
     source := src_api;
     sentiment := None;
     category := None;
     spamScore := None;
     isFiltered := None |}.

(** [(response.data ?? []).map((t) => transformXApiTweet(t, users))],
    as the route does it. *)
Definition transformAll (data : option (list XApiTweet)) (users : list XApiUser)
  : list Tweet :=
  map (fun t => transformXApiTweet t users)
      (match data with Some d => d | None => [] end).

End WithDates.

End XApi.

(* ================================================================== *)
(** ** lib/ai/analyzer.ts: enrichment *)
(* ================================================================== *)

Module Analyzer.
Import Schema.

Record SentimentResult : Type := {
  s_score : Q;
  s_label : SentimentLabel;
  s_confidence : Q;
  s_keywords : list string
}.

Record CategoryResult : Type := {
  c_category : TweetCategory;
  c_confidence : Q;
  reasoning : string
}.

Record SpamResult : Type := {
  isSpam : bool;
  sp_spamScore : Q;
  indicators : list string
}.

Record FullAnalysisResult : Type := {
  a_sentiment : option SentimentResult;
  a_category : option CategoryResult;
  a_spam : option SpamResult
}.

(** The generative model: whether a key is configured, and what each of
    the three prompts yields for a tweet, [None] when the call throws or
    the answer holds no JSON object.  The index is the position of the
    call in a batch. *)
Record Model : Type := {
  isAIConfigured : bool;
  sentimentOf : nat -> string -> option SentimentResult;
  categoryOf : nat -> Tweet -> option CategoryResult;
  spamOf : nat -> Tweet -> option SpamResult
}.

Section WithModel.

Variable m : Model.

(** [clock i]: the time at which the analysis of the [i]-th tweet is
    merged. *)
Variable clock : nat -> Z.

(** [if (!model) return null; try { ... } catch { return null }]. *)
Definition analyzeSentiment (i : nat) (text : string) : option SentimentResult :=
  if isAIConfigured m then sentimentOf m i text else None.

Definition categorizeTweet (i : nat) (tweet : Tweet) : option CategoryResult :=
  if isAIConfigured m then categoryOf m i tweet else None.

Definition detectSpam (i : nat) (tweet : Tweet) : option SpamResult :=
  if isAIConfigured m then spamOf m i tweet else None.

Definition analyzeTweet (i : nat) (tweet : Tweet) : FullAnalysisResult :=
  {| a_sentiment := analyzeSentiment i (text tweet);
     a_category := categorizeTweet i tweet;
     a_spam := detectSpam i tweet |}.

Definition enrichTweet (i : nat) (tweet : Tweet) : Tweet :=
  let analysis := analyzeTweet i tweet in
  {| id := id tweet;
     text := text tweet;
     author := author tweet;
     metrics := metrics tweet;
     createdAt := createdAt tweet;
     source := source tweet;
     sentiment := match a_sentiment analysis with
                  | Some s => Some {| score := s_score s;
                                      label := s_label s;
                                      confidence := s_confidence s;
                                      keywords := s_keywords s;
                                      analyzedAt := clock i |}
                  | None => sentiment tweet
                  end;
     category := match a_category analysis with
                 | Some c => Some (c_category c)
                 | None => category tweet
                 end;
     spamScore := match a_spam analysis with
                  | Some sp => Some (sp_spamScore sp)
                  | None => spamScore tweet
                  end;
     isFiltered := match a_spam analysis with
                   | Some sp => Some (isSpam sp)
                   | None => isFiltered tweet
                   end |}.

(** The loop of [analyzeTweetBatch], from the index [i] on: the enriched
    tweets, and the calls of [onProgress] with [(i + 1, total)]. *)
Fixpoint batchFrom (i total : nat) (tweets : list Tweet)
  : list Tweet * list (nat * nat) :=
  match tweets with
  | [] => ([], [])
  | tweet :: rest =>
      let enriched := enrichTweet i tweet in
      let out := batchFrom (S i) total rest in
      (enriched :: fst out, (S i, total) :: snd out)
  end.

Definition analyzeTweetBatch (tweets : list Tweet) : list Tweet * list (nat * nat) :=
  batchFrom 0 (List.length tweets) tweets.

End WithModel.

End Analyzer.

(* ================================================================== *)
(** ** lib/mock/tweet-generator.ts: spikes *)
(* ================================================================== *)

Module Burst.
Import Schema Mock Generator.

Section WithRandomness.

Variable random : nat -> Q.
Variable now : nat -> Z.
Variable log10 : Q -> Q.
Variable toString36 : Q -> string.

Local Open Scope gen_scope.

Definition variations (topic : string) : list string :=
  [ topic;
    "BREAKING: " ++ topic;
    "Just heard about " ++ topic;
    "Everyone talking about " ++ topic;
    "📰 " ++ topic ]%string.

(** The callback of [Array.from] in [generateSpike].  As in
    [generateTweetText], a tweet whose text is [undefined] is not a
    [Tweet], and the model fails there. *)
Definition spikeTweet (topic : string) : Gen Tweet :=
  author <- pickRandom random MOCK_USERNAMES ;;
  id <- generateId random now toString36 ;;
  text <- pickRandom random (variations topic) ;;
  author <- defined author ;;
  text <- defined text ;;
  metrics <- generateMetrics random log10 author ;;
  t <- Date_now now ;;
  r <- Math_random random ;;
  sentiment <- generateSentiment random now ;;
  gret {| id := id;
          text := text;
          author := {| author_id := "user_" ++ m_username author;
                       username := m_username author;
                       displayName := m_displayName author;
                       avatarUrl := "https://unavatar.io/twitter/" ++ m_username author;
                       verified := m_verified author;
                       followerCount := followers author |};
          metrics := metrics;
          createdAt := time_value (inject_Z t - r * 10000);
          source := src_mock;
          sentiment := Some sentiment;
          category := Some breaking_news;
          spamScore := Some (1 # 10);
          isFiltered := Some false |}.

(** [generateSpike(topic, count = 20)]. *)
Definition generateSpike (topic : string) (count : option Z) : Gen (list Tweet) :=
  let count := match count with Some c => c | None => 20%Z end in
  replicateG (JS.toLength (Some count)) (spikeTweet topic).

End WithRandomness.

End Burst.

(* ================================================================== *)
(** ** Predicates and sample data for the properties of the stores,
       the adapters and the generator *)
(* ================================================================== *)

Module Props.
Import Schema.

(** What a user does to the tweet store. *)
Inductive TweetAction : Type :=
| AddTweet (t : Tweet)
| AddTweets (l : list Tweet)
| RemoveTweet (tweet_id : string)
| ClearTweets.

Definition applyTweetAction (state : Store.TweetState) (a : TweetAction)
  : Store.TweetState :=
  match a with
  | AddTweet t => Store.addTweet t state
  | AddTweets l => Store.addTweets l state
  | RemoveTweet i => Store.removeTweet i state
  | ClearTweets => Store.clearTweets state
  end.

(** Snapshots recorded one after the other. *)
Definition recordAll (l : list VelocitySnapshot) (state : Store.VelocityState)
  : Store.VelocityState :=
  fold_left (fun st s => Store.addSnapshot s st) l state.

(** The ranges that the schema gives for the enrichment of a tweet. *)
Definition in_schema_ranges (t : Tweet) : Prop :=
  match sentiment t with
  | Some s => - (1) <= score s /\ score s <= 1
              /\ 0 <= confidence s /\ confidence s <= 1
  | None => True
  end
  /\ match spamScore t with
     | Some sc => 0 <= sc /\ sc <= 1
     | None => True
     end.

(** The label of a sentiment agrees with its score. *)
Definition label_agrees (s : SentimentAnalysis) : Prop :=
  match label s with
  | positive => (3 # 10) < score s
  | negative => score s < - (3 # 10)
  | neutral => - (3 # 10) <= score s /\ score s <= (3 # 10)
  end.

(** The author of a mock tweet is one of the mock users. *)
Definition mock_author (t : Tweet) : Prop :=
  exists u, In u Mock.MOCK_USERNAMES
            /\ username (author t) = Mock.m_username u
            /\ followerCount (author t) = Mock.followers u.

(** The sum of numbers as double arithmetic takes it from left to
    right: the sum of no number is 0, and the sum of some numbers
    followed by [x] is their sum, plus [x], rounded. *)
Definition sum_in_order (l : list Double.number) : Double.number :=
  fold_right (fun x acc => Double.add acc x) Double.zero (rev l).

(** The mean of numbers: their sum in order, divided by their number. *)
Definition mean_of (l : list Double.number) : Double.number :=
  Double.div (sum_in_order l) (Double.len l).




(** [k] occurs in [s]: some characters, then [k], then the rest. *)
Definition occurs (k s : string) : Prop :=
  exists pre post, s = (pre ++ k ++ post)%string.

(** [k] occurs in [s] when the case of the letters is ignored. *)
Definition occurs_ignoring_case (k s : string) : Prop :=
  occurs (JS.toLowerCase k) (JS.toLowerCase s).

(** A context that differs from [ctx] in its tweets only. *)
Definition with_tweets (ctx : Conditions.AlertContext) (l : list Tweet)
  : Conditions.AlertContext :=
  {| Conditions.tweets := l;
     Conditions.snapshots := Conditions.snapshots ctx;
     Conditions.currentVelocity := Conditions.currentVelocity ctx;
     Conditions.averageVelocity := Conditions.averageVelocity ctx |}.

(** The diagnostic that a rejected feed leaves. *)
Definition diagnostic (parse : Rss.FeedSource -> Rss.Settled (list Tweet))
           (limit : JS.JNum) (src : Rss.FeedSource) : list string :=
  match Rss.fetchRssFeed parse src limit with
  | Rss.Fulfilled _ => []
  | Rss.Rejected message =>
      [(Rss.feed_name src ++ ": "
          ++ match message with
             | Some m => m
             | None => "unknown error"
             end)%string]
  end.


(** An X user and a tweet of theirs, for the examples. *)
Definition user (uid : string) (handle : string) : XApi.XApiUser :=
  {| XApi.u_id := uid; XApi.u_name := "Somebody"; XApi.u_username := handle;
     XApi.profile_image_url := "https://pbs.example/a.png";
     XApi.u_verified := true; XApi.followers_count := 1200 |}.

Definition post (tid : string) (uid : string) : XApi.XApiTweet :=
  {| XApi.x_id := tid; XApi.x_text := "markets open higher";
     XApi.created_at := "2024-05-01T10:00:00.000Z"; XApi.x_author_id := uid;
     XApi.public_metrics :=
       {| XApi.retweet_count := 2; XApi.reply_count := 1; XApi.like_count := 7;
          XApi.quote_count := 0; XApi.impression_count := 340 |} |}.

(** Random draws that are all one half, and a clock that stands at one
    hour. *)
Definition half : nat -> Q := fun _ => 1 # 2.
Definition one_hour : nat -> Z := fun _ => 3600000%Z.

(** A time at most [span] milliseconds before a reading of the clock. *)
Definition within (now : nat -> Z) (span : Z) (t : Z) : Prop :=
  exists n, (now n - span <= t <= now n)%Z.

(** The filters that the tweet store starts with. *)
Definition default_filters : Store.Filters := Store.filters Store.initialTweets.

(** The only mock user with fewer than 10 followers. *)
Definition the_bot : string := "bot_account_456".

(** A tweet as the mock generator writes it: enriched within the ranges
    of the schema, by one of the mock users, and dated within [span]
    milliseconds before a reading of the clock. *)
Definition generated (now : nat -> Z) (span : Z) (t : Tweet) : Prop :=
  source t = src_mock
  /\ in_schema_ranges t
  /\ mock_author t
  /\ within now span (createdAt t)
  /\ isFiltered t = Some false
  /\ exists s, sentiment t = Some s
               /\ label_agrees s
               /\ (7 # 10) <= confidence s
               /\ (1 <= List.length (keywords s) <= 4)%nat.

(** The first state of the generator. *)
Definition fresh : Mock.GenState := {| Mock.draws := 0; Mock.reads := 0 |}.

(** The number of tweets that [generateSpike] is asked for. *)
Definition spike_size (count : option Z) : Z :=
  match count with
  | Some c => c
  | None => 20%Z
  end.

(** A tweet of a spike on [topic]. *)
Definition of_spike (now : nat -> Z) (topic : string) (t : Tweet) : Prop :=
  generated now 10000 t
  /\ category t = Some breaking_news
  /\ spamScore t = Some (1 # 10)
  /\ In (text t) (Burst.variations topic).

(** The tweets that are not by the bot. *)
Definition not_by_bot (t : Tweet) : bool :=
  negb (String.eqb (username (author t)) the_bot).

End Props.

(* ================================================================== *)
(** * Verification *)
(* ================================================================== *)

(** ** Comparisons *)

Lemma gtb_true_iff (a b : Q) : JS.gtb a b = true <-> b < a.
Proof.
  unfold JS.gtb. rewrite negb_true_iff. split.
  - intros H. apply Qnot_le_lt. intros Hle.
    apply Qle_bool_iff in Hle. congruence.
  - intros H. destruct (Qle_bool a b) eqn:E; [|reflexivity].
    apply Qle_bool_iff in E. exfalso. apply (Qlt_not_le _ _ H E).
Qed.

Lemma gtb_false_iff (a b : Q) : JS.gtb a b = false <-> a <= b.
Proof.
  unfold JS.gtb. rewrite negb_false_iff. apply Qle_bool_iff.
Qed.

Lemma geb_true_iff (a b : Q) : JS.geb a b = true <-> b <= a.
Proof. unfold JS.geb. apply Qle_bool_iff. Qed.

Lemma geb_false_iff (a b : Q) : JS.geb a b = false <-> a < b.
Proof.
  unfold JS.geb. split.
  - intros H. apply Qnot_le_lt. intros Hle.
    apply Qle_bool_iff in Hle. congruence.
  - intros H. destruct (Qle_bool b a) eqn:E; [|reflexivity].
    apply Qle_bool_iff in E. exfalso. apply (Qlt_not_le _ _ H E).
Qed.

Lemma is_zero_true_iff (x : Q) : JS.is_zero x = true <-> x == 0.
Proof. unfold JS.is_zero. apply Qeq_bool_iff. Qed.

Lemma is_zero_false_iff (x : Q) : JS.is_zero x = false <-> ~ x == 0.
Proof.
  unfold JS.is_zero. split.
  - intros H E. apply Qeq_bool_iff in E. congruence.
  - intros H. destruct (Qeq_bool x 0) eqn:E; [|reflexivity].
    apply Qeq_bool_iff in E. contradiction.
Qed.

(** ** The model on the scenarios of the specification *)

Example parseInt_samples :
  JS.parseInt "42" = Some 42%Z /\ JS.parseInt "  -7px" = Some (-7)%Z
  /\ JS.parseInt "0x1f" = Some 31%Z /\ JS.parseInt "abc" = None
  /\ JS.parseInt "" = None.
Proof. repeat split. Qed.

Example split_samples :
  JS.split_comma "defillama,coindesk" = ["defillama"; "coindesk"]%string
  /\ JS.split_comma "" = [""]%string.
Proof. split; reflexivity. Qed.

Example max_samples :
  Route.max_of (Samples.request None) = Some 20%Z
  /\ Route.max_of (Samples.request (Some "100"%string)) = Some 50%Z
  /\ Route.max_of (Samples.request (Some "many"%string)) = None.
Proof. repeat split. Qed.

(** Three snapshots [[5; 5; 50]]: average 5, increase 900, critical. *)
Example spike_scenario :
  let r := Spike.detectSpike (Samples.history [5; 5; 50]) None in
  Spike.averageCount r == 5 /\ Spike.percentageIncrease r == 900
  /\ Spike.severity r = Spike.critical /\ Spike.isSpike r = true.
Proof. repeat split. Qed.

(** A history of fewer than two snapshots is never a spike. *)
Example short_history (snapshots : list Schema.VelocitySnapshot) (th : option Q) :
  (List.length snapshots < 2)%nat ->
  Spike.isSpike (Spike.detectSpike snapshots th) = false.
Proof.
  intros H. unfold Spike.detectSpike. apply Nat.ltb_lt in H. now rewrite H.
Qed.

(** A [keyword_match] condition without keywords never holds. *)
Example no_keywords (c : Schema.AlertCondition) (ctx : Conditions.AlertContext) :
  Schema.ctype c = Schema.keyword_match ->
  Schema.ckeywords c = Some [] \/ Schema.ckeywords c = None ->
  Conditions.evaluateCondition c ctx = false.
Proof.
  intros Hty H. unfold Conditions.evaluateCondition. rewrite Hty.
  now destruct H as [-> | ->].
Qed.

(** ** The spike detector on a history [prev ++ [cur]] *)

Section SpikeFacts.
Import Schema Spike.

Lemma previousCounts_snoc (prev : list VelocitySnapshot) (cur : VelocitySnapshot) :
  previousCounts (prev ++ [cur]) = map count prev.
Proof.
  unfold previousCounts, JS.slice0_m1. now rewrite removelast_last.
Qed.

Lemma recentCount_snoc (prev : list VelocitySnapshot) (cur : VelocitySnapshot) :
  recentCount (prev ++ [cur]) = count cur.
Proof.
  unfold recentCount. rewrite map_app. simpl. apply last_last.
Qed.

Lemma two_snapshots (prev : list VelocitySnapshot) (cur : VelocitySnapshot) :
  prev <> [] -> (List.length (prev ++ [cur]) <? 2)%nat = false.
Proof.
  intros Hne. apply Nat.ltb_ge. rewrite length_app. simpl.
  destruct prev; [contradiction | simpl; lia].
Qed.

(** The two branches taken on histories of length at least two. *)
Lemma detectSpike_zero_branch prev cur th :
  prev <> [] ->
  mean (map count prev) == 0 ->
  detectSpike (prev ++ [cur]) th =
    {| isSpike := JS.gtb (count cur) 10;
       severity := if JS.gtb (count cur) 50 then high
                   else if JS.gtb (count cur) 20 then medium else low;
       percentageIncrease := 100;
       currentCount := count cur;
       averageCount := 0 |}.
Proof.
  intros Hne Hz. unfold detectSpike.
  rewrite (two_snapshots cur Hne), previousCounts_snoc, recentCount_snoc.
  apply is_zero_true_iff in Hz. now rewrite Hz.
Qed.

Lemma detectSpike_ratio_branch prev cur th :
  prev <> [] ->
  ~ mean (map count prev) == 0 ->
  detectSpike (prev ++ [cur]) th =
    let avg := mean (map count prev) in
    let pct := ((count cur - avg) / avg) * 100 in
    {| isSpike := JS.geb pct (JS.default_param th 300);
       severity := if JS.geb pct 500 then critical
                   else if JS.geb pct 400 then high
                   else if JS.geb pct 300 then medium else low;
       percentageIncrease := pct;
       currentCount := count cur;
       averageCount := avg |}.
Proof.
  intros Hne Hz. unfold detectSpike.
  rewrite (two_snapshots cur Hne), previousCounts_snoc, recentCount_snoc.
  apply is_zero_false_iff in Hz. now rewrite Hz.
Qed.

(** C7.  For every history with at least two snapshots (a non-empty
    [prev] followed by the current snapshot [cur]) whose average count
    over [prev] is 0, [detectSpike] takes the absolute-count heuristic:
    [isSpike] holds iff the current count exceeds 10; the severity is
    [high] above 50, [medium] above 20 and [low] otherwise.  Nothing is
    divided by the average: the reported average is 0 and the reported
    percentage is the constant 100. *)
Theorem detectSpike_zero_average
        (prev : list VelocitySnapshot) (cur : VelocitySnapshot) (th : option Q) :
  prev <> [] ->
  mean (map count prev) == 0 ->
  let r := detectSpike (prev ++ [cur]) th in
  (isSpike r = true <-> 10 < count cur)
  /\ (50 < count cur -> severity r = high)
  /\ (20 < count cur -> count cur <= 50 -> severity r = medium)
  /\ (count cur <= 20 -> severity r = low)
  /\ currentCount r = count cur
  /\ averageCount r = 0
  /\ percentageIncrease r = 100.
Proof.
  intros Hne Hz r. subst r. rewrite (detectSpike_zero_branch cur th Hne Hz). simpl.
  split; [apply gtb_true_iff|].
  split.
  { intros H. apply gtb_true_iff in H. now rewrite H. }
  split.
  { intros H20 H50. apply gtb_true_iff in H20. apply gtb_false_iff in H50.
    now rewrite H50, H20. }
  split.
  { intros H20.
    assert (H50 : count cur <= 50) by (eapply Qle_trans; [exact H20 | discriminate]).
    apply gtb_false_iff in H20. apply gtb_false_iff in H50.
    now rewrite H50, H20. }
  repeat split.
Qed.

Lemma detectSpike_zero_average_witness :
  let r := detectSpike (Samples.history [0; 0; 0] ++ [Samples.snapshot 25]) None in
  (isSpike r = true <-> 10 < 25)
  /\ severity r = medium.
Proof.
  pose proof (@detectSpike_zero_average (Samples.history [0; 0; 0])
                (Samples.snapshot 25) None) as H.
  assert (Hne : Samples.history [0; 0; 0] <> []) by discriminate.
  assert (Hz : mean (map count (Samples.history [0; 0; 0])) == 0) by reflexivity.
  specialize (H Hne Hz). simpl in H.
  destruct H as (H1 & _ & H3 & _).
  split.
  - exact H1.
  - apply H3; [reflexivity | discriminate].
Defined.

End SpikeFacts.

Section SpikePercentage.
Import Schema.

Lemma sum_in_order_fold (l : list Double.number) :
  fold_left Double.add l Double.zero = Props.sum_in_order l.
Proof. unfold Props.sum_in_order. symmetry. apply fold_left_rev_right. Qed.

Lemma double_previous_snoc (prev : list VelocitySnapshot) (cur : VelocitySnapshot) :
  map Double.count_of (JS.slice0_m1 (prev ++ [cur])) = map Double.count_of prev.
Proof. unfold JS.slice0_m1. now rewrite removelast_last. Qed.

Lemma double_recent_snoc (prev : list VelocitySnapshot) (cur : VelocitySnapshot) :
  last (map Double.count_of (prev ++ [cur])) Double.zero = Double.count_of cur.
Proof. rewrite map_app. simpl. apply last_last. Qed.

(** The two branches that [detectSpike] takes on a history of at least
    two snapshots, in double arithmetic. *)
Lemma double_detectSpike_branches
      (prev : list VelocitySnapshot) (cur : VelocitySnapshot)
      (th : option Double.number) :
  prev <> [] ->
  let avg := Props.mean_of (map Double.count_of prev) in
  let current := Double.count_of cur in
  let pct := Double.mul (Double.div (Double.sub current avg) avg)
                        (Double.of_Z 100) in
  Double.detectSpike (prev ++ [cur]) th =
    if Double.is_zero avg then
      {| Double.isSpike := Double.gtb current (Double.of_Z 10);
         Double.severity :=
           if Double.gtb current (Double.of_Z 50) then Spike.high
           else if Double.gtb current (Double.of_Z 20) then Spike.medium
           else Spike.low;
         Double.percentageIncrease := Double.of_Z 100;
         Double.currentCount := current;
         Double.averageCount := Double.zero |}
    else
      {| Double.isSpike :=
           Double.geb pct (Double.default_param th (Double.of_Z 300));
         Double.severity :=
           if Double.geb pct (Double.of_Z 500) then Spike.critical
           else if Double.geb pct (Double.of_Z 400) then Spike.high
           else if Double.geb pct (Double.of_Z 300) then Spike.medium
           else Spike.low;
         Double.percentageIncrease := pct;
         Double.currentCount := current;
         Double.averageCount := avg |}.
Proof.
  intros Hne avg current pct. unfold Double.detectSpike.
  rewrite (two_snapshots cur Hne), double_previous_snoc, double_recent_snoc,
    sum_in_order_fold.
  reflexivity.
Qed.

(** C5, as stated, fails where the average is 0.  On the history
    [[0; 5]] the average over the non-current snapshots is 0 and the
    code reports the constant 100, while the formula
    [(current - average) / average * 100] has no value: evaluated as the
    code evaluates numbers, it is [Infinity]. *)
Lemma detectSpike_percentage_not_total :
  let h := Samples.history [0; 5] in
  let r := Double.detectSpike h None in
  let cur := Double.num 5 in
  let avg := Props.mean_of [Double.num 0] in
  (2 <= List.length h)%nat
  /\ Double.is_zero avg = true
  /\ Double.value (Double.percentageIncrease r) = Some 100
  /\ Double.mul (Double.div (Double.sub cur avg) avg) (Double.of_Z 100)
     = SpecFloat.S754_infinity false
  /\ Double.percentageIncrease r
     <> Double.mul (Double.div (Double.sub cur avg) avg) (Double.of_Z 100).
Proof.
  vm_compute. repeat split; try discriminate; try lia; congruence.
Qed.

(** C5, amended.  For every history with at least two snapshots (a
    non-empty [prev] followed by [cur]), the average is the mean of the
    counts of [prev]: their sum, taken in order in double arithmetic,
    divided by their number; [averageCount] reports it, as 0 when it is
    a zero.  Whenever that mean is not 0, [percentageIncrease] is
    [(current - average) / average * 100], each operation rounded to the
    nearest double, [isSpike] compares it with the threshold (300 by
    default) and the severity follows the tiers 500 / 400 / 300.  In
    particular the history [[10; 10; 10; 40]] with the default
    threshold has average 10, increase 300, severity [medium] and
    [isSpike = true].  The rounding shows on the history
    [[2; 2; 3; 14]]: the formula is worth 500 in exact arithmetic, the
    code computes 500 - 2^-43 (printed 499.9999999999999), which is no
    spike at the threshold 500 and of severity [high]. *)
Theorem detectSpike_percentage :
  (forall (prev : list VelocitySnapshot) (cur : VelocitySnapshot)
          (th : option Double.number),
      prev <> [] ->
      let r := Double.detectSpike (prev ++ [cur]) th in
      let avg := Props.mean_of (map Double.count_of prev) in
      let current := Double.count_of cur in
      Double.currentCount r = current
      /\ (Double.is_zero avg = true -> Double.averageCount r = Double.zero)
      /\ (Double.is_zero avg = false ->
          Double.averageCount r = avg
          /\ Double.percentageIncrease r
             = Double.mul (Double.div (Double.sub current avg) avg)
                          (Double.of_Z 100)
          /\ Double.isSpike r
             = Double.geb (Double.percentageIncrease r)
                          (Double.default_param th (Double.of_Z 300))
          /\ Double.severity r
             = (if Double.geb (Double.percentageIncrease r) (Double.of_Z 500)
                then Spike.critical
                else if Double.geb (Double.percentageIncrease r) (Double.of_Z 400)
                then Spike.high
                else if Double.geb (Double.percentageIncrease r) (Double.of_Z 300)
                then Spike.medium
                else Spike.low)))
  /\ (let r := Double.detectSpike (Samples.history [10; 10; 10; 40]) None in
      Double.value (Double.averageCount r) = Some 10
      /\ Double.value (Double.percentageIncrease r) = Some 300
      /\ Double.severity r = Spike.medium
      /\ Double.isSpike r = true)
  /\ (let h := Samples.history [2; 2; 3; 14] in
      let r := Double.detectSpike h (Some (Double.of_Z 500)) in
      Spike.percentageIncrease (Spike.detectSpike h (Some 500)) == 500
      /\ Double.value (Double.percentageIncrease r)
         = Some (4398046511103999 # 8796093022208)
      /\ Double.isSpike r = false
      /\ Double.severity r = Spike.high).
Proof.
  split; [|split].
  - intros prev cur th Hne r avg current. subst r.
    rewrite (double_detectSpike_branches cur th Hne). cbv zeta.
    fold avg. fold current.
    destruct (Double.is_zero avg) eqn:Hz; cbn [Double.currentCount
      Double.averageCount Double.percentageIncrease Double.isSpike
      Double.severity].
    + split; [reflexivity|]. split; [reflexivity | discriminate].
    + split; [reflexivity|]. split; [discriminate|].
      intros _. repeat split.
  - vm_compute. repeat split; reflexivity.
  - vm_compute. repeat split; reflexivity.
Qed.

Lemma detectSpike_percentage_witness :
  let r := Double.detectSpike
             (Samples.history [10; 10; 10] ++ [Samples.snapshot 40])
             (Some (Double.of_Z 300)) in
  Double.value (Double.averageCount r) = Some 10
  /\ Double.value (Double.percentageIncrease r) = Some 300
  /\ Double.isSpike r = true.
Proof.
  destruct (proj1 detectSpike_percentage (Samples.history [10; 10; 10])
                  (Samples.snapshot 40) (Some (Double.of_Z 300)))
    as (_ & _ & Hp).
  { discriminate. }
  destruct Hp as (Ha & Hp & Hs & _).
  { vm_compute. reflexivity. }
  split; [|split].
  - rewrite Ha. vm_compute. reflexivity.
  - rewrite Hp. vm_compute. reflexivity.
  - rewrite Hs, Hp. vm_compute. reflexivity.
Defined.

End SpikePercentage.

(** ** Condition evaluation *)

Section ConditionFacts.
Import Schema Conditions.






End ConditionFacts.

Section DefaultThresholds.
Import Schema Spike Conditions.

Lemma or_default_unset (th : option Q) (d : Q) :
  Reference.unset th -> JS.or_default th d = d.
Proof.
  destruct th as [q|]; simpl; [|reflexivity].
  intros H. apply is_zero_true_iff in H. now rewrite H.
Qed.

Lemma len_ge_iff {A} (l : list A) (n : nat) :
  inject_Z (Z.of_nat n) <= JS.len l <-> (n <= List.length l)%nat.
Proof.
  unfold JS.len. rewrite <- Zle_Qle. lia.
Qed.

(** C10.  When the threshold of a condition is 0 or absent, the
    evaluation uses the default of its kind in place of the configured
    zero: [velocity_spike] detects with 300, [sentiment_shift] compares
    the absolute mean with 0.5, and [category_match] asks for 5 matching
    tweets among the most recent 20.  So a [category_match] condition
    configured with the minimum count 0 holds iff its category list is
    not empty and at least 5 of the 20 most recent tweets match. *)
Theorem zero_threshold_is_default (c : AlertCondition) (ctx : AlertContext) :
  Reference.unset (threshold c) ->
  (ctype c = velocity_spike ->
   evaluateCondition c ctx = isSpike (detectSpike (snapshots ctx) (Some 300)))
  /\ (ctype c = sentiment_shift ->
      (evaluateCondition c ctx = true
       <-> (10 <= List.length (tweets ctx))%nat
           /\ (1 # 2) <= Qabs (avgSentiment (firstn 20 (tweets ctx)))))
  /\ (ctype c = category_match ->
      (evaluateCondition c ctx = true
       <-> exists cats, categories c = Some cats /\ cats <> []
                        /\ (5 <= Reference.matching cats (firstn 20 (tweets ctx)))%nat)).
Proof.
  intros Hun. unfold evaluateCondition. split; [|split]; intros Hty; rewrite Hty.
  - now rewrite (or_default_unset _ _ Hun).
  - rewrite (or_default_unset _ _ Hun).
    destruct (List.length (tweets ctx) <? 10)%nat eqn:E.
    + apply Nat.ltb_lt in E. split; [discriminate | lia].
    + apply Nat.ltb_ge in E. rewrite geb_true_iff. unfold JS.abs, JS.slice0.
      split; [intros H; split; assumption | intros [_ H]; exact H].
  - rewrite (or_default_unset _ _ Hun).
    destruct (categories c) as [[|cat cats]|].
    + split; [discriminate|]. intros (cats & Hc & Hne & _).
      injection Hc as <-. contradiction.
    + rewrite geb_true_iff. unfold matchCount, JS.slice0, Reference.matching.
      rewrite (len_ge_iff _ 5). split.
      * intros H. exists (cat :: cats). repeat split; [discriminate | exact H].
      * intros (cats' & Hc & _ & H). injection Hc as <-. exact H.
    + split; [discriminate|]. intros (cats & Hc & _). discriminate.
Qed.

(** Four matching tweets do not satisfy a [category_match] condition
    configured with the minimum count 0; five do. *)
Lemma zero_threshold_is_default_witness :
  let c := Samples.condition category_match (Some 0) (Some [breaking_news]) in
  let four := Samples.tweets_only (repeat (Samples.tweet 0 None (Some breaking_news)) 4) in
  let five := Samples.tweets_only (repeat (Samples.tweet 0 None (Some breaking_news)) 5) in
  evaluateCondition c four = false /\ evaluateCondition c five = true.
Proof.
  intros c four five.
  assert (Hun : Reference.unset (threshold c)) by reflexivity.
  destruct (zero_threshold_is_default c four Hun) as (_ & _ & H4).
  destruct (zero_threshold_is_default c five Hun) as (_ & _ & H5).
  split.
  - destruct (evaluateCondition c four) eqn:E; [|reflexivity].
    destruct (proj1 (H4 eq_refl) eq_refl) as (cats & Hc & _ & Hn).
    injection Hc as <-. vm_compute in Hn. lia.
  - apply (H5 eq_refl). exists [breaking_news].
    repeat split; [discriminate | vm_compute; lia].
Defined.

End DefaultThresholds.

(** ** The dispatcher *)

Section DispatchFacts.
Import Schema Conditions Effects Engine.

Variable net : nat -> string -> FetchResult.
Variable clock : nat -> Z.

Lemma mapM_cons {A B} (f : A -> M B) (x : A) (l : list A) (s : State) :
  mapM f (x :: l) s =
    let (y, s1) := f x s in
    let (ys, s2) := mapM f l s1 in
    (y :: ys, s2).
Proof.
  simpl. unfold bind, ret. destruct (f x s) as [y s1].
  now destruct (mapM f l s1).
Qed.

Lemma mapM_app {A B} (f : A -> M B) (l1 l2 : list A) (s : State) :
  mapM f (l1 ++ l2) s =
    let (r1, s1) := mapM f l1 s in
    let (r2, s2) := mapM f l2 s1 in
    (r1 ++ r2, s2).
Proof.
  revert s. induction l1 as [|x l1 IH]; intros s.
  - simpl. unfold ret. now destruct (mapM f l2 s).
  - rewrite <- app_comm_cons, !mapM_cons.
    destruct (f x s) as [y s1]. rewrite IH.
    destruct (mapM f l1 s1) as [r1 s2]. now destruct (mapM f l2 s2).
Qed.

Lemma mapM_length {A B} (f : A -> M B) (l : list A) (s : State) :
  List.length (fst (mapM f l s)) = List.length l.
Proof.
  revert s. induction l as [|x l IH]; intros s; [reflexivity|].
  rewrite mapM_cons. destruct (f x s) as [y s1]. specialize (IH s1).
  destruct (mapM f l s1) as [ys s2]. simpl in *. now rewrite IH.
Qed.

(** The result at index [i] is what the [i]-th element reports in the
    state that the elements before it have left. *)
Lemma mapM_nth {A B} (f : A -> M B) (l : list A) (s : State) (i : nat) :
  nth_error (fst (mapM f l s)) i =
    option_map (fun x => fst (f x (snd (mapM f (firstn i l) s)))) (nth_error l i).
Proof.
  revert s i. induction l as [|x l IH]; intros s i.
  - destruct i; reflexivity.
  - rewrite mapM_cons. destruct i as [|i].
    + simpl. destruct (f x s) as [y s1].
      destruct (mapM f l s1) as [ys s2]. reflexivity.
    + rewrite firstn_cons, mapM_cons. destruct (f x s) as [y s1].
      specialize (IH s1 i).
      destruct (mapM f l s1) as [ys s2].
      destruct (mapM f (firstn i l) s1) as [zs s3]. simpl in *. exact IH.
Qed.

Lemma executeAction_effect (action : AlertAction) (data : AlertTriggerData)
      (s : State) :
  let s' := snd (executeAction net action data s) in
  Reference.same_engine s s'
  /\ clock_reads s' = clock_reads s
  /\ trace s' = trace s ++ Reference.dispatch_events data action.
Proof.
  unfold executeAction, Reference.dispatch_events, Reference.same_engine.
  destruct (atype action); simpl.
  - destruct (webhookUrl action) as [url|]; simpl.
    + destruct (JS.truthy_string url); simpl.
      * unfold sendDiscordWebhook, bind, fetch_post.
        destruct (net (fetches s) url); simpl; auto.
      * rewrite app_nil_r. auto.
    + rewrite app_nil_r. auto.
  - auto.
  - auto.
Qed.

Lemma runActions_effect (actions : list AlertAction) (data : AlertTriggerData)
      (s : State) :
  let s' := snd (runActions net actions data s) in
  Reference.same_engine s s'
  /\ clock_reads s' = clock_reads s
  /\ trace s' = trace s ++ flat_map (Reference.dispatch_events data) actions.
Proof.
  unfold runActions. revert s.
  induction actions as [|a actions IH]; intros s.
  - simpl. unfold Reference.same_engine. rewrite app_nil_r. auto.
  - rewrite mapM_cons.
    pose proof (executeAction_effect a data s) as Ha.
    destruct (executeAction net a data s) as [r s1]. simpl in Ha.
    specialize (IH s1).
    destruct (mapM _ actions s1) as [rs s2]. simpl in *.
    unfold Reference.same_engine in *.
    destruct Ha as ((Ha1 & Ha2 & Ha3) & Ha4 & Ha5).
    destruct IH as ((Hb1 & Hb2 & Hb3) & Hb4 & Hb5).
    rewrite Hb1, Hb2, Hb3, Hb4, Hb5, Ha1, Ha2, Ha3, Ha4, Ha5, app_assoc.
    auto.
Qed.

Lemma existsb_id_nth (l : list bool) :
  existsb (fun r => r) l = true <-> exists i, nth_error l i = Some true.
Proof.
  induction l as [|b l IH]; simpl.
  - split; [discriminate | intros [[|i] H]; discriminate].
  - rewrite orb_true_iff, IH. split.
    + intros [-> | [i H]]; [now exists 0%nat | now exists (S i)].
    + intros [[|i] H]; simpl in H; [left; congruence | right; now exists i].
Qed.

Lemma triggerAlert_run (a : Alert) (ctx : AlertContext) (s : State) :
  triggerAlert net clock a ctx s =
    let out := runActions net (actions a)
                 (triggerData a ctx (clock (clock_reads s)))
                 (snd (new_Date clock s)) in
    (JS.some (fun r => r) (fst out), snd out).
Proof.
  unfold triggerAlert, bind, ret, new_Date. simpl.
  now destruct (runActions net (actions a) _ _).
Qed.

Lemma triggerAlert_effect (a : Alert) (ctx : AlertContext) (s : State) :
  let s' := snd (triggerAlert net clock a ctx s) in
  Reference.same_engine s s'
  /\ trace s' = trace s
               ++ flat_map (Reference.dispatch_events
                              (triggerData a ctx (clock (clock_reads s))))
                           (actions a).
Proof.
  rewrite triggerAlert_run. simpl.
  destruct (runActions_effect (actions a)
              (triggerData a ctx (clock (clock_reads s)))
              (snd (new_Date clock s))) as (He & _ & Ht).
  split; [exact He | exact Ht].
Qed.

(** C6.  Dispatch executes every configured action, in the order of
    the list: the trace grows by what each action does, whatever the
    actions report.  The overall result is [true] iff at least one action
    reports success, where an action reports in the state in which the
    actions before it have left the world.  In particular a failing
    webhook followed by an in-app notification yields [true], and both
    the post and the notification happen. *)
Theorem dispatch_any_success (a : Alert) (ctx : AlertContext) (s : State) :
  let data := triggerData a ctx (clock (clock_reads s)) in
  let s0 := snd (new_Date clock s) in
  let reports (i : nat) (action : AlertAction) : bool :=
    fst (executeAction net action data
           (snd (runActions net (firstn i (actions a)) data s0))) in
  let out := triggerAlert net clock a ctx s in
  (fst out = true
   <-> exists i action, nth_error (actions a) i = Some action
                        /\ reports i action = true)
  /\ trace (snd out) = trace s ++ flat_map (Reference.dispatch_events data) (actions a)
  /\ (forall url,
        JS.truthy_string url = true ->
        net (fetches s) url <> Response true ->
        actions a = [Samples.webhook url; Samples.in_app] ->
        reports 0%nat (Samples.webhook url) = false
        /\ reports 1%nat Samples.in_app = true
        /\ fst out = true
        /\ trace (snd out) = trace s ++ [WebhookPost url data; InAppNotification data]).
Proof.
  intros data s0 reports out.
  assert (Hiff : fst out = true
                 <-> exists i action, nth_error (actions a) i = Some action
                                      /\ reports i action = true).
  { subst out. rewrite triggerAlert_run. simpl. unfold JS.some.
    rewrite existsb_id_nth. fold data. fold s0. unfold runActions at 1.
    split.
    - intros [i Hi]. rewrite mapM_nth in Hi.
      destruct (nth_error (actions a) i) as [action|] eqn:E; [|discriminate].
      exists i, action. split; [exact E|].
      injection Hi as Hi. exact Hi.
    - intros (i & action & Hn & Hr). exists i. rewrite mapM_nth, Hn.
      exact (f_equal Some Hr). }
  assert (Htrace : trace (snd out)
                   = trace s ++ flat_map (Reference.dispatch_events data) (actions a)).
  { apply triggerAlert_effect. }
  split; [exact Hiff|]. split; [exact Htrace|].
  intros url Hurl Hfail Hacts.
  assert (H1 : reports 1%nat Samples.in_app = true) by reflexivity.
  split; [|split; [exact H1|split]].
  - unfold reports. rewrite Hacts. simpl.
    unfold executeAction. simpl. rewrite Hurl.
    unfold sendDiscordWebhook, bind, fetch_post, ret. simpl.
    destruct (net (fetches s) url) as [|[|]]; try reflexivity. congruence.
  - apply Hiff. exists 1%nat, Samples.in_app. rewrite Hacts. split; [reflexivity | exact H1].
  - rewrite Htrace, Hacts. simpl. unfold Reference.dispatch_events. simpl.
    now rewrite Hurl.
Qed.

End DispatchFacts.

Lemma dispatch_any_success_witness :
  let a := Samples.alert true [] [Samples.webhook "https://discord.example/hook"; Samples.in_app] in
  let ctx := Effects.context Engine.initial in
  fst (Engine.triggerAlert Samples.offline Samples.noon a ctx Engine.initial) = true.
Proof.
  intros a ctx.
  destruct (dispatch_any_success Samples.offline Samples.noon a ctx Engine.initial)
    as (_ & _ & H).
  apply (H "https://discord.example/hook"%string); [reflexivity | discriminate | reflexivity].
Defined.

(** ** The engine loop *)

Section LoopFacts.
Import Schema Conditions Effects Engine.

Variable net : nat -> string -> FetchResult.
Variable clock : nat -> Z.

Lemma same_engine_refl (s : State) : Reference.same_engine s s.
Proof. unfold Reference.same_engine. auto. Qed.

Lemma same_engine_trans (s1 s2 s3 : State) :
  Reference.same_engine s1 s2 -> Reference.same_engine s2 s3 ->
  Reference.same_engine s1 s3.
Proof.
  unfold Reference.same_engine. intros (A1 & A2 & A3) (B1 & B2 & B3).
  rewrite B1, B2, B3. auto.
Qed.

Lemma extends_refl (P : Event -> Prop) (s : State) : Reference.extends_with P s s.
Proof. exists []. rewrite app_nil_r. auto. Qed.

Lemma extends_trans (P : Event -> Prop) (s1 s2 s3 : State) :
  Reference.extends_with P s1 s2 -> Reference.extends_with P s2 s3 ->
  Reference.extends_with P s1 s3.
Proof.
  intros (n1 & H1 & F1) (n2 & H2 & F2). exists (n1 ++ n2).
  rewrite H2, H1, app_assoc. split; [reflexivity | now apply Forall_app].
Qed.

Lemma dispatch_events_alert (data : AlertTriggerData) (l : list AlertAction) :
  Forall (fun e => Reference.event_alert e = data_alert data)
         (flat_map (Reference.dispatch_events data) l).
Proof.
  induction l as [|x l IH]; simpl; [constructor|].
  apply Forall_app. split; [|exact IH].
  unfold Reference.dispatch_events.
  destruct (atype x); [destruct (webhookUrl x) as [u|];
                       [destruct (JS.truthy_string u)|]|..];
    repeat constructor.
Qed.

(** One iteration of the loop of [checkAlerts]. *)
Lemma checkAlert_step (triggered : list Alert) (a : Alert) (s : State) :
  checkAlert net clock triggered a s =
    if evaluateAlert a (context s) then
      let out := triggerAlert net clock a (context s) s in
      (if fst out then triggered ++ [a] else triggered, snd out)
    else (triggered, s).
Proof.
  unfold checkAlert, bind, gets, ret.
  destruct (evaluateAlert a (context s)); [|reflexivity].
  destruct (triggerAlert net clock a (context s) s) as [[|] s']; reflexivity.
Qed.

Lemma evaluateAlert_disabled (a : Alert) (ctx : AlertContext) :
  enabled a = false -> evaluateAlert a ctx = false.
Proof. intros H. unfold evaluateAlert. now rewrite H. Qed.

Lemma evaluateAlert_enabled (a : Alert) (ctx : AlertContext) :
  evaluateAlert a ctx = true -> enabled a = true.
Proof. unfold evaluateAlert. now destruct (enabled a). Qed.

Lemma checkAlert_effect (triggered : list Alert) (a : Alert) (s : State) :
  let s' := snd (checkAlert net clock triggered a s) in
  Reference.same_engine s s'
  /\ Reference.extends_with
       (fun e => Reference.event_alert e = a /\ enabled a = true) s s'.
Proof.
  rewrite checkAlert_step.
  destruct (evaluateAlert a (context s)) eqn:E; simpl.
  - destruct (triggerAlert_effect net clock a (context s) s) as (He & Ht).
    split; [exact He|]. eexists. split; [exact Ht|].
    apply evaluateAlert_enabled in E.
    eapply Forall_impl; [|apply dispatch_events_alert]. simpl. auto.
  - split; [apply same_engine_refl | apply extends_refl].
Qed.

Lemma checkLoop_cons (a : Alert) (l acc : list Alert) (s : State) :
  checkLoop net clock (a :: l) acc s =
    let out := checkAlert net clock acc a s in
    checkLoop net clock l (fst out) (snd out).
Proof.
  simpl. unfold bind. now destruct (checkAlert net clock acc a s).
Qed.

Lemma checkLoop_app (l1 l2 acc : list Alert) (s : State) :
  checkLoop net clock (l1 ++ l2) acc s =
    let out := checkLoop net clock l1 acc s in
    checkLoop net clock l2 (fst out) (snd out).
Proof.
  revert acc s. induction l1 as [|a l1 IH]; intros acc s.
  - reflexivity.
  - rewrite <- app_comm_cons, !checkLoop_cons. simpl. apply IH.
Qed.

Lemma checkLoop_effect (l acc : list Alert) (s : State) :
  let s' := snd (checkLoop net clock l acc s) in
  Reference.same_engine s s'
  /\ Reference.extends_with
       (fun e => In (Reference.event_alert e) l
                 /\ enabled (Reference.event_alert e) = true) s s'.
Proof.
  revert acc s. induction l as [|a l IH]; intros acc s.
  - simpl. split; [apply same_engine_refl | apply extends_refl].
  - rewrite checkLoop_cons. simpl.
    destruct (checkAlert_effect acc a s) as (He & n1 & Ht & Hf).
    destruct (IH (fst (checkAlert net clock acc a s))
                 (snd (checkAlert net clock acc a s))) as (He' & n2 & Ht' & Hf').
    split; [eapply same_engine_trans; eassumption|].
    exists (n1 ++ n2). rewrite Ht', Ht, app_assoc. split; [reflexivity|].
    apply Forall_app. split.
    + eapply Forall_impl; [|exact Hf]. simpl. intros e [-> Hen]. auto.
    + eapply Forall_impl; [|exact Hf']. simpl. intros e [Hin Hen]. auto.
Qed.

Lemma checkAlert_acc (acc : list Alert) (a : Alert) (s : State) :
  checkAlert net clock acc a s =
    (acc ++ fst (checkAlert net clock [] a s), snd (checkAlert net clock [] a s)).
Proof.
  rewrite !checkAlert_step.
  destruct (evaluateAlert a (context s)); simpl.
  - destruct (fst (triggerAlert net clock a (context s) s)); simpl;
      [reflexivity | now rewrite app_nil_r].
  - now rewrite app_nil_r.
Qed.

Lemma checkLoop_acc (l acc : list Alert) (s : State) :
  checkLoop net clock l acc s =
    (acc ++ fst (checkLoop net clock l [] s), snd (checkLoop net clock l [] s)).
Proof.
  revert acc s. induction l as [|a l IH]; intros acc s.
  - simpl. unfold ret. now rewrite app_nil_r.
  - rewrite !checkLoop_cons. simpl.
    rewrite (checkAlert_acc acc). simpl.
    rewrite IH. rewrite (IH (fst (checkAlert net clock [] a s))). simpl.
    now rewrite app_assoc.
Qed.

Lemma flat_map_ext_seq {A} (f g : nat -> list A) (n : nat) :
  (forall i, (i < n)%nat -> f i = g i) ->
  flat_map f (seq 0 n) = flat_map g (seq 0 n).
Proof.
  intros H. induction n as [|n IH]; [reflexivity|].
  rewrite seq_S, !flat_map_app. simpl. rewrite !app_nil_r.
  rewrite IH by (intros i Hi; apply H; lia).
  now rewrite H by lia.
Qed.

(** The list that the loop returns, alert by alert. *)
Lemma checkLoop_reported (l : list Alert) (s : State) :
  fst (checkLoop net clock l [] s) =
    flat_map (Reference.reported net clock l s) (seq 0 (List.length l)).
Proof.
  induction l as [|x l IH] using rev_ind; [reflexivity|].
  rewrite checkLoop_app. simpl.
  rewrite length_app, Nat.add_1_r, seq_S, flat_map_app. simpl.
  rewrite app_nil_r.
  rewrite (@flat_map_ext_seq _ (Reference.reported net clock (l ++ [x]) s)
             (Reference.reported net clock l s)).
  2:{ intros i Hi. unfold Reference.reported.
      rewrite nth_error_app1 by exact Hi.
      rewrite firstn_app. replace (i - List.length l)%nat with 0%nat by lia.
      simpl. now rewrite app_nil_r. }
  rewrite <- IH.
  destruct (checkLoop_effect l [] s) as ((_ & Hc & _) & _).
  unfold bind. rewrite checkAlert_acc. simpl.
  destruct (checkAlert net clock [] x (snd (checkLoop net clock l [] s))) as [r s'] eqn:E.
  unfold ret. simpl. f_equal.
  rewrite checkAlert_step in E. unfold Reference.reported.
  rewrite nth_error_app2 by lia. rewrite Nat.sub_diag. simpl.
  rewrite firstn_app, firstn_all, Nat.sub_diag. simpl. rewrite app_nil_r.
  rewrite Hc in E.
  destruct (evaluateAlert x (context s)); simpl in *.
  - destruct (fst (triggerAlert net clock x (context s)
                     (snd (checkLoop net clock l [] s)))); now inversion E.
  - now inversion E.
Qed.

(** C2, amended.  A tick does not update any record: the alerts of the
    engine, with their [triggerCount] and [lastTriggeredAt], are after
    [checkAlerts] what they were before.  What the engine does for an
    alert that triggers and for which at least one action reports
    success is to report it, once, in the list that [checkAlerts]
    returns; an alert whose dispatch wholly fails is not reported. *)
Theorem checkAlerts_reports (s : State) :
  let out := checkAlerts net clock s in
  alerts (snd out) = alerts s
  /\ context (snd out) = context s
  /\ fst out = flat_map (Reference.reported net clock (alerts s) s)
                        (seq 0 (List.length (alerts s)))
  /\ (forall i a,
        nth_error (alerts s) i = Some a ->
        let world := snd (checkLoop net clock (firstn i (alerts s)) [] s) in
        (evaluateAlert a (context s) = true
         /\ fst (triggerAlert net clock a (context s) world) = true
         -> Reference.reported net clock (alerts s) s i = [a])
        /\ (fst (triggerAlert net clock a (context s) world) = false
            -> Reference.reported net clock (alerts s) s i = [])).
Proof.
  unfold checkAlerts, bind, gets. simpl.
  destruct (checkLoop_effect (alerts s) [] s) as ((Ha & Hc & _) & _).
  split; [exact Ha|]. split; [exact Hc|]. split; [apply checkLoop_reported|].
  intros i a Hn. simpl. unfold Reference.reported. rewrite Hn. split.
  - intros [He Ht]. now rewrite He, Ht.
  - intros Ht. now rewrite Ht, andb_false_r.
Qed.

(** C1, amended.  An alert whose conditions list is empty triggers
    exactly when it is enabled: its evaluation is the vacuous truth of
    the AND over the empty list, there is no guard at evaluation time,
    and the engine then dispatches all its actions and reports it when
    one of them succeeds.  Only when it is disabled does it yield "no
    trigger", and then nothing is dispatched. *)
Theorem empty_conditions_follow_enabled (a : Alert) :
  conditions a = [] ->
  (forall ctx, evaluateAlert a ctx = enabled a)
  /\ (forall triggered s,
        enabled a = true ->
        let out := triggerAlert net clock a (context s) s in
        checkAlert net clock triggered a s
        = (if fst out then triggered ++ [a] else triggered, snd out)
        /\ trace (snd (checkAlert net clock triggered a s))
           = trace s
             ++ flat_map (Reference.dispatch_events
                            (triggerData a (context s) (clock (clock_reads s))))
                         (actions a))
  /\ (forall triggered s,
        enabled a = false ->
        checkAlert net clock triggered a s = (triggered, s)).
Proof.
  intros Hc.
  assert (He : forall ctx, evaluateAlert a ctx = enabled a).
  { intros ctx. unfold evaluateAlert. rewrite Hc. now destruct (enabled a). }
  split; [exact He|]. split.
  - intros triggered s Hen. simpl. rewrite checkAlert_step, He, Hen. simpl.
    split; [reflexivity | apply triggerAlert_effect].
  - intros triggered s Hen. now rewrite checkAlert_step, He, Hen.
Qed.

Lemma updateContext_effect (c : PartialContext) (s : State) :
  let s' := snd (updateContext c s) in
  alerts s' = alerts s /\ checkInterval s' = checkInterval s
  /\ trace s' = trace s.
Proof. simpl. auto. Qed.

Lemma tick_effect (s : State) :
  let s' := snd (tick net clock s) in
  Reference.same_engine s s'
  /\ Reference.extends_with
       (fun e => In (Reference.event_alert e) (alerts s)
                 /\ enabled (Reference.event_alert e) = true) s s'.
Proof.
  unfold tick, bind, gets, ret. destruct (checkInterval s); simpl.
  - unfold checkAlerts, bind, gets.
    pose proof (checkLoop_effect (alerts s) [] s) as H.
    destruct (checkLoop net clock (alerts s) [] s). exact H.
  - split; [apply same_engine_refl | apply extends_refl].
Qed.

Lemma run_cons (c : PartialContext) (rest : list PartialContext) (s : State) :
  run net clock (c :: rest) s =
    run net clock rest (snd (tick net clock (snd (updateContext c s)))).
Proof.
  simpl. unfold bind. simpl. now destruct (tick net clock _) as [[] s2].
Qed.

Lemma run_effect (refreshes : list PartialContext) (s : State) :
  let s' := snd (run net clock refreshes s) in
  alerts s' = alerts s
  /\ Reference.extends_with
       (fun e => In (Reference.event_alert e) (alerts s)
                 /\ enabled (Reference.event_alert e) = true) s s'.
Proof.
  revert s. induction refreshes as [|c rest IH]; intros s.
  - simpl. split; [reflexivity | apply extends_refl].
  - rewrite run_cons. simpl.
    set (s1 := snd (updateContext c s)).
    destruct (tick_effect s1) as ((Ha & _) & Ht).
    destruct (IH (snd (tick net clock s1))) as (Ha' & Ht').
    simpl in Ha', Ht'. rewrite Ha in Ha', Ht'.
    split; [exact Ha'|].
    apply (@extends_trans _ s (snd (tick net clock s1))).
    + destruct Ht as (new & Hn & Hf). exists new. split; [exact Hn | exact Hf].
    + exact Ht'.
Qed.

(** C9.  An alert with [enabled = false] is never evaluated: whatever
    its conditions and whatever the context, also one that shows a
    spike, [evaluateAlert] answers [false] at the gate.  The loop of the
    engine passes it by without touching the world, it is never
    reported, and over any number of ticks, with the context refreshed
    before each, no event happens on its behalf and the alerts of the
    engine stay as they are, so its [triggerCount] stays 0. *)
Theorem disabled_alert_never_fires (a : Alert) :
  enabled a = false ->
  (forall ctx, evaluateAlert a ctx = false)
  /\ (forall triggered s, checkAlert net clock triggered a s = (triggered, s))
  /\ (forall s, ~ In a (fst (checkAlerts net clock s)))
  /\ (forall refreshes s,
        let s' := snd (run net clock refreshes s) in
        alerts s' = alerts s
        /\ map triggerCount (alerts s') = map triggerCount (alerts s)
        /\ Reference.extends_with (fun e => Reference.event_alert e <> a) s s').
Proof.
  intros Hoff.
  assert (He : forall ctx, evaluateAlert a ctx = false)
    by (intros ctx; now apply evaluateAlert_disabled).
  split; [exact He|]. split.
  { intros triggered s. now rewrite checkAlert_step, He. }
  split.
  { intros s Hin. unfold checkAlerts, bind, gets in Hin. simpl in Hin.
    rewrite checkLoop_reported in Hin. apply in_flat_map in Hin.
    destruct Hin as (i & _ & Hin). unfold Reference.reported in Hin.
    destruct (nth_error (alerts s) i) as [b|]; [|contradiction].
    destruct (evaluateAlert b (context s)) eqn:E; simpl in Hin; [|contradiction].
    destruct (fst (triggerAlert net clock b (context s) _)); simpl in Hin;
      [|contradiction].
    destruct Hin as [-> | []]. rewrite He in E. discriminate. }
  intros refreshes s. simpl.
  destruct (run_effect refreshes s) as (Ha & new & Hn & Hf).
  split; [exact Ha|]. split.
  - now rewrite Ha.
  - exists new. split; [exact Hn|].
    eapply Forall_impl; [|exact Hf]. simpl. intros e [_ Hen] Heq.
    rewrite Heq in Hen. congruence.
Qed.

End LoopFacts.

Lemma checkAlerts_reports_witness :
  let a := Samples.alert true
             [Samples.condition Schema.velocity_spike (Some 300) None]
             [Samples.webhook "https://discord.example/hook"; Samples.in_app] in
  let s := Samples.engine [a]
             (Samples.snapshots_only (Samples.history [10; 10; 10; 40])) in
  Reference.reported Samples.offline Samples.noon (Effects.alerts s) s 0 = [a]
  /\ Effects.alerts (snd (Engine.checkAlerts Samples.offline Samples.noon s))
     = Effects.alerts s.
Proof.
  intros a s.
  destruct (checkAlerts_reports Samples.offline Samples.noon s) as (Ha & _ & _ & H).
  split; [|exact Ha].
  apply (H 0%nat a eq_refl). split; reflexivity.
Defined.

(** C1, as stated, fails: an enabled alert without conditions triggers
    in every context.  Here it is evaluated to [true], the engine
    dispatches its in-app notification and reports it. *)
Lemma empty_conditions_trigger :
  let a := Samples.alert true [] [Samples.in_app] in
  let s := Samples.engine [a] (Effects.context Engine.initial) in
  let out := Engine.checkAlerts Samples.offline Samples.noon s in
  Conditions.evaluateAlert a (Effects.context s) = true
  /\ fst out = [a]
  /\ Effects.trace (snd out)
     = [Effects.InAppNotification
          (Engine.triggerData a (Effects.context s) 0)].
Proof. repeat split. Qed.

Lemma empty_conditions_follow_enabled_witness :
  let a := Samples.alert true [] [Samples.in_app] in
  let quiet := Samples.tweets_only [] in
  let spiking := Samples.snapshots_only (Samples.history [10; 10; 10; 40]) in
  Conditions.evaluateAlert a quiet = true
  /\ Conditions.evaluateAlert a spiking = true.
Proof.
  intros a quiet spiking.
  destruct (@empty_conditions_follow_enabled Samples.offline Samples.noon a eq_refl)
    as (H & _).
  split; [exact (H quiet) | exact (H spiking)].
Defined.

(** C2, as stated, fails: the engine has no code that writes
    [triggerCount] or [lastTriggeredAt].  An alert on a velocity spike,
    with a webhook that fails and an in-app notification that succeeds,
    triggers on the history [[10; 10; 10; 40]] and is reported, and its
    record in the engine still shows no trigger. *)
Lemma trigger_leaves_record :
  let a := Samples.alert true
             [Samples.condition Schema.velocity_spike (Some 300) None]
             [Samples.webhook "https://discord.example/hook"; Samples.in_app] in
  let s := Samples.engine [a]
             (Samples.snapshots_only (Samples.history [10; 10; 10; 40])) in
  let out := Engine.checkAlerts Samples.offline Samples.noon s in
  Conditions.evaluateAlert a (Effects.context s) = true
  /\ fst (Engine.triggerAlert Samples.offline Samples.noon a (Effects.context s) s) = true
  /\ fst out = [a]
  /\ (forall a', In a' (Effects.alerts (snd out)) ->
                 Schema.triggerCount a' == 0
                 /\ ~ Schema.triggerCount a' == Schema.triggerCount a + 1
                 /\ Schema.lastTriggeredAt a' = None).
Proof.
  intros a s out.
  split; [reflexivity|]. split; [reflexivity|]. split; [reflexivity|].
  intros a' [<- | []]. repeat split; discriminate.
Qed.

Lemma disabled_alert_never_fires_witness :
  let a := Samples.alert false
             [Samples.condition Schema.velocity_spike (Some 300) None]
             [Samples.in_app] in
  let s := Samples.engine [a]
             (Samples.snapshots_only (Samples.history [10; 10; 10; 40])) in
  Spike.isSpike (Spike.detectSpike (Conditions.snapshots (Effects.context s)) (Some 300))
  = true
  /\ ~ In a (fst (Engine.checkAlerts Samples.offline Samples.noon s)).
Proof.
  intros a s. split; [reflexivity|].
  destruct (@disabled_alert_never_fires Samples.offline Samples.noon a eq_refl)
    as (_ & _ & H & _).
  exact (H s).
Defined.

(** ** Merging the feeds *)

Section MergeFacts.
Import Schema Rss.

Lemma insert_perm (t : Tweet) (l : list Tweet) :
  Permutation (insert_newest_first t l) (t :: l).
Proof.
  induction l as [|u l IH]; simpl; [reflexivity|].
  destruct (createdAt t <? createdAt u)%Z; [|reflexivity].
  rewrite IH. apply perm_swap.
Qed.

Lemma sort_perm (l : list Tweet) : Permutation (sort_newest_first l) l.
Proof.
  induction l as [|t l IH]; simpl; [reflexivity|].
  rewrite insert_perm. now constructor.
Qed.

Lemma insert_sorted (t : Tweet) (l : list Tweet) :
  Reference.newest_first l -> Reference.newest_first (insert_newest_first t l).
Proof.
  unfold Reference.newest_first.
  induction l as [|u l IH]; intros Hs; simpl.
  - constructor; constructor.
  - inversion Hs as [|? ? Hs' Hall]; subst.
    destruct (createdAt t <? createdAt u)%Z eqn:E.
    + apply Z.ltb_lt in E. constructor; [now apply IH|].
      apply (Permutation_Forall (x := t :: l)).
      * symmetry. apply insert_perm.
      * constructor; [lia | exact Hall].
    + apply Z.ltb_ge in E. constructor; [exact Hs|].
      constructor; [exact E|].
      eapply Forall_impl; [|exact Hall]. simpl. intros; lia.
Qed.

Lemma sort_sorted (l : list Tweet) : Reference.newest_first (sort_newest_first l).
Proof.
  induction l as [|t l IH]; simpl.
  - constructor.
  - now apply insert_sorted.
Qed.

(** The sort is stable: tweets created at the same time keep the order
    in which they were merged. *)
Lemma insert_stable (time : Z) (t : Tweet) (l : list Tweet) :
  Reference.newest_first l ->
  Reference.created_at time (insert_newest_first t l)
  = Reference.created_at time (t :: l).
Proof.
  unfold Reference.newest_first, Reference.created_at.
  induction l as [|u l IH]; intros Hs; [reflexivity|].
  inversion Hs as [|? ? Hs' Hall]; subst. simpl.
  destruct (createdAt t <? createdAt u)%Z eqn:E; [|reflexivity].
  apply Z.ltb_lt in E. simpl. rewrite (IH Hs'). simpl.
  destruct (createdAt t =? time)%Z eqn:Et;
    destruct (createdAt u =? time)%Z eqn:Eu; try reflexivity.
  apply Z.eqb_eq in Et, Eu. lia.
Qed.

Lemma sort_stable (time : Z) (l : list Tweet) :
  Reference.created_at time (sort_newest_first l) = Reference.created_at time l.
Proof.
  induction l as [|t l IH]; [reflexivity|].
  simpl. rewrite insert_stable by apply sort_sorted.
  unfold Reference.created_at in *. simpl. now rewrite IH.
Qed.

(** *** [Promise.allSettled] does not depend on the completion order *)

Lemma fill_length {A} (slots : list (option A)) (i : nat) (x : A) :
  List.length (fill slots i x) = List.length slots.
Proof.
  revert i. induction slots as [|o slots IH]; intros [|i]; simpl; auto.
Qed.

Lemma fill_same {A} (slots : list (option A)) (i : nat) (x : A) :
  (i < List.length slots)%nat -> nth_error (fill slots i x) i = Some (Some x).
Proof.
  revert i. induction slots as [|o slots IH]; intros [|i] H; simpl in *;
    try lia; [reflexivity | apply IH; lia].
Qed.

Lemma fill_other {A} (slots : list (option A)) (i j : nat) (x : A) :
  i <> j -> nth_error (fill slots i x) j = nth_error slots j.
Proof.
  revert i j. induction slots as [|o slots IH]; intros [|i] [|j] H; simpl;
    try reflexivity; try congruence. apply IH. congruence.
Qed.

Lemma settle_length {A} (outcomes : list A) (slots : list (option A)) (i : nat) :
  List.length (settle outcomes slots i) = List.length slots.
Proof.
  unfold settle. destruct (nth_error outcomes i); [apply fill_length | reflexivity].
Qed.

Lemma settled_length {A} (outcomes : list A) (c : list nat) (slots : list (option A)) :
  List.length (fold_left (settle outcomes) c slots) = List.length slots.
Proof.
  revert slots. induction c as [|i c IH]; intros slots; simpl; [reflexivity|].
  now rewrite IH, settle_length.
Qed.

(** A slot whose promise has settled holds the outcome of that promise,
    whenever it settled. *)
Lemma settled_slot {A} (outcomes : list A) (c : list nat)
      (slots : list (option A)) (j : nat) (x : A) :
  List.length slots = List.length outcomes ->
  nth_error outcomes j = Some x ->
  In j c \/ nth_error slots j = Some (Some x) ->
  nth_error (fold_left (settle outcomes) c slots) j = Some (Some x).
Proof.
  intros Hlen Hx. revert slots Hlen.
  induction c as [|i c IH]; intros slots Hlen H; simpl.
  - destruct H as [[] | H]. exact H.
  - apply IH; [now rewrite settle_length|].
    destruct (Nat.eq_dec i j) as [-> | Hne].
    + right. unfold settle. rewrite Hx. apply fill_same.
      rewrite Hlen. apply nth_error_Some. congruence.
    + destruct H as [[Hij | Hin] | H]; [congruence | now left |].
      right. unfold settle.
      destruct (nth_error outcomes i); [|exact H].
      now rewrite fill_other.
Qed.

Lemma all_filled_complete {A} (outcomes : list A) (slots : list (option A)) :
  List.length slots = List.length outcomes ->
  (forall j x, nth_error outcomes j = Some x -> nth_error slots j = Some (Some x)) ->
  all_filled slots = Some outcomes.
Proof.
  revert slots. induction outcomes as [|x outcomes IH]; intros [|o slots] Hlen H;
    simpl in *; try discriminate; [reflexivity|].
  specialize (H 0%nat x eq_refl) as H0. simpl in H0. injection H0 as ->.
  rewrite (IH slots); [reflexivity | lia |].
  intros j y Hy. exact (H (S j) y Hy).
Qed.

Lemma allSettled_complete {A} (outcomes : list A) (completion : list nat) :
  Permutation completion (seq 0 (List.length outcomes)) ->
  allSettled outcomes completion = Some outcomes.
Proof.
  intros Hp. unfold allSettled. apply all_filled_complete.
  - now rewrite settled_length, repeat_length.
  - intros j x Hx. apply settled_slot; [now rewrite repeat_length | exact Hx |].
    left. apply (Permutation_in _ (Permutation_sym Hp)).
    apply in_seq. split; [lia|]. simpl. apply nth_error_Some. congruence.
Qed.

Lemma collect_tweets (parse : FeedSource -> Settled (list Tweet))
      (limit : JS.JNum) (sources : list FeedSource) (acc : list Tweet * list string) :
  fst (fold_left collect
         (combine sources (map (fun src => fetchRssFeed parse src limit) sources))
         acc)
  = fst acc
    ++ flat_map (fun src => match fetchRssFeed parse src limit with
                            | Fulfilled value => value
                            | Rejected _ => []
                            end) sources.
Proof.
  revert acc. induction sources as [|src sources IH]; intros acc; simpl.
  - now rewrite app_nil_r.
  - rewrite IH. unfold collect. simpl.
    destruct (fetchRssFeed parse src limit); simpl.
    + now rewrite app_assoc.
    + reflexivity.
Qed.

(** What [fetchAllRssFeeds] returns once every selected feed has
    settled. *)
Lemma fetchAllRssFeeds_settled (parse : FeedSource -> Settled (list Tweet))
      (sourceIds : list string) (limit : JS.JNum) (completion : list nat) :
  Permutation completion (seq 0 (List.length (selected sourceIds))) ->
  fetchAllRssFeeds parse sourceIds limit completion
  = Some (sort_newest_first (Reference.merged parse sourceIds limit),
          snd (fold_left collect
                 (combine (selected sourceIds)
                    (map (fun src => fetchRssFeed parse src limit)
                         (selected sourceIds)))
                 ([], []))).
Proof.
  intros Hc. unfold fetchAllRssFeeds.
  rewrite allSettled_complete by (now rewrite length_map).
  now rewrite collect_tweets.
Qed.

(** C8, as stated, fails on ties: the comparator orders by [createdAt]
    only, so articles of two feeds published at the same time follow
    each other in the merged list, which is then not strictly
    descending. *)
Lemma merged_feeds_may_tie :
  let out := fetchAllRssFeeds Samples.same_time ["defillama"; "coindesk"]%string
               (Some 10%Z) [1; 0]%nat in
  out = Some ([Samples.article "defillama" 5; Samples.article "coindesk" 5], [])
  /\ ~ Reference.strictly_newest_first
        [Samples.article "defillama" 5; Samples.article "coindesk" 5].
Proof.
  split; [reflexivity|].
  intros H. inversion H as [|? ? _ Hall]; subst.
  inversion Hall as [|? ? Hlt _]; subst. simpl in Hlt. lia.
Qed.

(** C8, amended.  Once every selected feed has settled, in whatever
    order, [fetchAllRssFeeds] returns the merged tweets sorted by
    [createdAt] descending, newest first, in the weak sense: no tweet is
    followed by a newer one, and tweets created at the same time keep
    the order in which the feeds are listed.  The list holds exactly the
    items of the feeds that succeeded, and it is the same for every
    order of completion. *)
Theorem merged_feeds_sorted (parse : FeedSource -> Settled (list Tweet))
        (sourceIds : list string) (limit : JS.JNum) (completion : list nat) :
  Permutation completion (seq 0 (List.length (selected sourceIds))) ->
  exists tweets errors,
    fetchAllRssFeeds parse sourceIds limit completion = Some (tweets, errors)
    /\ Reference.newest_first tweets
    /\ Permutation tweets (Reference.merged parse sourceIds limit)
    /\ (forall time, Reference.created_at time tweets
                     = Reference.created_at time (Reference.merged parse sourceIds limit))
    /\ (forall completion',
          Permutation completion' (seq 0 (List.length (selected sourceIds))) ->
          fetchAllRssFeeds parse sourceIds limit completion' = Some (tweets, errors)).
Proof.
  intros Hp.
  eexists. eexists. split; [apply fetchAllRssFeeds_settled; exact Hp|].
  split; [apply sort_sorted|]. split; [apply sort_perm|].
  split; [intros time; apply sort_stable|].
  intros c Hc. now apply fetchAllRssFeeds_settled.
Qed.

Lemma merged_feeds_sorted_witness :
  exists tweets errors,
    fetchAllRssFeeds Samples.same_time ["defillama"; "coindesk"]%string
      (Some 10%Z) [1; 0]%nat = Some (tweets, errors)
    /\ Reference.newest_first tweets.
Proof.
  destruct (merged_feeds_sorted Samples.same_time
              ["defillama"; "coindesk"]%string (Some 10%Z) (completion := [1; 0]%nat))
    as (tweets & errors & H & Hs & _).
  - simpl. apply perm_swap.
  - exists tweets, errors. split; [exact H | exact Hs].
Defined.

End MergeFacts.

(** ** The mock generator and the route *)

Section GeneratorFacts.
Import Schema Mock Generator.

Variable random : nat -> Q.
Variable now : nat -> Z.
Variable log10 : Q -> Q.
Variable toString36 : Q -> string.

Hypothesis random_range : Reference.unit_interval random.

Lemma ensures_ret {A} (a : A) (P : A -> Prop) :
  P a -> Reference.ensures (gret a) P.
Proof. intros H s. exists a, s. auto. Qed.

Lemma ensures_bind {A B} (m : Gen A) (k : A -> Gen B)
      (P : A -> Prop) (R : B -> Prop) :
  Reference.ensures m P ->
  (forall a, P a -> Reference.ensures (k a) R) ->
  Reference.ensures (gbind m k) R.
Proof.
  intros Hm Hk s. destruct (Hm s) as (a & s1 & E & Ha).
  destruct (Hk a Ha s1) as (b & s2 & E' & Hb).
  exists b, s2. unfold gbind. rewrite E. auto.
Qed.

Lemma ensures_defined {A} (a : A) :
  Reference.ensures (defined (Some a)) (fun x => x = a).
Proof. intros s. exists a, s. auto. Qed.

Lemma ensures_random :
  Reference.ensures (Math_random random) (fun r => 0 <= r /\ r < 1).
Proof.
  intros s. eexists. eexists. split; [reflexivity | apply random_range].
Qed.

Lemma ensures_now : Reference.ensures (Date_now now) (fun _ => True).
Proof. intros s. eexists. eexists. split; [reflexivity | exact I]. Qed.

(** A draw in the unit interval indexes an element of a non-empty
    array. *)
Lemma index_in_range {A} (arr : list A) (r : Q) :
  arr <> [] -> 0 <= r -> r < 1 ->
  exists x, index arr (floor (r * JS.len arr)) = Some x.
Proof.
  intros Hne H0 H1. unfold index, floor.
  assert (Hlen : 0 < JS.len arr).
  { unfold JS.len. destruct arr; [contradiction|].
    replace 0 with (inject_Z 0) by reflexivity. rewrite <- Zlt_Qlt.
    simpl List.length. lia. }
  assert (Hlo : (0 <= Qfloor (r * JS.len arr))%Z).
  { rewrite <- (Qfloor_Z 0). apply Qfloor_resp_le.
    apply Qmult_le_0_compat; [exact H0 | now apply Qlt_le_weak]. }
  assert (Hhi : (Qfloor (r * JS.len arr) < Z.of_nat (List.length arr))%Z).
  { rewrite Zlt_Qlt. eapply Qle_lt_trans; [apply Qfloor_le|].
    fold (JS.len arr). rewrite <- (Qmult_1_l (JS.len arr)) at 2.
    apply Qmult_lt_compat_r; assumption. }
  destruct (Qfloor (r * JS.len arr) <? 0)%Z eqn:E; [apply Z.ltb_lt in E; lia|].
  destruct (nth_error arr (Z.to_nat (Qfloor (r * JS.len arr)))) as [x|] eqn:En.
  - now exists x.
  - apply nth_error_None in En. lia.
Qed.

Lemma ensures_pickRandom {A} (arr : list A) :
  arr <> [] ->
  Reference.ensures (pickRandom random arr) (fun x => x <> None).
Proof.
  intros Hne. unfold pickRandom.
  eapply ensures_bind; [apply ensures_random|].
  intros r [H0 H1]. destruct (index_in_range Hne H0 H1) as (x & Hx).
  apply ensures_ret. congruence.
Qed.

Ltac step :=
  first
    [ eapply ensures_bind; [apply ensures_random | intros ? _]
    | eapply ensures_bind; [apply ensures_now | intros ? _] ].

Ltac pick :=
  let x := fresh "x" in
  let H := fresh "H" in
  eapply ensures_bind;
  [ apply ensures_pickRandom; discriminate
  | intros [x|] H; [|congruence] ].

Lemma ensures_generateId :
  Reference.ensures (generateId random now toString36) (fun _ => True).
Proof. unfold generateId. do 2 step. now apply ensures_ret. Qed.

Lemma ensures_generateMetrics (author : MockUser) :
  Reference.ensures (generateMetrics random log10 author) (fun _ => True).
Proof. unfold generateMetrics. do 4 step. now apply ensures_ret. Qed.

Lemma ensures_generateSentiment :
  Reference.ensures (generateSentiment random now) (fun _ => True).
Proof. unfold generateSentiment. do 4 step. now apply ensures_ret. Qed.

Lemma ensures_generateCategory :
  Reference.ensures (generateCategory random) (fun _ => True).
Proof. unfold generateCategory. step. now apply ensures_ret. Qed.

(** The weights add up, in double arithmetic, to the double just below
    1: the largest draw falls through every weight. *)
Lemma generateCategory_falls_through :
  generateCategory (fun _ => 9007199254740991 # 9007199254740992) Props.fresh
  = Some (unknown, {| draws := 1; reads := 0 |})
  /\ generateCategory (fun _ => 0) Props.fresh
     = Some (breaking_news, {| draws := 1; reads := 0 |}).
Proof. vm_compute. split; reflexivity. Qed.

Lemma TOPICS_not_empty (k : TopicKey) : TOPICS k <> [].
Proof. destruct k; discriminate. Qed.

Lemma ensures_generateTweetText (category : TweetCategory) :
  Reference.ensures (generateTweetText random category) (fun _ => True).
Proof.
  unfold generateTweetText. pick. simpl.
  eapply ensures_bind; [apply ensures_defined | intros topics ->].
  eapply ensures_bind; [apply ensures_pickRandom, TOPICS_not_empty|].
  intros [topic|] Ht; [|congruence].
  destruct category;
    first [ pick; eapply ensures_bind; [apply ensures_defined | intros ? _];
            now apply ensures_ret
          | intros s; exists topic, s; split; [reflexivity | exact I] ].
Qed.

(** The generator never throws. *)
Lemma ensures_generateMockTweet :
  Reference.ensures (generateMockTweet random now log10 toString36)
                    (fun t => source t = src_mock).
Proof.
  unfold generateMockTweet. pick.
  eapply ensures_bind; [apply ensures_generateCategory | intros category _].
  eapply ensures_bind; [apply ensures_defined | intros author _].
  step.
  eapply ensures_bind; [apply ensures_generateId | intros ? _].
  eapply ensures_bind; [apply ensures_generateTweetText | intros ? _].
  eapply ensures_bind; [apply ensures_generateMetrics | intros ? _].
  do 2 step.
  eapply ensures_bind; [apply ensures_generateSentiment | intros ? _].
  now apply ensures_ret.
Qed.

Lemma ensures_replicateG {A} (g : Gen A) (P : A -> Prop) (n : nat) :
  Reference.ensures g P ->
  Reference.ensures (replicateG n g)
                    (fun l => List.length l = n /\ Forall P l).
Proof.
  intros Hg. induction n as [|n IH]; simpl.
  - apply ensures_ret. auto.
  - eapply ensures_bind; [exact Hg | intros x Hx].
    eapply ensures_bind; [exact IH | intros xs [Hl Hf]].
    apply ensures_ret. simpl. auto.
Qed.

(** [Array.from({ length: count }, () => generateMockTweet())] yields
    as many tweets as the length asks for, all of them mock tweets. *)
Lemma ensures_generateMockTweets (count : JS.JNum) :
  Reference.ensures (generateMockTweets random now log10 toString36 count)
                    (fun l => List.length l = JS.toLength count
                              /\ Forall (fun t => source t = src_mock) l).
Proof.
  unfold generateMockTweets. apply ensures_replicateG, ensures_generateMockTweet.
Qed.

End GeneratorFacts.

Section RouteFacts.
Import Schema Rss Mock Route.

Lemma newsApiTier_falls (w : World) (request : Request) :
  Reference.news_fails w request -> newsApiTier w request = FallThrough.
Proof.
  unfold Reference.news_fails, newsApiTier. intros [-> | H]; [reflexivity|].
  destruct (isNewsApiConfigured w); [|reflexivity].
  destruct (fetchNewsArticles w (query_of request) (max_of request)) as [r|];
    [|reflexivity].
  destruct (String.eqb_spec (status r) "ok"); [contradiction | reflexivity].
Qed.

Lemma xApiTier_falls (w : World) (request : Request) :
  Reference.x_fails w request -> xApiTier w request = FallThrough.
Proof.
  unfold Reference.x_fails, xApiTier. intros [-> | [m ->]]; [reflexivity|].
  now destruct (isXApiConfigured w).
Qed.

Lemma rssTier_settles (w : World) (request : Request) :
  Reference.feeds_settle w request ->
  exists t, rssTier w request = Some t
            /\ forall r, t = Returned r -> r_source r = rss /\ r_tweets r <> [].
Proof.
  intros Hp. unfold rssTier.
  rewrite (@fetchAllRssFeeds_settled (parse w) (sources_of request)
             (JS.ceil_div_plus (max_of request)
                               (List.length (sources_of request)) 5)
             (completion w) Hp).
  match goal with
  | |- context [(0 <? List.length ?l)%nat] => destruct l as [|x sliced]
  end; simpl.
  - exists FallThrough. split; [reflexivity | discriminate].
  - eexists. split; [reflexivity|]. intros r [= <-]. simpl. split; [reflexivity | discriminate].
Qed.

Lemma mockTier_answers (w : World) (request : Request) :
  Reference.unit_interval (random w) ->
  exists r, mockTier w request = Some r
            /\ r_source r = mock
            /\ List.length (r_tweets r) = JS.toLength (max_of request)
            /\ Forall (fun t => source t = src_mock) (r_tweets r).
Proof.
  intros Hr. unfold mockTier.
  destruct (@ensures_generateMockTweets (random w) (now w) (log10 w)
              (toString36 w) Hr (max_of request) {| draws := 0; reads := 0 |})
    as (tweets & s' & -> & Hl & Hf).
  eexists. split; [reflexivity|]. simpl. auto.
Qed.


(** C4, as stated, fails.  With [max=0] every tier comes up empty and
    the mock tier yields exactly 0 items, so the answer is empty.  And
    a configured NewsAPI that answers the query with no article is
    returned as it is: the answer is empty although 20 items were asked
    for, and the mock tier is not reached. *)
Lemma GET_may_answer_nothing :
  GET Samples.nothing_works (Samples.request (Some "0"%string))
  = Some {| r_tweets := []; r_source := mock; r_errors := [] |}
  /\ max_of (Samples.request None) = Some 20%Z
  /\ GET Samples.no_news (Samples.request None)
     = Some {| r_tweets := []; r_source := newsapi; r_errors := [] |}.
Proof. repeat split. Qed.

(** C4, amended.  Once the selected feeds have settled, and with
    [Math.random] in its range, the handler never fails: it always
    returns a response.  When the RSS tier yields no item after the
    filter and the cap, and the NewsAPI and X API tiers are each
    unconfigured or failing, the mock tier answers with exactly [max]
    items, where [max] is the requested number capped at 50 (no item
    when it is [NaN] or not positive); the answer is then non-empty
    whenever [max] is positive.  An answer of the RSS tier is never
    empty. *)
Theorem GET_answers (w : World) (request : Request) :
  Reference.unit_interval (random w) ->
  Reference.feeds_settle w request ->
  exists r,
    GET w request = Some r
    /\ (r_source r = rss -> r_tweets r <> [])
    /\ (rssTier w request = Some FallThrough ->
        Reference.news_fails w request ->
        Reference.x_fails w request ->
        r_source r = mock
        /\ List.length (r_tweets r) = JS.toLength (max_of request)
        /\ Forall (fun t => source t = src_mock) (r_tweets r)
        /\ ((0 < JS.toLength (max_of request))%nat -> r_tweets r <> [])).
Proof.
  intros Hr Hp. unfold GET.
  destruct (@rssTier_settles w request Hp) as (t & Ht & Hrss). rewrite Ht.
  destruct (@mockTier_answers w request Hr) as (rm & Hm & Hsrc & Hlen & Hall).
  assert (Hmock : r_source rm = mock
                  /\ List.length (r_tweets rm) = JS.toLength (max_of request)
                  /\ Forall (fun t => source t = src_mock) (r_tweets rm)
                  /\ ((0 < JS.toLength (max_of request))%nat -> r_tweets rm <> [])).
  { repeat split; try assumption. intros Hpos E. rewrite E in Hlen. simpl in Hlen. lia. }
  destruct t as [r|].
  - exists r. split; [reflexivity|]. destruct (Hrss r eq_refl) as (Hs & Hne).
    split; [intros _; exact Hne|]. discriminate.
  - destruct (newsApiTier w request) as [r|] eqn:En.
    + exists r. split; [reflexivity|].
      assert (Hs : r_source r = newsapi).
      { unfold newsApiTier in En. destruct (isNewsApiConfigured w); [|discriminate].
        destruct (fetchNewsArticles w _ _) as [resp|]; [|discriminate].
        destruct (String.eqb (status resp) "ok"); [|discriminate].
        now injection En as <-. }
      split; [rewrite Hs; discriminate|].
      intros _ Hn _. rewrite (@newsApiTier_falls w request Hn) in En. discriminate.
    + destruct (xApiTier w request) as [r|] eqn:Ex.
      * exists r. split; [reflexivity|].
        assert (Hs : r_source r = x_api).
        { unfold xApiTier in Ex. destruct (isXApiConfigured w); [|discriminate].
          destruct (searchRecentTweets w _ _) as [tw|]; [|discriminate].
          now injection Ex as <-. }
        split; [rewrite Hs; discriminate|].
        intros _ _ Hx. rewrite (@xApiTier_falls w request Hx) in Ex. discriminate.
      * exists rm. split; [exact Hm|]. split; [rewrite Hsrc; discriminate|].
        intros _ _ _. exact Hmock.
Qed.

Lemma GET_answers_witness :
  exists r,
    GET Samples.nothing_works (Samples.request None) = Some r
    /\ r_source r = mock
    /\ List.length (r_tweets r) = 20%nat.
Proof.
  destruct (@GET_answers Samples.nothing_works (Samples.request None))
    as (r & Hget & _ & H).
  - intros n. split; [apply Qle_refl | reflexivity].
  - apply Permutation_refl.
  - destruct H as (Hs & Hl & _).
    + reflexivity.
    + left. reflexivity.
    + left. reflexivity.
    + exists r. split; [exact Hget|]. split; [exact Hs | exact Hl].
Defined.

End RouteFacts.

(* ================================================================== *)
(** * Further properties of the code *)
(* ================================================================== *)

(** ** The tweet store *)

Section TweetStoreFacts.
Import Schema Store.

Lemma firstn_app_firstn {A} (n : nat) (a b : list A) :
  firstn n (a ++ firstn n b) = firstn n (a ++ b).
Proof.
  rewrite !firstn_app, firstn_firstn. f_equal. f_equal. lia.
Qed.

Lemma addTweet_tweets (t : Tweet) (state : TweetState) :
  tweets (addTweet t state) = firstn 500 (t :: tweets state).
Proof. reflexivity. Qed.

Lemma applyTweetAction_bounded (state : TweetState) (a : Props.TweetAction) :
  (List.length (tweets state) <= 500)%nat ->
  (List.length (tweets (Props.applyTweetAction state a)) <= 500)%nat.
Proof.
  intros H.
  destruct a as [t | l | i |];
    unfold Props.applyTweetAction, addTweet, addTweets, removeTweet,
      clearTweets, set_tweets, JS.slice0; cbn [tweets].
  - rewrite length_firstn. lia.
  - rewrite length_firstn. lia.
  - etransitivity; [apply filter_length_le | exact H].
  - simpl. lia.
Qed.

(** X1.  The tweet store never holds more than 500 tweets, whatever
    tweets are added, in batches or one by one, and removed. *)
Theorem tweet_store_bounded (actions : list Props.TweetAction) :
  (List.length (tweets (fold_left Props.applyTweetAction actions initialTweets))
   <= 500)%nat.
Proof.
  assert (H : forall state,
             (List.length (tweets state) <= 500)%nat ->
             (List.length (tweets (fold_left Props.applyTweetAction actions state))
              <= 500)%nat).
  { induction actions as [|a actions IH]; intros state Hs; simpl; [exact Hs|].
    apply IH. now apply applyTweetAction_bounded. }
  apply H. cbn [initialTweets tweets List.length]. lia.
Qed.

(** X2.  Tweets added one by one end up newest first: a store within
    its bound then holds the tweets added, the latest at the head,
    followed by what it held before, cut at 500.  So the windows that
    the alert conditions take from the head of the list are the most
    recent tweets. *)
Theorem tweet_store_newest_first (added : list Tweet) (state : TweetState) :
  (List.length (tweets state) <= 500)%nat ->
  tweets (fold_left (fun st t => addTweet t st) added state)
  = firstn 500 (rev added ++ tweets state).
Proof.
  revert state. induction added as [|t added IH]; intros state Hs.
  - cbn [fold_left rev app]. symmetry. now apply firstn_all2.
  - cbn [fold_left rev]. rewrite IH.
    + rewrite addTweet_tweets, firstn_app_firstn, <- app_assoc. reflexivity.
    + rewrite addTweet_tweets, length_firstn. lia.
Qed.

Lemma tweet_store_newest_first_witness :
  tweets (fold_left (fun st t => addTweet t st)
                    [Samples.article "a" 1; Samples.article "b" 2] initialTweets)
  = [Samples.article "b" 2; Samples.article "a" 1].
Proof.
  rewrite (@tweet_store_newest_first
             [Samples.article "a" 1; Samples.article "b" 2] initialTweets).
  - reflexivity.
  - cbn [initialTweets tweets List.length]. lia.
Defined.

End TweetStoreFacts.

(** ** The velocity store *)

Section VelocityStoreFacts.
Import Schema Store.

Lemma slice_last_length {A} (n : nat) (l : list A) :
  List.length (slice_last n l) = Nat.min (List.length l) n.
Proof. unfold slice_last. rewrite length_skipn. lia. Qed.

Lemma slice_last_app {A} (n : nat) (a b : list A) :
  slice_last n (slice_last n a ++ b) = slice_last n (a ++ b).
Proof.
  unfold slice_last.
  rewrite !skipn_app, !skipn_skipn, !length_app, !length_skipn.
  f_equal; f_equal; lia.
Qed.

Lemma addSnapshot_snapshots (s : VelocitySnapshot) (state : VelocityState) :
  snapshots (addSnapshot s state) = slice_last 60 (snapshots state ++ [s]).
Proof. reflexivity. Qed.

(** X3.  The history is a ring buffer of capacity 60: after any number
    of snapshots has been recorded, the store holds the last 60 of
    what it held and was given, oldest first, and never more than 60. *)
Theorem snapshot_history_ring (recorded : list VelocitySnapshot)
        (state : VelocityState) :
  (List.length (snapshots state) <= 60)%nat ->
  let after := Props.recordAll recorded state in
  snapshots after = slice_last 60 (snapshots state ++ recorded)
  /\ List.length (snapshots after)
     = Nat.min (List.length (snapshots state) + List.length recorded) 60.
Proof.
  intros Hs after.
  assert (H : snapshots after = slice_last 60 (snapshots state ++ recorded)).
  { subst after. revert state Hs.
    induction recorded as [|s recorded IH]; intros state Hs.
    - cbn [Props.recordAll fold_left]. rewrite app_nil_r.
      unfold slice_last. replace (List.length (snapshots state) - 60)%nat with 0%nat by lia.
      reflexivity.
    - unfold Props.recordAll in *. cbn [fold_left]. rewrite IH.
      + rewrite addSnapshot_snapshots, slice_last_app, <- app_assoc. reflexivity.
      + rewrite addSnapshot_snapshots, slice_last_length. lia. }
  split; [exact H|]. rewrite H, slice_last_length, length_app. reflexivity.
Qed.

Lemma snapshot_history_ring_witness :
  map count (snapshots (Props.recordAll (Samples.history [5; 5; 50]) initialVelocity))
  = [5; 5; 50].
Proof.
  destruct (@snapshot_history_ring (Samples.history [5; 5; 50]) initialVelocity)
    as (H & _).
  - cbn [initialVelocity snapshots List.length]. lia.
  - rewrite H. reflexivity.
Defined.

(** *** The derived fields *)

Lemma max_step (y : Q) (xs : list Q) :
  exists p,
    fold_left (fun m x => match m with
                          | Some y => Some (if Qle_bool y x then x else y)
                          | None => Some x
                          end) xs (Some y) = Some p
    /\ y <= p /\ Forall (fun x => x <= p) xs /\ (p = y \/ In p xs).
Proof.
  revert y. induction xs as [|x xs IH]; intros y; simpl.
  - exists y. repeat split; [apply Qle_refl | constructor | now left].
  - destruct (Qle_bool y x) eqn:E.
    + apply Qle_bool_iff in E.
      destruct (IH x) as (p & Hp & Hx & Hall & Hin).
      exists p. repeat split; [exact Hp | eapply Qle_trans; eassumption | | ].
      * constructor; assumption.
      * destruct Hin as [-> | Hin]; right; [now left | now right].
    + assert (Hlt : x <= y).
      { apply Qlt_le_weak, Qnot_le_lt. intros H. apply Qle_bool_iff in H. congruence. }
      destruct (IH y) as (p & Hp & Hy & Hall & Hin).
      exists p. repeat split; [exact Hp | exact Hy | | ].
      * constructor; [eapply Qle_trans; eassumption | exact Hall].
      * destruct Hin as [-> | Hin]; [now left | right; now right].
Qed.

Lemma Math_max_spec (x : Q) (xs : list Q) :
  exists p, Math_max (x :: xs) = Some p
            /\ Forall (fun c => c <= p) (x :: xs) /\ In p (x :: xs).
Proof.
  unfold Math_max. simpl. destruct (max_step x xs) as (p & Hp & Hx & Hall & Hin).
  exists p. split; [exact Hp|]. split; [constructor; assumption|].
  destruct Hin as [-> | Hin]; [now left | now right].
Qed.

Lemma sum_bound (p : Q) (xs : list Q) (a : Q) :
  Forall (fun c => c <= p) xs ->
  fold_left Qplus xs a <= a + JS.len xs * p.
Proof.
  unfold JS.len. revert a. induction xs as [|x xs IH]; intros a Hall.
  - simpl. rewrite Qmult_0_l, Qplus_0_r. apply Qle_refl.
  - inversion Hall as [|? ? Hx Hall']; subst. cbn [fold_left].
    eapply Qle_trans; [apply IH; exact Hall'|].
    replace (Z.of_nat (List.length (x :: xs))) with (Z.of_nat (List.length xs) + 1)%Z
      by (cbn [List.length]; lia).
    rewrite inject_Z_plus.
    setoid_replace (a + (inject_Z (Z.of_nat (List.length xs)) + inject_Z 1) * p)
      with (a + p + inject_Z (Z.of_nat (List.length xs)) * p) by ring.
    apply Qplus_le_compat; [|apply Qle_refl].
    apply Qplus_le_compat; [apply Qle_refl | exact Hx].
Qed.

Lemma mean_le_max (p : Q) (x : Q) (xs : list Q) :
  Forall (fun c => c <= p) (x :: xs) ->
  JS.sum (x :: xs) / JS.len (x :: xs) <= p.
Proof.
  intros Hall. apply Qle_shift_div_r.
  - unfold JS.len. replace 0 with (inject_Z 0) by reflexivity.
    rewrite <- Zlt_Qlt. cbn [List.length]. lia.
  - unfold JS.sum. eapply Qle_trans; [apply sum_bound; exact Hall|].
    rewrite Qplus_0_l, Qmult_comm. apply Qle_refl.
Qed.

Lemma slice_last_snoc {A} (n : nat) (l : list A) (x : A) :
  (1 <= n)%nat ->
  slice_last n (l ++ [x]) = skipn (List.length l + 1 - n) l ++ [x].
Proof.
  intros Hn. unfold slice_last. rewrite skipn_app, length_app. simpl List.length.
  replace (List.length l + 1 - n - List.length l)%nat with 0%nat by lia.
  reflexivity.
Qed.

Lemma nonempty_snoc {A} (w : list A) (x : A) :
  (0 <? List.length (w ++ [x]))%nat = true.
Proof. apply Nat.ltb_lt. rewrite length_app. simpl. lia. Qed.

(** X4.  After a snapshot is recorded, the derived fields agree with
    the retained window: they are what [setSnapshots] computes for it,
    the current velocity is the count just recorded, and the peak is a
    count of the window that neither the current nor the average
    velocity nor any retained count exceeds. *)
Theorem velocity_fields_consistent (s : VelocitySnapshot) (state : VelocityState) :
  let after := addSnapshot s state in
  after = setSnapshots (snapshots after)
  /\ currentVelocity after = count s
  /\ exists p, peakVelocity after = Some p
               /\ In p (map count (snapshots after))
               /\ Forall (fun x => count x <= p) (snapshots after)
               /\ currentVelocity after <= p
               /\ averageVelocity after <= p.
Proof.
  intros after.
  set (w := skipn (List.length (snapshots state) + 1 - 60) (snapshots state)).
  assert (Hw : snapshots after = w ++ [s]).
  { unfold after. rewrite addSnapshot_snapshots. apply slice_last_snoc. lia. }
  split; [|split; [reflexivity|]].
  - unfold setSnapshots. rewrite Hw, length_map, nonempty_snoc.
    rewrite map_app. cbn [map]. rewrite last_last, <- map_app with (l' := [s]).
    unfold after, addSnapshot. fold (slice_last 60 (snapshots state ++ [s])).
    change (slice_last 60 (snapshots state ++ [s])) with (snapshots after).
    rewrite Hw. reflexivity.
  - destruct (map count (snapshots after)) as [|c cs] eqn:Ec.
    { rewrite Hw, map_app in Ec. destruct (map count w); discriminate. }
    destruct (Math_max_spec c cs) as (p & Hp & Hall & Hin).
    exists p.
    assert (Hpeak : peakVelocity after = Some p).
    { unfold after, addSnapshot. cbn [peakVelocity].
      change (slice_last 60 (snapshots state ++ [s])) with (snapshots after).
      now rewrite Ec. }
    assert (Hall' : Forall (fun x => count x <= p) (snapshots after)).
    { apply Forall_forall. intros x Hx. rewrite Forall_forall in Hall.
      apply Hall. rewrite <- Ec. now apply in_map. }
    split; [exact Hpeak|]. split; [exact Hin|]. split; [exact Hall'|]. split.
    + rewrite Forall_forall in Hall'. apply (Hall' s).
      rewrite Hw. apply in_or_app. right. now left.
    + unfold after, addSnapshot. cbn [averageVelocity].
      change (slice_last 60 (snapshots state ++ [s])) with (snapshots after).
      rewrite Ec. now apply mean_le_max.
Qed.

End VelocityStoreFacts.

(** ** The alert store *)

Section AlertStoreFacts.
Import Schema Conditions Store.

Lemma toggled_toggled (a : Alert) : toggled (toggled a) = a.
Proof. destruct a. unfold toggled. simpl. now rewrite negb_involutive. Qed.

(** X5.  Toggling an alert twice restores the store, and toggling an
    enabled alert once takes it out of the reach of the engine: every
    alert with the toggled id that was enabled is evaluated to [false]
    in every context, whatever its conditions. *)
Theorem toggleAlert_involutive (a_id : string) (state : AlertState) :
  toggleAlert a_id (toggleAlert a_id state) = state
  /\ List.length (alerts (toggleAlert a_id state)) = List.length (alerts state)
  /\ (forall i a, nth_error (alerts state) i = Some a ->
        exists a', nth_error (alerts (toggleAlert a_id state)) i = Some a'
                   /\ alert_id a' = alert_id a
                   /\ conditions a' = conditions a
                   /\ actions a' = actions a
                   /\ (alert_id a <> a_id -> a' = a)
                   /\ (alert_id a = a_id -> enabled a = true ->
                       forall ctx, evaluateAlert a' ctx = false)).
Proof.
  split; [|split].
  - destruct state as [l ns]. unfold toggleAlert. simpl. f_equal.
    rewrite map_map. rewrite <- (map_id l) at 2. apply map_ext.
    intros a. destruct (String.eqb (alert_id a) a_id) eqn:E.
    + simpl. rewrite E. apply toggled_toggled.
    + now rewrite E.
  - unfold toggleAlert. simpl. apply length_map.
  - intros i a Hn. unfold toggleAlert. simpl.
    rewrite nth_error_map, Hn. simpl.
    destruct (String.eqb_spec (alert_id a) a_id) as [E | E].
    + exists (toggled a). repeat split; try reflexivity; [congruence|].
      intros _ Hen ctx. unfold evaluateAlert. simpl. now rewrite Hen.
    + exists a. repeat split; try reflexivity. intros E'. contradiction.
Qed.

(** X6.  Removing an alert undoes adding it, provided its id is not
    already in use: [removeAlert] drops every alert that carries the
    id, so with a fresh id the store is again what it was. *)
Theorem removeAlert_addAlert (a : Alert) (state : AlertState) :
  Forall (fun b => alert_id b <> alert_id a) (alerts state) ->
  removeAlert (alert_id a) (addAlert a state) = state.
Proof.
  intros Hfresh. destruct state as [l ns]. unfold removeAlert, addAlert. simpl in *.
  f_equal. rewrite filter_app. simpl. rewrite String.eqb_refl. simpl.
  rewrite app_nil_r. induction Hfresh as [|b l Hb Hl IH]; [reflexivity|].
  simpl. destruct (String.eqb_spec (alert_id b) (alert_id a)); [contradiction|].
  simpl. now rewrite IH.
Qed.

Lemma removeAlert_addAlert_witness :
  removeAlert "alert_1" (addAlert (Samples.alert true [] []) initialAlerts)
  = initialAlerts.
Proof.
  apply (@removeAlert_addAlert (Samples.alert true [] []) initialAlerts).
  constructor.
Defined.

(** With an id that is in use, removing the added alert also removes the
    older alert of that id. *)
Example removeAlert_shared_id :
  let a := Samples.alert true [] [] in
  let b := Samples.alert false [] [Samples.in_app] in
  alerts (removeAlert (alert_id b) (addAlert b (addAlert a initialAlerts))) = [].
Proof. reflexivity. Qed.

End AlertStoreFacts.

(** ** The X API adapter *)

Section XApiFacts.
Import Schema XApi.

Variable parseDate : string -> Z.

Lemma or_string_truthy (s : option string) (d : string) :
  JS.truthy_string d = true -> JS.truthy_string (JS.or_string s d) = true.
Proof.
  intros Hd. unfold JS.or_string. destruct s as [x|]; [|exact Hd].
  destruct (JS.truthy_string x) eqn:E; [exact E | exact Hd].
Qed.

(** X7.  A transformed tweet always carries the author id of the X
    tweet, whether or not the user is among the included users, and its
    username and display name are never empty.  When no included user
    has that id, the author is the placeholder: [unknown], [Unknown],
    no avatar, not verified, no followers. *)
Theorem transformXApiTweet_author (tweet : XApiTweet) (users : list XApiUser) :
  let t := transformXApiTweet parseDate tweet users in
  author_id (author t) = x_author_id tweet
  /\ JS.truthy_string (username (author t)) = true
  /\ JS.truthy_string (displayName (author t)) = true
  /\ (Forall (fun u => u_id u <> x_author_id tweet) users ->
      username (author t) = "unknown"%string
      /\ displayName (author t) = "Unknown"%string
      /\ avatarUrl (author t) = ""%string
      /\ verified (author t) = false
      /\ followerCount (author t) = 0)
  /\ (forall u rest,
        users = u :: rest -> u_id u = x_author_id tweet ->
        JS.truthy_string (u_username u) = true ->
        username (author t) = u_username u
        /\ verified (author t) = u_verified u).
Proof.
  intros t. subst t. unfold transformXApiTweet. cbn [author author_id username
    displayName avatarUrl verified followerCount].
  split; [|split; [|split; [|split]]].
  - destruct (find _ users) as [u|] eqn:E; simpl; [|reflexivity].
    apply find_some in E. destruct E as (_ & E). apply String.eqb_eq in E.
    rewrite E. now destruct (JS.truthy_string (x_author_id tweet)).
  - now apply or_string_truthy.
  - now apply or_string_truthy.
  - intros Hnone.
    assert (E : find (fun u => String.eqb (u_id u) (x_author_id tweet)) users = None).
    { induction Hnone as [|u l Hu Hl IH]; [reflexivity|]. simpl.
      destruct (String.eqb_spec (u_id u) (x_author_id tweet)); [contradiction | exact IH]. }
    rewrite E. simpl. repeat split; reflexivity.
  - intros u rest -> Hid Hname. simpl. rewrite Hid, String.eqb_refl. simpl.
    rewrite Hname. split; [reflexivity | apply orb_false_r].
Qed.

End XApiFacts.

Lemma transformXApiTweet_author_witness :
  let t := XApi.transformXApiTweet (fun _ => 0%Z) (Props.post "t1" "u9")
             [Props.user "u1" "desk"] in
  Schema.author_id (Schema.author t) = "u9"%string
  /\ Schema.username (Schema.author t) = "unknown"%string.
Proof.
  destruct (@transformXApiTweet_author (fun _ => 0%Z) (Props.post "t1" "u9")
              [Props.user "u1" "desk"]) as (H1 & _ & _ & H4 & _).
  split; [exact H1|]. apply H4. repeat constructor. discriminate.
Defined.

(** ** Enrichment *)

Section AnalyzerFacts.
Import Schema Analyzer.

Variable m : Model.
Variable clock : nat -> Z.

(** X8.  Enrichment only adds: it never touches the id, the text, the
    author, the metrics, the creation time or the source of a tweet, and
    a sentiment, category, spam score or filter flag that the tweet has
    is replaced by a new one or kept, never erased.  Each field follows
    its own analysis, so one analysis that fails leaves the others in
    effect; when the model is not configured, the tweet comes back
    unchanged. *)
Theorem enrichTweet_only_adds (i : nat) (tweet : Tweet) :
  let t := enrichTweet m clock i tweet in
  (id t = id tweet /\ text t = text tweet /\ author t = author tweet
   /\ metrics t = metrics tweet /\ createdAt t = createdAt tweet
   /\ source t = source tweet)
  /\ (sentiment tweet <> None -> sentiment t <> None)
  /\ (category tweet <> None -> category t <> None)
  /\ (spamScore tweet <> None -> spamScore t <> None)
  /\ (isFiltered tweet <> None -> isFiltered t <> None)
  /\ (forall sp, isAIConfigured m = true -> spamOf m i tweet = Some sp ->
                 spamScore t = Some (sp_spamScore sp)
                 /\ isFiltered t = Some (isSpam sp))
  /\ (forall c, isAIConfigured m = true -> categoryOf m i tweet = Some c ->
                category t = Some (c_category c))
  /\ (isAIConfigured m = false -> t = tweet).
Proof.
  intros t. subst t. unfold enrichTweet, analyzeTweet, analyzeSentiment,
    categorizeTweet, detectSpam.
  cbn [id text author metrics createdAt source sentiment category spamScore
       isFiltered a_sentiment a_category a_spam].
  split; [repeat split|].
  split. { destruct (isAIConfigured m); [destruct (sentimentOf m i _)|]; congruence. }
  split. { destruct (isAIConfigured m); [destruct (categoryOf m i _)|]; congruence. }
  split. { destruct (isAIConfigured m); [destruct (spamOf m i _)|]; congruence. }
  split. { destruct (isAIConfigured m); [destruct (spamOf m i _)|]; congruence. }
  split. { intros sp -> ->. split; reflexivity. }
  split. { intros c -> ->. reflexivity. }
  intros ->. now destruct tweet.
Qed.

Lemma batchFrom_nth (i total : nat) (tweets : list Tweet) (k : nat) :
  nth_error (fst (batchFrom m clock i total tweets)) k
  = option_map (enrichTweet m clock (i + k)) (nth_error tweets k).
Proof.
  revert i k. induction tweets as [|t tweets IH]; intros i k.
  - now destruct k.
  - cbn [batchFrom fst]. destruct k as [|k]; simpl.
    + now rewrite Nat.add_0_r.
    + rewrite IH. now replace (S i + k)%nat with (i + S k)%nat by lia.
Qed.

Lemma batchFrom_length (i total : nat) (tweets : list Tweet) :
  List.length (fst (batchFrom m clock i total tweets)) = List.length tweets.
Proof.
  revert i. induction tweets as [|t tweets IH]; intros i; [reflexivity|].
  cbn [batchFrom fst List.length]. now rewrite IH.
Qed.

Lemma batchFrom_progress (i total : nat) (tweets : list Tweet) :
  snd (batchFrom m clock i total tweets)
  = map (fun k => (S k, total)) (seq i (List.length tweets)).
Proof.
  revert i. induction tweets as [|t tweets IH]; intros i; [reflexivity|].
  cbn [batchFrom snd List.length seq map]. now rewrite IH.
Qed.

(** X9.  A batch is analysed tweet by tweet, in order: the result has
    as many tweets as the batch, the tweet at each position is the
    enrichment of the tweet given at that position, and progress is
    reported once per tweet, as [(1, n)], ..., [(n, n)].  Without a
    configured model the batch comes back as it was given. *)
Theorem analyzeTweetBatch_in_order (tweets : list Tweet) :
  let out := analyzeTweetBatch m clock tweets in
  let n := List.length tweets in
  List.length (fst out) = n
  /\ (forall i t, nth_error tweets i = Some t ->
                  nth_error (fst out) i = Some (enrichTweet m clock i t))
  /\ snd out = map (fun k => (S k, n)) (seq 0 n)
  /\ (isAIConfigured m = false -> fst out = tweets).
Proof.
  intros out n. subst out n. unfold analyzeTweetBatch.
  split; [apply batchFrom_length|].
  split. { intros i t Hn. now rewrite batchFrom_nth, Hn. }
  split; [apply batchFrom_progress|].
  intros Hoff. apply nth_error_ext. intros i. rewrite batchFrom_nth.
  destruct (nth_error tweets i) as [t|]; [|reflexivity]. simpl. f_equal.
  unfold enrichTweet, analyzeTweet, analyzeSentiment, categorizeTweet, detectSpam.
  rewrite Hoff. now destruct t.
Qed.

End AnalyzerFacts.

(** ** More on the spike detector *)

Section SpikeThresholds.
Import Schema Spike.

(** X11.  Lowering the threshold never loses a spike: a history that is
    a spike at a threshold is a spike at every lower threshold, whatever
    its length and its average. *)
Theorem detectSpike_threshold_antitone
        (snapshots : list VelocitySnapshot) (t t' : Q) :
  t' <= t ->
  isSpike (detectSpike snapshots (Some t)) = true ->
  isSpike (detectSpike snapshots (Some t')) = true.
Proof.
  intros Hle. unfold detectSpike. cbn [JS.default_param].
  destruct (List.length snapshots <? 2)%nat; [trivial|].
  destruct (JS.is_zero (mean (previousCounts snapshots))); cbn [isSpike]; [trivial|].
  rewrite !geb_true_iff. intros H. eapply Qle_trans; eassumption.
Qed.

Lemma detectSpike_threshold_antitone_witness :
  isSpike (detectSpike (Samples.history [10; 10; 10; 40]) (Some 200)) = true.
Proof.
  apply (@detectSpike_threshold_antitone (Samples.history [10; 10; 10; 40]) 300 200).
  - discriminate.
  - reflexivity.
Defined.

(** X12.  At the default threshold a severity above [low] always comes
    with a spike.  The converse holds when the average of the previous
    counts is not 0; on a zero average a current count above 10 and up
    to 20 is a spike of severity [low]. *)
Theorem severity_implies_spike (snapshots : list VelocitySnapshot) :
  let r := detectSpike snapshots None in
  (severity r <> low -> isSpike r = true)
  /\ (forall prev cur,
        snapshots = prev ++ [cur] -> prev <> [] ->
        (~ mean (map count prev) == 0 -> isSpike r = true -> severity r <> low)
        /\ (mean (map count prev) == 0 -> 10 < count cur -> count cur <= 20 ->
            isSpike r = true /\ severity r = low)).
Proof.
  intros r. split.
  - subst r. unfold detectSpike. cbn [JS.default_param].
    destruct (List.length snapshots <? 2)%nat; cbn [severity isSpike];
      [congruence|].
    destruct (JS.is_zero (mean (previousCounts snapshots))); cbn [severity isSpike].
    + destruct (JS.gtb (recentCount snapshots) 50) eqn:E50.
      { intros _. apply gtb_true_iff in E50. apply gtb_true_iff. lra. }
      destruct (JS.gtb (recentCount snapshots) 20) eqn:E20; [|congruence].
      intros _. apply gtb_true_iff in E20. apply gtb_true_iff. lra.
    + set (pct := (recentCount snapshots - mean (previousCounts snapshots))
                  / mean (previousCounts snapshots) * 100).
      destruct (JS.geb pct 500) eqn:E5.
      { intros _. apply geb_true_iff in E5. apply geb_true_iff. lra. }
      destruct (JS.geb pct 400) eqn:E4.
      { intros _. apply geb_true_iff in E4. apply geb_true_iff. lra. }
      destruct (JS.geb pct 300) eqn:E3; [|congruence].
      intros _. reflexivity.
  - intros prev cur -> Hne. split.
    + intros Hnz. subst r. rewrite (detectSpike_ratio_branch cur None Hne Hnz).
      cbn [isSpike severity JS.default_param]. intros Hs.
      destruct (JS.geb _ 500); [discriminate|].
      destruct (JS.geb _ 400); [discriminate|].
      rewrite Hs. discriminate.
    + intros Hz H10 H20. subst r. rewrite (detectSpike_zero_branch cur None Hne Hz).
      cbn [isSpike severity]. split; [now apply gtb_true_iff|].
      assert (E50 : JS.gtb (count cur) 50 = false) by (apply gtb_false_iff; lra).
      assert (E20 : JS.gtb (count cur) 20 = false) by (now apply gtb_false_iff).
      now rewrite E50, E20.
Qed.

End SpikeThresholds.

(** ** Keywords and windows *)

Section KeywordFacts.
Import Schema Conditions.

Lemma prefix_app (k s : string) :
  String.prefix k s = true <-> exists post, s = (k ++ post)%string.
Proof.
  revert s. induction k as [|c k IH]; intros s.
  - destruct s; simpl; split; eauto.
  - destruct s as [|d s]; simpl.
    + split; [discriminate | intros [post H]; discriminate].
    + destruct (Ascii.ascii_dec c d) as [<- | Hne].
      * rewrite IH. split; intros [post H]; exists post; congruence.
      * split; [discriminate | intros [post H]; congruence].
Qed.

(** [includes] decides whether the keyword occurs in the string. *)
Lemma includes_occurs (s k : string) :
  JS.includes s k = true <-> Props.occurs k s.
Proof.
  unfold Props.occurs. induction s as [|c s IH].
  - cbn [JS.includes]. rewrite orb_false_r, prefix_app. split.
    + intros [post H]. exists EmptyString, post. exact H.
    + intros ([|d pre] & post & H); [now exists post | discriminate].
  - cbn [JS.includes]. rewrite orb_true_iff, prefix_app, IH. split.
    + intros [[post H] | (pre & post & H)].
      * exists EmptyString, post. exact H.
      * exists (String c pre), post. simpl. now rewrite H.
    + intros ([|d pre] & post & H).
      * left. now exists post.
      * right. exists pre, post. simpl in H. congruence.
Qed.

Lemma toLowerCase_app (a b : string) :
  JS.toLowerCase (a ++ b) = (JS.toLowerCase a ++ JS.toLowerCase b)%string.
Proof. induction a as [|c a IH]; simpl; [reflexivity | now rewrite IH]. Qed.



Lemma firstn_app_long {A} (n : nat) (l older : list A) :
  (n <= List.length l)%nat -> firstn n (l ++ older) = firstn n l.
Proof.
  intros H. rewrite firstn_app. replace (n - List.length l)%nat with 0%nat by lia.
  simpl. apply app_nil_r.
Qed.

(** X14.  The conditions look at the 50 most recent tweets only: once
    the context holds 50 tweets, older tweets behind them change the
    evaluation of no condition and of no alert. *)
Theorem evaluation_window (a : Alert) (ctx : AlertContext)
        (recent older : list Tweet) :
  (50 <= List.length recent)%nat ->
  (forall c, evaluateCondition c (Props.with_tweets ctx (recent ++ older))
             = evaluateCondition c (Props.with_tweets ctx recent))
  /\ evaluateAlert a (Props.with_tweets ctx (recent ++ older))
     = evaluateAlert a (Props.with_tweets ctx recent).
Proof.
  intros Hlen.
  assert (Hc : forall c, evaluateCondition c (Props.with_tweets ctx (recent ++ older))
                         = evaluateCondition c (Props.with_tweets ctx recent)).
  { intros c. unfold evaluateCondition, Props.with_tweets.
    cbn [tweets snapshots]. unfold JS.slice0.
    rewrite !firstn_app_long by lia.
    destruct (ctype c); try reflexivity.
    assert (E1 : (List.length (recent ++ older) <? 10)%nat = false)
      by (apply Nat.ltb_ge; rewrite length_app; lia).
    assert (E2 : (List.length recent <? 10)%nat = false)
      by (apply Nat.ltb_ge; lia).
    now rewrite E1, E2. }
  split; [exact Hc|].
  unfold evaluateAlert. destruct (negb (enabled a)); [reflexivity|].
  unfold JS.every. induction (conditions a) as [|c cs IH]; [reflexivity|].
  simpl. now rewrite Hc, IH.
Qed.

Lemma evaluation_window_witness :
  let recent := repeat (Samples.tweet 0 None None) 50 in
  let older := [Samples.tweet 0 (Some 1) (Some breaking_news)] in
  let c := Samples.condition category_match (Some 1) (Some [breaking_news]) in
  evaluateCondition c (Samples.tweets_only (recent ++ older)) = false.
Proof.
  intros recent older c.
  destruct (@evaluation_window (Samples.alert true [] []) (Samples.tweets_only [])
              recent older) as (H & _).
  - unfold recent. rewrite repeat_length. lia.
  - change (Samples.tweets_only (recent ++ older))
      with (Props.with_tweets (Samples.tweets_only []) (recent ++ older)).
    rewrite H. reflexivity.
Defined.

End KeywordFacts.

(** ** More on the dispatcher *)

Section DispatchBounds.
Import Schema Conditions Effects Engine.

Variable net : nat -> string -> FetchResult.
Variable clock : nat -> Z.

Lemma runActions_any (actions : list AlertAction) (data : AlertTriggerData)
      (s : State) :
  JS.some (fun r => r) (fst (runActions net actions data s)) = true
  <-> exists i action,
        nth_error actions i = Some action
        /\ fst (executeAction net action data
                  (snd (runActions net (firstn i actions) data s))) = true.
Proof.
  unfold JS.some. rewrite existsb_id_nth. unfold runActions. split.
  - intros [i Hi]. rewrite mapM_nth in Hi.
    destruct (nth_error actions i) as [action|] eqn:E; [|discriminate].
    exists i, action. split; [exact E|]. now injection Hi.
  - intros (i & action & Hn & Hr). exists i. rewrite mapM_nth, Hn. simpl.
    now rewrite Hr.
Qed.

Lemma local_action_succeeds (action : AlertAction) (data : AlertTriggerData)
      (s : State) :
  atype action <> discord_webhook ->
  fst (executeAction net action data s) = true.
Proof.
  unfold executeAction. destruct (atype action); [congruence | reflexivity..].
Qed.

Lemma webhook_needs_ok (action : AlertAction) (data : AlertTriggerData)
      (s : State) :
  atype action = discord_webhook ->
  fst (executeAction net action data s) = true ->
  exists url, webhookUrl action = Some url
              /\ net (fetches s) url = Response true.
Proof.
  unfold executeAction. intros ->. destruct (webhookUrl action) as [url|];
    [|discriminate].
  destruct (JS.truthy_string url); [|discriminate].
  unfold sendDiscordWebhook, bind, fetch_post, ret.
  destruct (net (fetches s) url) as [|[|]] eqn:E; try discriminate.
  intros _. now exists url.
Qed.

(** X15.  An alert that has an in-app or an email action counts as
    triggered whenever it is dispatched, whatever the network does to
    its webhooks. *)
Theorem local_action_guarantees_trigger (a : Alert) (ctx : AlertContext)
        (s : State) (action : AlertAction) :
  In action (actions a) ->
  atype action <> discord_webhook ->
  fst (triggerAlert net clock a ctx s) = true.
Proof.
  intros Hin Hlocal. rewrite triggerAlert_run. cbn [fst].
  apply runActions_any. apply In_nth_error in Hin. destruct Hin as [i Hi].
  exists i, action. split; [exact Hi|]. now apply local_action_succeeds.
Qed.

(** X16.  Dispatch never reports a success that did not happen: when
    every action of an alert is a webhook and no post is answered with
    a 2xx status, the result is [false], and the engine does not report
    the alert.  This holds in particular for an alert without
    actions. *)
Theorem no_delivery_no_trigger (a : Alert) (ctx : AlertContext) (s : State) :
  (forall action, In action (actions a) -> atype action = discord_webhook) ->
  (forall n url, net n url <> Response true) ->
  fst (triggerAlert net clock a ctx s) = false
  /\ forall triggered s', fst (checkAlert net clock triggered a s') = triggered.
Proof.
  intros Hall Hnet.
  assert (H : forall ctx' s', fst (triggerAlert net clock a ctx' s') = false).
  { intros ctx' s'. rewrite triggerAlert_run. cbn [fst].
    destruct (JS.some _ _) eqn:E; [|reflexivity].
    apply runActions_any in E. destruct E as (i & action & Hn & Hr).
    apply nth_error_In in Hn.
    destruct (webhook_needs_ok _ _ _ (Hall action Hn) Hr) as (url & _ & Hok).
    exfalso. exact (Hnet _ _ Hok). }
  split; [apply H|].
  intros triggered s'. rewrite checkAlert_step.
  destruct (evaluateAlert a (context s')); [|reflexivity].
  cbn [fst]. now rewrite H.
Qed.

End DispatchBounds.

Lemma local_action_guarantees_trigger_witness :
  fst (Engine.triggerAlert Samples.offline Samples.noon
         (Samples.alert true [] [Samples.webhook "https://discord.example/hook";
                                 Samples.in_app])
         (Samples.tweets_only []) Engine.initial) = true.
Proof.
  apply (@local_action_guarantees_trigger Samples.offline Samples.noon _ _ _
           Samples.in_app).
  - right. now left.
  - discriminate.
Defined.

Lemma no_delivery_no_trigger_witness :
  fst (Engine.triggerAlert Samples.offline Samples.noon
         (Samples.alert true [] [Samples.webhook "https://discord.example/hook"])
         (Samples.tweets_only []) Engine.initial) = false.
Proof.
  apply (@no_delivery_no_trigger Samples.offline Samples.noon
           (Samples.alert true [] [Samples.webhook "https://discord.example/hook"])
           (Samples.tweets_only []) Engine.initial).
  - intros action [<- | []]. reflexivity.
  - intros n url. discriminate.
Defined.

(** ** More on the feeds *)

Section FeedFacts.
Import Schema Rss.

Variable parse : FeedSource -> Settled (list Tweet).

Lemma collect_errors (limit : JS.JNum) (sources : list FeedSource)
      (acc : list Tweet * list string) :
  snd (fold_left collect
         (combine sources (map (fun src => fetchRssFeed parse src limit) sources))
         acc)
  = snd acc ++ flat_map (Props.diagnostic parse limit) sources.
Proof.
  revert acc. induction sources as [|src sources IH]; intros acc; simpl.
  - now rewrite app_nil_r.
  - rewrite IH. unfold collect, Props.diagnostic. simpl.
    destruct (fetchRssFeed parse src limit); simpl.
    + reflexivity.
    + now rewrite <- app_assoc.
Qed.

(** X17.  A feed that fails costs nothing but its own items: once the
    feeds have settled, the errors are one diagnostic per rejected feed,
    in the order of the feeds and each starting with the name of its
    feed, and the tweets are those of the feeds that succeeded.  If no
    feed is rejected there is no error, and if every feed is rejected
    there is no tweet. *)
Theorem feed_errors_accounted (sourceIds : list string) (limit : JS.JNum)
        (completion : list nat) :
  Permutation completion (seq 0 (List.length (selected sourceIds))) ->
  exists tweets errors,
    fetchAllRssFeeds parse sourceIds limit completion = Some (tweets, errors)
    /\ errors = flat_map (Props.diagnostic parse limit) (selected sourceIds)
    /\ List.length errors
       = List.length (filter (fun src => match fetchRssFeed parse src limit with
                                         | Rejected _ => true
                                         | Fulfilled _ => false
                                         end) (selected sourceIds))
    /\ ((forall src, In src (selected sourceIds) ->
                     exists m, fetchRssFeed parse src limit = Rejected m) ->
        tweets = [])
    /\ ((forall src, In src (selected sourceIds) ->
                     exists v, fetchRssFeed parse src limit = Fulfilled v) ->
        errors = []).
Proof.
  intros Hp. rewrite (fetchAllRssFeeds_settled parse sourceIds limit Hp).
  eexists. eexists. split; [reflexivity|].
  rewrite collect_errors. cbn [snd app].
  split; [reflexivity|].
  unfold Reference.merged.
  clear Hp. split; [|split].
  - induction (selected sourceIds) as [|src l IH]; [reflexivity|].
    cbn [flat_map filter]. rewrite length_app, IH.
    unfold Props.diagnostic at 1.
    destruct (fetchRssFeed parse src limit); reflexivity.
  - intros Hall.
    assert (E : flat_map (fun src => match fetchRssFeed parse src limit with
                                     | Fulfilled value => value
                                     | Rejected _ => []
                                     end) (selected sourceIds) = []).
    { induction (selected sourceIds) as [|src l IH]; [reflexivity|].
      cbn [flat_map]. destruct (Hall src (or_introl eq_refl)) as [m ->].
      apply IH. intros x Hx. apply Hall. now right. }
    now rewrite E.
  - intros Hall.
    induction (selected sourceIds) as [|src l IH]; [reflexivity|].
    cbn [flat_map]. unfold Props.diagnostic at 1.
    destruct (Hall src (or_introl eq_refl)) as [v ->]. cbn [app].
    apply IH. intros x Hx. apply Hall. now right.
Qed.

End FeedFacts.

Lemma feed_errors_accounted_witness :
  Rss.fetchAllRssFeeds (fun _ => Rss.Rejected (Some "timeout"%string))
    ["coindesk"; "decrypt"]%string (Some 10%Z) [1; 0]%nat
  = Some ([], ["CoinDesk: timeout"; "Decrypt: timeout"]%string).
Proof.
  destruct (@feed_errors_accounted (fun _ => Rss.Rejected (Some "timeout"%string)) ["coindesk"; "decrypt"]%string (Some 10%Z)
              [1; 0]%nat)
    as (tweets & errors & H & He & _ & Ht & _).
  - simpl. apply perm_swap.
  - rewrite H, He. f_equal. f_equal. apply Ht.
    intros src _. now exists (Some "timeout"%string).
Defined.

Section SelectionFacts.
Import Schema Rss.

Lemma includes_string_In (l : list string) (x : string) :
  JS.includes_string l x = true <-> In x l.
Proof.
  unfold JS.includes_string. rewrite existsb_exists. split.
  - intros (y & Hy & E). apply String.eqb_eq in E. now subst.
  - intros H. exists x. split; [exact H | apply String.eqb_refl].
Qed.

(** X18.  Only which of the known feeds the requested ids name
    matters: two lists of ids that name the same known feeds select the
    same feeds and give the same result, so the order of the ids,
    repeated ids and ids that name no feed change nothing.  At most the
    four known feeds are fetched, each of them once, and only feeds
    that were asked for. *)
Theorem selection_by_set (parse : FeedSource -> Settled (list Tweet))
        (ids ids' : list string) :
  (forall f, In f RSS_FEEDS -> (In (feed_id f) ids <-> In (feed_id f) ids')) ->
  selected ids = selected ids'
  /\ (forall limit completion,
        fetchAllRssFeeds parse ids limit completion
        = fetchAllRssFeeds parse ids' limit completion)
  /\ (List.length (selected ids) <= 4)%nat
  /\ NoDup (map feed_id (selected ids))
  /\ (forall f, In f (selected ids) <-> In f RSS_FEEDS /\ In (feed_id f) ids).
Proof.
  intros Hset.
  assert (E : selected ids = selected ids').
  { unfold selected. apply filter_ext_in. intros f Hf.
    destruct (JS.includes_string ids (feed_id f)) eqn:E1;
      destruct (JS.includes_string ids' (feed_id f)) eqn:E2; try reflexivity.
    - apply includes_string_In, (Hset f Hf), includes_string_In in E1. congruence.
    - apply includes_string_In, (Hset f Hf), includes_string_In in E2. congruence. }
  split; [exact E|]. split.
  { intros limit completion. unfold fetchAllRssFeeds. now rewrite E. }
  split.
  { unfold selected. etransitivity; [apply filter_length_le|]. simpl. lia. }
  split.
  { unfold selected.
    assert (Hnd : NoDup (map feed_id RSS_FEEDS)).
    { simpl. repeat constructor; simpl; intuition discriminate. }
    revert Hnd. generalize RSS_FEEDS. intros l.
    induction l as [|f l IH]; intros Hnd; [constructor|].
    inversion Hnd as [|? ? Hnotin Hnd']; subst. simpl.
    destruct (JS.includes_string ids (feed_id f)); [|now apply IH].
    simpl. constructor; [|now apply IH].
    intros Hin. apply Hnotin. apply in_map_iff in Hin.
    destruct Hin as (g & Hg & Hin). apply filter_In in Hin.
    apply in_map_iff. exists g. tauto. }
  intros f. unfold selected. rewrite filter_In, includes_string_In. reflexivity.
Qed.

Lemma selection_by_set_witness :
  selected ["decrypt"; "nowhere"; "coindesk"; "decrypt"]%string
  = selected ["coindesk"; "decrypt"]%string.
Proof.
  apply (@selection_by_set Samples.same_time
           ["decrypt"; "nowhere"; "coindesk"; "decrypt"]%string
           ["coindesk"; "decrypt"]%string).
  intros f Hf. simpl in Hf.
  destruct Hf as [<- | [<- | [<- | [<- | []]]]]; simpl;
    split; intros H; repeat (destruct H as [H | H]; try discriminate H; auto).
Defined.

End SelectionFacts.

Section FilterFacts.
Import Schema Rss.









End FilterFacts.

Section CapFacts.
Import Schema Rss.


Lemma slice_to_length {A} (l : list A) (z : Z) :
  (0 <= z)%Z -> (List.length (JS.slice_to l (Some z)) <= Z.to_nat z)%nat.
Proof.
  intros Hz. unfold JS.slice_to.
  destruct (z <? 0)%Z eqn:E; [apply Z.ltb_lt in E; lia|].
  rewrite length_firstn. lia.
Qed.

(** X20.  With a limit that is not negative, no feed contributes more
    items than the limit, so the merged list holds at most the limit
    times the number of selected feeds, at most four times the limit. *)
Theorem feeds_capped (parse : FeedSource -> Settled (list Tweet))
        (sourceIds : list string) (z : Z) (completion : list nat) :
  (0 <= z)%Z ->
  Permutation completion (seq 0 (List.length (selected sourceIds))) ->
  (forall src v, fetchRssFeed parse src (Some z) = Fulfilled v ->
                 (List.length v <= Z.to_nat z)%nat)
  /\ exists tweets errors,
       fetchAllRssFeeds parse sourceIds (Some z) completion = Some (tweets, errors)
       /\ (List.length tweets <= List.length (selected sourceIds) * Z.to_nat z)%nat
       /\ (List.length tweets <= 4 * Z.to_nat z)%nat.
Proof.
  intros Hz Hp.
  assert (Hfeed : forall src v, fetchRssFeed parse src (Some z) = Fulfilled v ->
                                (List.length v <= Z.to_nat z)%nat).
  { intros src v. unfold fetchRssFeed. destruct (parse src); [|discriminate].
    intros [= <-]. now apply slice_to_length. }
  split; [exact Hfeed|].
  rewrite (fetchAllRssFeeds_settled parse sourceIds (Some z) Hp).
  eexists. eexists. split; [reflexivity|].
  assert (Hlen : (List.length (sort_newest_first (Reference.merged parse sourceIds (Some z)))
                  <= List.length (selected sourceIds) * Z.to_nat z)%nat).
  { rewrite (Permutation_length (sort_perm _)). unfold Reference.merged.
    clear Hp. induction (selected sourceIds) as [|src l IH]; [simpl; lia|].
    cbn [flat_map List.length]. rewrite length_app.
    destruct (fetchRssFeed parse src (Some z)) as [v|] eqn:E.
    - pose proof (Hfeed src v E). nia.
    - cbn [List.length]. nia. }
  split; [exact Hlen|].
  assert (H4 : (List.length (selected sourceIds) <= 4)%nat).
  { unfold selected. etransitivity; [apply filter_length_le|]. simpl. lia. }
  nia.
Qed.

Lemma feeds_capped_witness :
  exists tweets errors,
    fetchAllRssFeeds Samples.same_time ["defillama"; "coindesk"]%string
      (Some 0%Z) [0; 1]%nat = Some (tweets, errors)
    /\ (List.length tweets <= 4 * 0)%nat.
Proof.
  destruct (@feeds_capped Samples.same_time ["defillama"; "coindesk"]%string
              0%Z [0; 1]%nat) as (_ & tweets & errors & H & _ & Hl).
  - lia.
  - apply Permutation_refl.
  - exists tweets, errors. split; [exact H | exact Hl].
Defined.

End CapFacts.

Section RssAnswerFacts.
Import Schema Rss Route.

Lemma newsApiTier_source (w : World) (request : Request) (r : Response) :
  newsApiTier w request = Returned r -> r_source r = newsapi.
Proof.
  unfold newsApiTier. destruct (isNewsApiConfigured w); [|discriminate].
  destruct (fetchNewsArticles w _ _) as [resp|]; [|discriminate].
  destruct (String.eqb (status resp) "ok"); [|discriminate].
  now intros [= <-].
Qed.

Lemma xApiTier_source (w : World) (request : Request) (r : Response) :
  xApiTier w request = Returned r -> r_source r = x_api.
Proof.
  unfold xApiTier. destruct (isXApiConfigured w); [|discriminate].
  destruct (searchRecentTweets w _ _) as [tw|]; [|discriminate].
  now intros [= <-].
Qed.

Lemma mockTier_source (w : World) (request : Request) (r : Response) :
  mockTier w request = Some r -> r_source r = mock.
Proof.
  unfold mockTier. destruct (Generator.generateMockTweets _ _ _ _ _ _) as [[tw s]|];
    [|discriminate].
  now intros [= <-].
Qed.




End RssAnswerFacts.

(** ** The ranges of the mock generator *)

Section MockRanges.
Import Schema Mock Generator.

Variable random : nat -> Q.
Variable now : nat -> Z.
Variable log10 : Q -> Q.
Variable toString36 : Q -> string.

Hypothesis random_range : Reference.unit_interval random.

Lemma ensures_weaken {A} (g : Gen A) (P R : A -> Prop) :
  Reference.ensures g P -> (forall a, P a -> R a) -> Reference.ensures g R.
Proof.
  intros H HPR s. destruct (H s) as (a & s' & E & Ha). exists a, s'. auto.
Qed.

Lemma ensures_clock :
  Reference.ensures (Date_now now) (fun t => exists n, t = now n).
Proof. intros s. eexists. eexists. split; [reflexivity | eauto]. Qed.

Lemma index_In {A} (arr : list A) (i : Z) (x : A) :
  index arr i = Some x -> In x arr.
Proof. unfold index. destruct (i <? 0)%Z; [discriminate|]. apply nth_error_In. Qed.

Lemma ensures_pickRandom_In {A} (arr : list A) :
  arr <> [] ->
  Reference.ensures (pickRandom random arr)
                    (fun x => exists a, x = Some a /\ In a arr).
Proof.
  intros Hne. unfold pickRandom.
  eapply ensures_bind; [apply (ensures_random random_range)|].
  intros r [H0 H1]. destruct (index_in_range Hne H0 H1) as (x & Hx).
  apply ensures_ret. exists x. split; [exact Hx | eapply index_In; eauto].
Qed.

(** [new Date(Date.now() - Math.random() * span)] lies within [span]
    milliseconds before the reading of the clock. *)
Lemma time_value_window (t k : Z) (r : Q) :
  0 <= r -> r < 1 -> (0 <= k)%Z ->
  (t - k <= time_value (inject_Z t - r * inject_Z k) <= t)%Z.
Proof.
  intros H0 H1 Hk.
  assert (HK : 0 <= inject_Z k).
  { replace 0 with (inject_Z 0) by reflexivity. now rewrite <- Zle_Qle. }
  assert (Hm0 : 0 <= r * inject_Z k) by now apply Qmult_le_0_compat.
  assert (Hm1 : r * inject_Z k <= 1 * inject_Z k).
  { apply Qmult_le_compat_r; [now apply Qlt_le_weak | exact HK]. }
  assert (Hlo : inject_Z (t - k) <= inject_Z t - r * inject_Z k).
  { unfold Z.sub. rewrite inject_Z_plus, inject_Z_opp. lra. }
  assert (Hhi : inject_Z t - r * inject_Z k <= inject_Z t) by lra.
  unfold time_value. destruct (Qle_bool 0 (inject_Z t - r * inject_Z k)).
  - pose proof (Qfloor_resp_le _ _ Hlo) as A.
    pose proof (Qfloor_resp_le _ _ Hhi) as B.
    rewrite Qfloor_Z in A, B. lia.
  - pose proof (Qceiling_resp_le _ _ Hlo) as A.
    pose proof (Qceiling_resp_le _ _ Hhi) as B.
    rewrite Qceiling_Z in A, B. lia.
Qed.

Lemma floor_quarter (r : Q) :
  0 <= r -> r < 1 -> (0 <= floor (r * 4) <= 3)%Z.
Proof.
  intros H0 H1. unfold floor. split.
  - assert (H : 0 <= r * 4) by lra.
    apply Qfloor_resp_le in H. exact H.
  - assert (H : (Qfloor (r * 4) < 4)%Z).
    { rewrite Zlt_Qlt. eapply Qle_lt_trans; [apply Qfloor_le|].
      change (inject_Z 4) with 4. lra. }
    lia.
Qed.

Lemma ensures_sentiment_ranges :
  Reference.ensures (generateSentiment random now)
    (fun s => - (1) <= score s /\ score s <= 1
              /\ (7 # 10) <= confidence s /\ confidence s <= 1
              /\ Props.label_agrees s
              /\ (1 <= List.length (keywords s) <= 4)%nat).
Proof.
  unfold generateSentiment.
  eapply ensures_bind; [apply (ensures_random random_range) | intros r [H0 H1]].
  eapply ensures_bind; [apply (ensures_random random_range) | intros r1 [H2 H3]].
  eapply ensures_bind; [apply (ensures_random random_range) | intros r2 [H4 H5]].
  eapply ensures_bind; [apply ensures_now | intros t _].
  apply ensures_ret. unfold Props.label_agrees.
  cbn [score confidence keywords label].
  split; [lra|]. split; [lra|]. split; [lra|]. split; [lra|]. split.
  - destruct (JS.gtb (r * 2 - 1) (3 # 10)) eqn:E1.
    + now apply gtb_true_iff in E1.
    + apply gtb_false_iff in E1.
      destruct (JS.gtb (- (3 # 10)) (r * 2 - 1)) eqn:E2.
      * now apply gtb_true_iff in E2.
      * apply gtb_false_iff in E2. split; assumption.
  - pose proof (floor_quarter H4 H5) as Hf. unfold JS.slice_to.
    destruct (floor (r2 * 4) + 1 <? 0)%Z eqn:E; [apply Z.ltb_lt in E; lia|].
    rewrite length_firstn. cbn [List.length]. lia.
Qed.

(** With the filters that the store starts with, a tweet is shown iff
    its spam score is at most 0.7, its author has 10 followers or more
    and its sentiment, where it has one, lies between -1 and 1. *)
Lemma visible_default (t : Tweet) :
  Store.visible Props.default_filters t = true
  <-> (forall sc, spamScore t = Some sc -> sc <= (7 # 10))
      /\ 10 <= followerCount (author t)
      /\ (forall s, sentiment t = Some s -> - (1) <= score s /\ score s <= 1).
Proof.
  unfold Store.visible, Props.default_filters, Store.initialTweets.
  cbn [Store.filters Store.showSpam Store.showBots Store.minInfluence
       Store.filter_categories Store.sentimentRange fst snd List.length
       negb Nat.ltb Nat.leb andb].
  set (b := match spamScore t with
            | Some sc => negb (JS.is_zero sc) && JS.gtb sc (7 # 10)
            | None => false
            end).
  assert (Hb : b = false <-> forall sc, spamScore t = Some sc -> sc <= (7 # 10)).
  { unfold b. destruct (spamScore t) as [sc|].
    - destruct (JS.is_zero sc) eqn:Ez; cbn [negb andb].
      + apply is_zero_true_iff in Ez.
        split; [intros _ ? [= <-]; lra | reflexivity].
      + rewrite gtb_false_iff.
        split; [intros H ? [= <-]; exact H | intros H; now apply H].
    - split; [discriminate | reflexivity]. }
  destruct b.
  - split; [discriminate|]. intros (H & _). apply Hb in H. discriminate.
  - destruct (JS.gtb 10 (followerCount (author t))) eqn:E10.
    + apply gtb_true_iff in E10. split; [discriminate|]. intros (_ & H & _). lra.
    + apply gtb_false_iff in E10.
      destruct (JS.gtb 0 (followerCount (author t))) eqn:E0;
        [apply gtb_true_iff in E0; lra|].
      assert (Hs : forall sc, spamScore t = Some sc -> sc <= (7 # 10))
        by now apply Hb.
      destruct (sentiment t) as [s|].
      * destruct (JS.gtb (-1) (score s)) eqn:Ea; cbn [orb].
        { apply gtb_true_iff in Ea. split; [discriminate|].
          intros (_ & _ & H). destruct (H s eq_refl). lra. }
        apply gtb_false_iff in Ea.
        destruct (JS.gtb (score s) 1) eqn:Eb.
        { apply gtb_true_iff in Eb. split; [discriminate|].
          intros (_ & _ & H). destruct (H s eq_refl). lra. }
        apply gtb_false_iff in Eb.
        split; [intros _ | reflexivity].
        split; [exact Hs|]. split; [exact E10|].
        intros ? [= <-]. split; lra.
      * split; [intros _ | reflexivity].
        split; [exact Hs|]. split; [exact E10 | discriminate].
Qed.

Lemma mock_bot (u : MockUser) :
  In u MOCK_USERNAMES ->
  (10 <= followers u <-> m_username u <> Props.the_bot).
Proof.
  intros H. unfold MOCK_USERNAMES in H. simpl In in H. unfold Props.the_bot.
  repeat (destruct H as [<- | H];
          [ cbn [followers m_username];
            split; intros H';
            first [ discriminate | lra | exfalso; lra | now elim H' ] | ]).
  contradiction.
Qed.

Lemma visible_mock (t : Tweet) (sc : Q) :
  Props.mock_author t ->
  Props.in_schema_ranges t ->
  spamScore t = Some sc ->
  (10 <= followerCount (author t) -> sc <= (7 # 10)) ->
  Store.visible Props.default_filters t = Props.not_by_bot t.
Proof.
  intros (u & Hu & Hname & Hf) [Hr _] Hsc Hlow.
  pose proof (mock_bot Hu) as Hbot. rewrite <- Hname, <- Hf in Hbot.
  unfold Props.not_by_bot.
  destruct (String.eqb_spec (username (author t)) Props.the_bot) as [E | E];
    cbn [negb].
  - destruct (Store.visible Props.default_filters t) eqn:V; [|reflexivity].
    apply visible_default in V. destruct V as (_ & V & _).
    apply Hbot in V. contradiction.
  - apply visible_default. split; [|split].
    + intros ? E'. rewrite Hsc in E'. injection E' as <-.
      apply Hlow. now apply Hbot.
    + now apply Hbot.
    + intros s Hs. rewrite Hs in Hr. tauto.
Qed.

Lemma ensures_mock_tweet :
  Reference.ensures (generateMockTweet random now log10 toString36)
    (fun t => Props.generated now 60000 t
              /\ Store.visible Props.default_filters t = Props.not_by_bot t).
Proof.
  unfold generateMockTweet.
  eapply ensures_bind;
    [apply ensures_pickRandom_In; discriminate | intros x (a & -> & Ha)].
  eapply ensures_bind;
    [apply ensures_generateCategory, random_range | intros category _].
  eapply ensures_bind; [apply ensures_defined | intros author ->].
  eapply ensures_bind;
    [apply (ensures_random random_range) | intros r [H0 H1]].
  eapply ensures_bind; [apply ensures_generateId, random_range | intros ? _].
  eapply ensures_bind;
    [apply ensures_generateTweetText, random_range | intros ? _].
  eapply ensures_bind;
    [apply ensures_generateMetrics, random_range | intros ? _].
  eapply ensures_bind; [apply ensures_clock | intros t (n & ->)].
  eapply ensures_bind;
    [apply (ensures_random random_range) | intros r' [H0' H1']].
  eapply ensures_bind;
    [apply ensures_sentiment_ranges
    | intros s (Hs1 & Hs2 & Hs3 & Hs4 & Hs5 & Hs6)].
  apply ensures_ret.
  match goal with
  | |- Props.generated _ _ ?t /\ _ =>
      assert (Hg : Props.generated now 60000 t)
  end.
  { unfold Props.generated, Props.in_schema_ranges, Props.mock_author,
      Props.within.
    cbn [source sentiment spamScore author createdAt isFiltered username
         followerCount].
    split; [reflexivity|]. split.
    { split; [repeat split; lra|].
      destruct (JS.gtb 10 (followers a)); split; lra. }
    split; [exists a; auto|]. split.
    { exists n. apply (@time_value_window (now n) 60000 r' H0' H1'). lia. }
    split; [reflexivity|]. exists s. auto. }
  split; [exact Hg|].
  destruct Hg as (_ & Hr & Ha' & _).
  eapply visible_mock; [exact Ha' | exact Hr | reflexivity |].
  cbn [author followerCount]. intros H10.
  apply gtb_false_iff in H10. rewrite H10. lra.
Qed.

Lemma ensures_spike_tweet (topic : string) :
  Reference.ensures (Burst.spikeTweet random now log10 toString36 topic)
    (fun t => Props.of_spike now topic t
              /\ Store.visible Props.default_filters t = Props.not_by_bot t).
Proof.
  unfold Burst.spikeTweet.
  eapply ensures_bind;
    [apply ensures_pickRandom_In; discriminate | intros x (a & -> & Ha)].
  eapply ensures_bind; [apply ensures_generateId, random_range | intros ? _].
  eapply ensures_bind;
    [apply ensures_pickRandom_In; discriminate | intros y (v & -> & Hv)].
  eapply ensures_bind; [apply ensures_defined | intros author ->].
  eapply ensures_bind; [apply ensures_defined | intros txt ->].
  eapply ensures_bind;
    [apply ensures_generateMetrics, random_range | intros ? _].
  eapply ensures_bind; [apply ensures_clock | intros t (n & ->)].
  eapply ensures_bind;
    [apply (ensures_random random_range) | intros r' [H0' H1']].
  eapply ensures_bind;
    [apply ensures_sentiment_ranges
    | intros s (Hs1 & Hs2 & Hs3 & Hs4 & Hs5 & Hs6)].
  apply ensures_ret.
  match goal with
  | |- Props.of_spike _ _ ?t /\ _ =>
      assert (Hg : Props.generated now 10000 t)
  end.
  { unfold Props.generated, Props.in_schema_ranges, Props.mock_author,
      Props.within.
    cbn [source sentiment spamScore author createdAt isFiltered username
         followerCount].
    split; [reflexivity|]. split.
    { split; [repeat split; lra | split; lra]. }
    split; [exists a; auto|]. split.
    { exists n. apply (@time_value_window (now n) 10000 r' H0' H1'). lia. }
    split; [reflexivity|]. exists s. auto. }
  split.
  - unfold Props.of_spike. cbn [category spamScore text]. auto.
  - destruct Hg as (_ & Hr & Ha' & _).
    eapply visible_mock; [exact Ha' | exact Hr | reflexivity |].
    intros _. lra.
Qed.

(** X22.  Every mock tweet is well formed: the generator never throws,
    and each tweet it writes is marked as a mock, has a sentiment score
    between -1 and 1 with the label that the score asks for, a
    confidence between 0.7 and 1, one to four keywords and a spam score
    between 0 and 1, is by one of the mock users and is dated within
    the minute before a reading of the clock.
    [generateMockTweets(count)] yields [count] such tweets. *)
Theorem mock_tweets_generated (count : JS.JNum) :
  Reference.ensures (generateMockTweet random now log10 toString36)
                    (Props.generated now 60000)
  /\ Reference.ensures (generateMockTweets random now log10 toString36 count)
       (fun l => List.length l = JS.toLength count
                 /\ Forall (Props.generated now 60000) l).
Proof.
  assert (H : Reference.ensures (generateMockTweet random now log10 toString36)
                                (Props.generated now 60000)).
  { eapply ensures_weaken; [apply ensures_mock_tweet|]. now intros t [H _]. }
  split; [exact H|]. unfold generateMockTweets. now apply ensures_replicateG.
Qed.

(** X23.  With the filters that the store starts with, the view of the
    store shows every mock tweet but those of the one mock user with
    fewer than 10 followers, whose spam score is 0.8 or more. *)
Theorem mock_tweets_default_view (count : JS.JNum) :
  Reference.ensures (generateMockTweets random now log10 toString36 count)
    (fun l => Store.useFilteredTweets (Store.set_tweets l Store.initialTweets)
              = filter Props.not_by_bot l).
Proof.
  unfold generateMockTweets.
  eapply ensures_weaken;
    [apply ensures_replicateG, ensures_mock_tweet|].
  intros l [_ Hall]. unfold Store.useFilteredTweets, Store.set_tweets.
  cbn [Store.tweets Store.filters]. apply filter_ext_in.
  intros t Ht. rewrite Forall_forall in Hall. now destruct (Hall t Ht).
Qed.

End MockRanges.

(** ** Spikes of the mock generator *)

Section SpikeBursts.
Import Schema Mock Generator Conditions.

Lemma half_in_unit_interval : Reference.unit_interval Props.half.
Proof. intros n. unfold Props.half. split; lra. Qed.

Lemma head_count {A} (p : A -> bool) (n m : nat) (l older : list A) :
  (n <= m)%nat -> (n <= List.length l)%nat ->
  Forall (fun x => p x = true) l ->
  (n <= List.length (filter p (firstn m (l ++ older))))%nat.
Proof.
  revert n m. induction l as [|x l IH]; intros n m Hnm Hn Hall.
  - simpl in Hn. lia.
  - destruct n as [|n]; [lia|]. destruct m as [|m]; [lia|].
    inversion Hall as [|? ? Hx Hl]; subst. simpl. rewrite Hx. simpl.
    apply le_n_S. apply IH; [lia | simpl in Hn; lia | exact Hl].
Qed.

Lemma append_empty (s : string) : (s ++ "")%string = s.
Proof. induction s; simpl; congruence. Qed.

Lemma variation_occurs (topic v : string) :
  In v (Burst.variations topic) -> Props.occurs_ignoring_case topic v.
Proof.
  unfold Burst.variations. cbn [In]. intros H.
  assert (Hpre : exists pre, v = (pre ++ topic)%string).
  { destruct H as [<- | [<- | [<- | [<- | [<- | []]]]]];
      [exists ""%string | eexists ..]; reflexivity. }
  destruct Hpre as [pre ->].
  unfold Props.occurs_ignoring_case, Props.occurs.
  exists (JS.toLowerCase pre), ""%string.
  now rewrite toLowerCase_app, append_empty.
Qed.

Lemma spike_category (l older : list Tweet) (cats : list TweetCategory)
      (c : AlertCondition) (ctx : AlertContext) :
  Forall (fun t => category t = Some breaking_news) l ->
  (5 <= List.length l)%nat ->
  ctype c = category_match ->
  categories c = Some cats ->
  In breaking_news cats ->
  Reference.unset (threshold c) ->
  evaluateCondition c (Props.with_tweets ctx (l ++ older)) = true.
Proof.
  intros Hall Hlen Hty Hcats Hin Hun. unfold evaluateCondition.
  rewrite Hty, Hcats. destruct cats as [|c0 cs]; [contradiction|].
  cbn [Props.with_tweets tweets]. rewrite (or_default_unset _ _ Hun).
  apply geb_true_iff. unfold matchCount, JS.len, JS.slice0.
  change 5 with (inject_Z 5). rewrite <- Zle_Qle.
  enough (5 <= List.length
                 (filter (category_in (c0 :: cs)) (firstn 20 (l ++ older))))%nat
    by lia.
  apply head_count; [lia | exact Hlen |].
  eapply Forall_impl; [|exact Hall]. intros t Ht. unfold category_in.
  rewrite Ht. apply existsb_exists. exists breaking_news.
  split; [exact Hin | reflexivity].
Qed.

Lemma spike_keyword (topic : string) (l older : list Tweet)
      (kws : list string) (c : AlertCondition) (ctx : AlertContext) :
  Forall (fun t => In (text t) (Burst.variations topic)) l ->
  (1 <= List.length l)%nat ->
  ctype c = keyword_match ->
  ckeywords c = Some kws ->
  In topic kws ->
  evaluateCondition c (Props.with_tweets ctx (l ++ older)) = true.
Proof.
  intros Hall Hlen Hty Hkws Hin. unfold evaluateCondition.
  rewrite Hty, Hkws. destruct kws as [|k0 ks]; [contradiction|].
  cbn [Props.with_tweets tweets]. unfold JS.some, JS.slice0.
  destruct l as [|t l]; [simpl in Hlen; lia|].
  inversion Hall as [|? ? Ht _]; subst.
  apply existsb_exists. exists t. split; [now left|].
  apply existsb_exists. exists (JS.toLowerCase topic).
  split; [now apply in_map|]. apply includes_occurs.
  now apply variation_occurs.
Qed.

Variable random : nat -> Q.
Variable now : nat -> Z.
Variable log10 : Q -> Q.
Variable toString36 : Q -> string.

Hypothesis random_range : Reference.unit_interval random.

(** X24.  [generateSpike(topic, count)] never throws and yields [count]
    tweets (20 when no count is given, none for a negative count).
    Each is a well-formed mock tweet dated within the 10 seconds before
    a reading of the clock, is breaking news with the spam score 0.1,
    and has the topic, alone or behind one of four openers, as its
    text; the default view of the store shows all of them but those of
    the mock user with fewer than 10 followers. *)
Theorem spike_shape (topic : string) (count : option Z) :
  Reference.ensures
    (Burst.generateSpike random now log10 toString36 topic count)
    (fun l => List.length l = Z.to_nat (Props.spike_size count)
              /\ Forall (Props.of_spike now topic) l
              /\ Store.useFilteredTweets (Store.set_tweets l Store.initialTweets)
                 = filter Props.not_by_bot l).
Proof.
  unfold Burst.generateSpike. fold (Props.spike_size count).
  eapply ensures_weaken;
    [apply ensures_replicateG, (ensures_spike_tweet now log10 toString36 random_range topic)|].
  cbn beta. intros l [Hlen Hall]. split; [exact Hlen|]. split.
  - eapply Forall_impl; [|exact Hall]. now intros t [H _].
  - unfold Store.useFilteredTweets, Store.set_tweets.
    cbn [Store.tweets Store.filters]. apply filter_ext_in.
    intros t Ht. rewrite Forall_forall in Hall. now destruct (Hall t Ht).
Qed.

(** X25.  A generated spike of five tweets or more fires the alerts
    that watch for it: put in front of the tweets of the context, it
    satisfies every [category_match] condition on breaking news whose
    threshold is unset, and every [keyword_match] condition that lists
    the topic. *)
Theorem spike_fires (topic : string) (count : option Z) :
  (5 <= Props.spike_size count)%Z ->
  Reference.ensures
    (Burst.generateSpike random now log10 toString36 topic count)
    (fun l => forall (ctx : AlertContext) (older : list Tweet) (c : AlertCondition),
        (ctype c = category_match ->
         (exists cats, categories c = Some cats /\ In breaking_news cats) ->
         Reference.unset (threshold c) ->
         evaluateCondition c (Props.with_tweets ctx (l ++ older)) = true)
        /\ (ctype c = keyword_match ->
            (exists kws, ckeywords c = Some kws /\ In topic kws) ->
            evaluateCondition c (Props.with_tweets ctx (l ++ older)) = true)).
Proof.
  intros Hcount. unfold Burst.generateSpike. fold (Props.spike_size count).
  eapply ensures_weaken;
    [apply ensures_replicateG, (ensures_spike_tweet now log10 toString36 random_range topic)|].
  cbn beta. intros l [Hlen Hall] ctx older c.
  assert (Hl : (5 <= List.length l)%nat) by (rewrite Hlen; unfold JS.toLength; lia).
  split.
  - intros Hty (cats & Hcats & Hin) Hun.
    eapply spike_category; eauto.
    eapply Forall_impl; [|exact Hall]. intros t [Ht _]. apply Ht.
  - intros Hty (kws & Hkws & Hin).
    eapply spike_keyword; eauto; [|lia].
    eapply Forall_impl; [|exact Hall]. intros t [Ht _]. apply Ht.
Qed.

End SpikeBursts.

Lemma mock_tweets_generated_witness :
  exists l s',
    Generator.generateMockTweets Props.half Props.one_hour (fun _ => 0)
      (fun _ => "0"%string) (Some 3%Z) Props.fresh = Some (l, s')
    /\ List.length l = 3%nat
    /\ Forall (Props.generated Props.one_hour 60000) l.
Proof.
  destruct (@mock_tweets_generated Props.half Props.one_hour (fun _ => 0)
              (fun _ => "0"%string) half_in_unit_interval (Some 3%Z)) as [_ H].
  destruct (H Props.fresh) as (l & s' & E & Hl & Hall).
  exists l, s'. auto.
Defined.

Lemma mock_tweets_default_view_witness :
  exists l s',
    Generator.generateMockTweets Props.half Props.one_hour (fun _ => 0)
      (fun _ => "0"%string) (Some 3%Z) Props.fresh = Some (l, s')
    /\ Store.useFilteredTweets (Store.set_tweets l Store.initialTweets)
       = filter Props.not_by_bot l.
Proof.
  destruct (@mock_tweets_default_view Props.half Props.one_hour (fun _ => 0)
              (fun _ => "0"%string) half_in_unit_interval (Some 3%Z) Props.fresh)
    as (l & s' & E & H).
  exists l, s'. auto.
Defined.

Lemma spike_shape_witness :
  exists l s',
    Burst.generateSpike Props.half Props.one_hour (fun _ => 0)
      (fun _ => "0"%string) "rates cut"%string None Props.fresh = Some (l, s')
    /\ List.length l = 20%nat
    /\ Forall (Props.of_spike Props.one_hour "rates cut"%string) l.
Proof.
  destruct (@spike_shape Props.half Props.one_hour (fun _ => 0)
              (fun _ => "0"%string) half_in_unit_interval "rates cut"%string
              None Props.fresh)
    as (l & s' & E & Hl & Hall & _).
  exists l, s'. auto.
Defined.

Lemma spike_fires_witness :
  exists l s',
    Burst.generateSpike Props.half Props.one_hour (fun _ => 0)
      (fun _ => "0"%string) "rates cut"%string (Some 5%Z) Props.fresh
    = Some (l, s')
    /\ Conditions.evaluateCondition
         (Samples.condition Schema.category_match None
            (Some [Schema.breaking_news]))
         (Props.with_tweets (Samples.tweets_only []) (l ++ [])) = true.
Proof.
  destruct (@spike_fires Props.half Props.one_hour (fun _ => 0)
              (fun _ => "0"%string) half_in_unit_interval "rates cut"%string
              (Some 5%Z)) with (s := Props.fresh)
    as (l & s' & E & H).
  - simpl. lia.
  - exists l, s'. split; [exact E|].
    apply (proj1 (H (Samples.tweets_only []) []
                    (Samples.condition Schema.category_match None
                       (Some [Schema.breaking_news])))).
    + reflexivity.
    + exists [Schema.breaking_news]. split; [reflexivity | now left].
    + exact I.
Defined.

(** ** The order of the providers *)

Section ProviderOrder.
Import Schema Rss Mock Route.

Lemma rssTier_source (w : World) (request : Request) (r : Response) :
  rssTier w request = Some (Returned r) -> r_source r = rss.
Proof.
  unfold rssTier. destruct (fetchAllRssFeeds _ _ _ _) as [[tw errs]|];
    [|discriminate].
  destruct (0 <? _)%nat; [|discriminate]. now intros [= <-].
Qed.

Lemma newsApiTier_fell (w : World) (request : Request) :
  newsApiTier w request = FallThrough -> Reference.news_fails w request.
Proof.
  unfold newsApiTier, Reference.news_fails.
  destruct (isNewsApiConfigured w); [|now left].
  destruct (fetchNewsArticles w _ _) as [resp|]; [|now right].
  destruct (String.eqb_spec (status resp) "ok"); [discriminate | now right].
Qed.

Lemma xApiTier_fell (w : World) (request : Request) :
  xApiTier w request = FallThrough -> Reference.x_fails w request.
Proof.
  unfold xApiTier, Reference.x_fails.
  destruct (isXApiConfigured w); [|now left].
  destruct (searchRecentTweets w _ _) as [tw|m]; [discriminate|].
  right. now exists m.
Qed.

Lemma newsApiTier_errors (w : World) (request : Request) (r : Response) :
  newsApiTier w request = Returned r -> r_errors r = [].
Proof.
  unfold newsApiTier. destruct (isNewsApiConfigured w); [|discriminate].
  destruct (fetchNewsArticles w _ _) as [resp|]; [|discriminate].
  destruct (String.eqb (status resp) "ok"); [|discriminate].
  now intros [= <-].
Qed.

Lemma xApiTier_errors (w : World) (request : Request) (r : Response) :
  xApiTier w request = Returned r -> r_errors r = [].
Proof.
  unfold xApiTier. destruct (isXApiConfigured w); [|discriminate].
  destruct (searchRecentTweets w _ _) as [tw|]; [|discriminate].
  now intros [= <-].
Qed.

Lemma mockTier_generated (w : World) (request : Request) (r : Response) :
  Reference.unit_interval (random w) ->
  mockTier w request = Some r ->
  r_errors r = []
  /\ List.length (r_tweets r) = JS.toLength (max_of request)
  /\ Forall (Props.generated (now w) 60000) (r_tweets r).
Proof.
  intros Hr. unfold mockTier, Generator.generateMockTweets.
  destruct (@ensures_replicateG _
              (Generator.generateMockTweet (random w) (now w) (log10 w)
                 (toString36 w))
              _ (JS.toLength (max_of request))
              (ensures_mock_tweet (now w) (log10 w) (toString36 w) Hr)
              {| draws := 0; reads := 0 |})
    as (l & s' & -> & Hl & Hall).
  intros [= <-]. cbn [r_errors r_tweets]. split; [reflexivity|].
  split; [exact Hl|]. eapply Forall_impl; [|exact Hall]. now intros t [H _].
Qed.

(** X26.  The source of an answer tells which providers failed.  An
    answer that is not marked [rss] means that the feeds gave no item
    after the filter and the cap, and it carries none of their
    diagnostics; one marked [x_api] or [mock] means moreover that
    NewsAPI was unconfigured or failed; one marked [mock] that the X API
    was unconfigured or failed too, and then, with [Math.random] in its
    range, the answer holds exactly [max] well-formed mock tweets. *)
Theorem source_tells_fallbacks (w : World) (request : Request) (r : Response) :
  GET w request = Some r ->
  (r_source r = rss -> rssTier w request = Some (Returned r))
  /\ (r_source r <> rss ->
      rssTier w request = Some FallThrough /\ r_errors r = [])
  /\ (r_source r = x_api \/ r_source r = mock ->
      Reference.news_fails w request)
  /\ (r_source r = mock ->
      Reference.x_fails w request
      /\ (Reference.unit_interval (random w) ->
          List.length (r_tweets r) = JS.toLength (max_of request)
          /\ Forall (Props.generated (now w) 60000) (r_tweets r))).
Proof.
  unfold GET. destruct (rssTier w request) as [[r'|]|] eqn:Er; [| |discriminate].
  - intros [= <-]. pose proof (rssTier_source _ _ Er) as Hs.
    split; [reflexivity|]. split; [congruence|].
    split; [intros [H | H]; congruence | congruence].
  - destruct (newsApiTier w request) as [r'|] eqn:En.
    + intros [= <-]. pose proof (newsApiTier_source _ _ En) as Hs.
      split; [congruence|].
      split; [intros _; split; [reflexivity | eapply newsApiTier_errors; eauto]|].
      split; [intros [H | H]; congruence | congruence].
    + pose proof (newsApiTier_fell _ _ En) as Hn.
      destruct (xApiTier w request) as [r'|] eqn:Ex.
      * intros [= <-]. pose proof (xApiTier_source _ _ Ex) as Hs.
        split; [congruence|].
        split; [intros _; split; [reflexivity | eapply xApiTier_errors; eauto]|].
        split; [intros _; exact Hn | congruence].
      * pose proof (xApiTier_fell _ _ Ex) as Hx. intros Hm.
        pose proof (mockTier_source _ _ Hm) as Hs.
        split; [congruence|]. split.
        { intros _. split; [reflexivity|].
          unfold mockTier in Hm.
          destruct (Generator.generateMockTweets _ _ _ _ _ _) as [[tw s]|];
            [|discriminate].
          now injection Hm as <-. }
        split; [intros _; exact Hn|].
        intros _. split; [exact Hx|]. intros Hr.
        now destruct (@mockTier_generated w request r Hr Hm) as (_ & H1 & H2).
Qed.

Lemma source_tells_fallbacks_witness :
  Reference.news_fails Samples.nothing_works (Samples.request (Some "2"%string))
  /\ Reference.x_fails Samples.nothing_works (Samples.request (Some "2"%string))
  /\ exists r,
       GET Samples.nothing_works (Samples.request (Some "2"%string)) = Some r
       /\ List.length (r_tweets r) = 2%nat.
Proof.
  assert (Hr : Reference.unit_interval (random Samples.nothing_works)).
  { intros n. cbn [random Samples.nothing_works]. split; lra. }
  destruct (@mockTier_answers Samples.nothing_works
              (Samples.request (Some "2"%string)) Hr)
    as (r & Hm & Hs & _).
  assert (E : GET Samples.nothing_works (Samples.request (Some "2"%string))
              = Some r).
  { unfold GET.
    replace (rssTier Samples.nothing_works (Samples.request (Some "2"%string)))
      with (Some FallThrough) by (vm_compute; reflexivity).
    replace (newsApiTier Samples.nothing_works (Samples.request (Some "2"%string)))
      with FallThrough by reflexivity.
    replace (xApiTier Samples.nothing_works (Samples.request (Some "2"%string)))
      with FallThrough by reflexivity.
    exact Hm. }
  destruct (@source_tells_fallbacks Samples.nothing_works
              (Samples.request (Some "2"%string)) r E)
    as (_ & _ & Hn & Hx).
  destruct (Hx Hs) as (Hxf & Hg). destruct (Hg Hr) as (Hl & _).
  split; [apply Hn; now right|]. split; [exact Hxf|].
  exists r. split; [exact E | exact Hl].
Defined.

End ProviderOrder.

(** ** Notifications *)

Section NotificationFacts.
Import Schema Store.

(** X27.  The notifications are a ring buffer of capacity 10: after
    any number of notifications has been added, the store shows the
    last 10 of what it showed and was given, oldest first, and the
    alerts are as they were. *)
Theorem notification_ring (added : list Notification) (state : AlertState) :
  (List.length (activeNotifications state) <= 10)%nat ->
  let after := fold_left (fun st n => addNotification n st) added state in
  activeNotifications after
  = slice_last 10 (activeNotifications state ++ added)
  /\ (List.length (activeNotifications after) <= 10)%nat
  /\ alerts after = alerts state.
Proof.
  intros Hs after.
  assert (H : activeNotifications after
              = slice_last 10 (activeNotifications state ++ added)
              /\ alerts after = alerts state).
  { subst after. revert state Hs.
    induction added as [|n added IH]; intros state Hs.
    - cbn [fold_left]. rewrite app_nil_r. unfold slice_last.
      replace (List.length (activeNotifications state) - 10)%nat
        with 0%nat by lia.
      split; reflexivity.
    - cbn [fold_left]. destruct (IH (addNotification n state)) as [H1 H2].
      + unfold addNotification. cbn [activeNotifications].
        rewrite slice_last_length. lia.
      + rewrite H1, H2. unfold addNotification.
        cbn [activeNotifications alerts].
        rewrite slice_last_app, <- app_assoc. split; reflexivity. }
  destruct H as [H1 H2]. split; [exact H1|]. split; [|exact H2].
  rewrite H1, slice_last_length. lia.
Qed.

Lemma notification_ring_witness :
  let n := {| n_id := "n1"; message := "Velocity spike"; n_type := warning |} in
  List.length (activeNotifications
                 (fold_left (fun st n => addNotification n st)
                            (repeat n 11) initialAlerts)) = 10%nat.
Proof.
  intros n.
  destruct (@notification_ring (repeat n 11) initialAlerts) as (H & _ & _).
  - cbn [initialAlerts activeNotifications List.length]. lia.
  - rewrite H. reflexivity.
Defined.

End NotificationFacts.
